(** * Irish_virus: the HTML-table loader of [main.py]

    A shallow embedding of the record-extraction pipeline of [main.py]
    ([Information], [parse_html_table], [clean_table_title], [load_file])
    together with the properties the specification states about it.

    Conventions of the embedding.
    - A Python [str] is a [string]; a character is a code point below 256.
    - A Python [int] is a [Z].
    - An exception is a constructor of [exn]; a computation that can raise
      returns a [res].
    - [Information] objects are mutable and shared by reference, so they live
      in a store indexed by address and a list of objects is a list of
      addresses.
    - A [float] is kept abstract: the loader is written over the few float
      operations it uses and is run both with exact rationals and with IEEE
      binary64.
    - [int], [float] and [str] convert numbers of any length (the digit limit
      of recent interpreters is left out).
    - [load_file] is one run of the body of the function; the [st.cache]
      decorator is put around it in [load_file_cached].

    After the loader come the parts of the display code that compute:
    [markdown_table], the data of the charts, [plot_line_chart],
    [rescale_patch_size] and [plot_map].
    - A dictionary whose order is seen is the list of its items in
      insertion order.
    - What [matplotlib] and [plotly] are given is kept as data: the
      patches and texts put on the axes, the traces and the layout of a
      figure. *)

From Stdlib Require Import ZArith QArith Qabs Qpower Lqa String Ascii List Bool Lia.
From Stdlib Require Import DecimalString DecimalZ DecimalPos SpecFloat.
From stdpp Require Import base list strings functions sorting.
Import ListNotations.

Local Open Scope string_scope.
Local Open Scope list_scope.
Local Open Scope Z_scope.

(** ** Exceptions *)

Inductive exn : Type :=
| IndexError
| ValueError
| ZeroDivisionError.

Inductive res (A : Type) : Type :=
| Ok (a : A)
| Raise (e : exn).
Arguments Ok {A} a.
Arguments Raise {A} e.

Definition res_bind {A B : Type} (m : res A) (k : A -> res B) : res B :=
  match m with
  | Ok a => k a
  | Raise e => Raise e
  end.

(** [try: m except IndexError: h] *)
Definition except_IndexError {A : Type} (m : res A) (h : res A) : res A :=
  match m with
  | Raise IndexError => h
  | _ => m
  end.

(** [l[0]] *)
Definition getitem0 {A : Type} (l : list A) : res A :=
  match l with
  | x :: _ => Ok x
  | [] => Raise IndexError
  end.

(** ** Strings *)

Module Str.

Definition is_digit (c : ascii) : bool :=
  let n := nat_of_ascii c in (48 <=? n)%nat && (n <=? 57)%nat.

(** The character class [[0-9.,]] of the pattern in [Information.__init__]. *)
Definition in_class (c : ascii) : bool :=
  is_digit c || Ascii.eqb c "." || Ascii.eqb c ",".

(** [str.isspace] on the code points below 256. *)
Definition is_space (c : ascii) : bool :=
  let n := nat_of_ascii c in
  ((9 <=? n)%nat && (n <=? 13)%nat) || ((28 <=? n)%nat && (n <=? 32)%nat)
  || (n =? 133)%nat || (n =? 160)%nat.

Fixpoint all (p : ascii -> bool) (s : string) : bool :=
  match s with
  | EmptyString => true
  | String c s' => p c && all p s'
  end.

Fixpoint any (p : ascii -> bool) (s : string) : bool :=
  match s with
  | EmptyString => false
  | String c s' => p c || any p s'
  end.

Definition is_empty (s : string) : bool :=
  match s with
  | EmptyString => true
  | String _ _ => false
  end.

Fixpoint lstrip (s : string) : string :=
  match s with
  | EmptyString => EmptyString
  | String c s' => if is_space c then lstrip s' else s
  end.

Fixpoint rstrip (s : string) : string :=
  match s with
  | EmptyString => EmptyString
  | String c s' =>
      let t := rstrip s' in
      if is_space c && is_empty t then EmptyString else String c t
  end.

(** [s.strip()] *)
Definition strip (s : string) : string := rstrip (lstrip s).

Fixpoint last_char (s : string) : option ascii :=
  match s with
  | EmptyString => None
  | String c EmptyString => Some c
  | String _ s' => last_char s'
  end.

Definition first_char (s : string) : option ascii :=
  match s with
  | EmptyString => None
  | String c _ => Some c
  end.

(** A string with no whitespace at either end. *)
Definition trimmed (s : string) : bool :=
  match first_char s, last_char s with
  | Some a, Some b => negb (is_space a) && negb (is_space b)
  | _, _ => true
  end.

Fixpoint is_prefix (p s : string) : bool :=
  match p, s with
  | EmptyString, _ => true
  | String a p', String b s' => Ascii.eqb a b && is_prefix p' s'
  | String _ _, EmptyString => false
  end.

(** [p in s] *)
Fixpoint contains (p s : string) : bool :=
  is_prefix p s ||
  match s with
  | EmptyString => false
  | String _ s' => contains p s'
  end.

End Str.

(** ** [re.findall( r"([0-9.,]+)", s )]

    The matches are the maximal runs of class characters, left to right.
    [cur] is the run being read, if one is open. *)

Fixpoint findall_from (cur : option string) (s : string) : list string :=
  match s with
  | EmptyString =>
      match cur with
      | Some r => [r]
      | None => []
      end
  | String c s' =>
      if Str.in_class c then
        findall_from (Some (match cur with
                            | Some r => r +:+ String c EmptyString
                            | None => String c EmptyString
                            end)) s'
      else
        match cur with
        | Some r => r :: findall_from None s'
        | None => findall_from None s'
        end
  end.

Definition findall (s : string) : list string := findall_from None s.

(** ** [int( m )] and [str( n )]

    [int] is only ever applied to a match of the pattern, a non-empty string
    over [[0-9.,]]; on such a string it returns the decimal value when every
    character is a digit and raises [ValueError] otherwise. *)

Definition py_int (s : string) : res Z :=
  match NilZero.uint_of_string s with
  | Some d => Ok (Z.of_uint d)
  | None => Raise ValueError
  end.

(** [str( n )] for an [int]. *)
Definition py_str (n : Z) : string := NilZero.string_of_int (Z.to_int n).

(** ** The parsed document ([bs4])

    A parsed document is a tree of tags and text nodes.  [find_all] returns
    the descendants with a given tag name in document order, [find] the first
    of them, [text] the concatenation of the text nodes below a node. *)

#[local] Set Warnings "-register-all".
Inductive node : Type :=
| NavigableString (s : string)
| Tag (name : string) (contents : list node).

Fixpoint descendants (n : node) : list node :=
  match n with
  | NavigableString _ => []
  | Tag _ cs =>
      (fix over (l : list node) : list node :=
         match l with
         | [] => []
         | c :: l' => c :: descendants c ++ over l'
         end) cs
  end.

Definition has_name (name : string) (n : node) : bool :=
  match n with
  | NavigableString _ => false
  | Tag name' _ => String.eqb name name'
  end.

(** [tag.find_all( name )] *)
Definition find_all (name : string) (n : node) : list node :=
  List.filter (has_name name) (descendants n).

(** [tag.find( name )], also written [tag.<name>]; [None] when absent. *)
Definition find (name : string) (n : node) : option node :=
  head (find_all name n).

(** [tag.text] *)
Fixpoint text (n : node) : string :=
  match n with
  | NavigableString s => s
  | Tag _ cs =>
      (fix over (l : list node) : string :=
         match l with
         | [] => EmptyString
         | c :: l' => text c +:+ over l'
         end) cs
  end.

(** [bool( tag )]: a tag is true whatever it contains. *)
Definition Tag_bool (el : node) : bool := true.

(** The dictionary [{ "cols": [ ], "data": [ ] }] of [parse_html_table]; its
    two keys are fixed, so it is a record with one field per key. *)
Record table_dict : Type := {
  cols : list (list string);
  data : list (list string)
}.

(** [[ el.text.strip() for el in row.find_all( "td" ) if el ]] *)
Definition row_cells (row : node) : list string :=
  map (fun el => Str.strip (text el))
      (List.filter Tag_bool (find_all "td" row)).

(** One turn of the loop of [parse_html_table]:
    [result[ "data" if row.strong is None else "cols" ].append( ... )] *)
Definition parse_row (result : table_dict) (row : node) : table_dict :=
  match find "strong" row with
  | None => {| cols := cols result; data := data result ++ [row_cells row] |}
  | Some _ => {| cols := cols result ++ [row_cells row]; data := data result |}
  end.

Definition parse_html_table (table : node) : table_dict :=
  fold_left parse_row (find_all "tr" table) {| cols := []; data := [] |}.

Definition clean_table_title (title : node) : string := Str.strip (text title).

(** [sum( l )] *)
Definition sum (l : list Z) : Z := fold_left Z.add l 0.

(** [l[ i ]] for an index [i >= 0] *)
Definition getitem {A : Type} (l : list A) (i : nat) : res A :=
  match nth_error l i with
  | Some x => Ok x
  | None => Raise IndexError
  end.

(** ** Floating point

    The operations of Python's [float] that the loader uses.  Both
    [float( text )] and [int / int] return the float nearest to an exact
    quotient of two integers, so one primitive, [fl_ratio], covers them.
    The loader is written once over this interface; it is instantiated with
    exact rational arithmetic ([Exact]) and with IEEE binary64 ([Binary64]). *)

Module Fixed3.

(** The strings ["{:.3f}".format( x )] can produce: an optional sign, at
    least one digit, a point and three digits, or one of the three
    non-finite spellings. *)
Definition shape (s : string) : Prop :=
  s = "inf" \/ s = "-inf" \/ s = "nan" \/
  exists (neg : bool) (ip fp : string),
    s = (if neg then "-" else "") +:+ ip +:+ "." +:+ fp
    /\ Str.all Str.is_digit ip = true /\ Str.is_empty ip = false
    /\ Str.all Str.is_digit fp = true /\ String.length fp = 3%nat.

End Fixed3.

Class PyFloat (F : Type) : Type := {
  (** the float nearest to [a / b], for [b <> 0] *)
  fl_ratio : Z -> Z -> F;
  (** [x * y] *)
  fl_mul : F -> F -> F;
  (** ["{:.3f}".format( x )] *)
  fl_format3 : F -> string
}.

(** What the loader relies on from the formatting. *)
Class PyFloatLaws (F : Type) `{PyFloat F} : Prop := {
  fl_format3_shape : forall x : F, Fixed3.shape (fl_format3 x)
}.

Definition fl_of_int `{PyFloat F} (n : Z) : F := fl_ratio n 1.

(** [a / b] on two [int]s.  (A quotient too large for a float raises
    [OverflowError]; the loader only divides a count by a total that
    includes it.) *)
Definition truediv `{PyFloat F} (a b : Z) : res F :=
  if b =? 0 then Raise ZeroDivisionError else Ok (fl_ratio a b).

(** The text before the first point, and the text after it if there is one. *)
Fixpoint split_point (s : string) : string * option string :=
  match s with
  | EmptyString => (EmptyString, None)
  | String c s' =>
      if Ascii.eqb c "." then (EmptyString, Some s')
      else let '(a, b) := split_point s' in (String c a, b)
  end.

(** [float( m )] on a match of the pattern: digits with at most one point and
    at least one digit in all; anything else raises [ValueError]. *)
Definition py_float `{PyFloat F} (s : string) : res F :=
  let '(ip, fp) := split_point s in
  let fp := default EmptyString fp in
  match NilZero.uint_of_string (ip +:+ fp) with
  | Some d => Ok (fl_ratio (Z.of_uint d) (10 ^ Z.of_nat (String.length fp)))
  | None => Raise ValueError
  end.

(** ** [class Information] *)

Section Loader.

Context {F : Type} `{PyFloat F}.

Record Information : Type := {
  description : string;
  number : Z;
  rate : F;
  info_type : string
}.

Definition set_rate (o : Information) (r : F) : Information :=
  {| description := description o;
     number := number o;
     rate := r;
     info_type := info_type o |}.

(** [try: self.number = int( re.findall( r"([0-9.,]+)", number )[ 0 ] )]
    [except IndexError: self.number = 0] *)
Definition parse_number (number : string) : res Z :=
  except_IndexError (res_bind (getitem0 (findall number)) py_int) (Ok 0).

(** [try: self.rate = float( re.findall( r"([0-9.,]+)", rate )[ 0 ] )]
    [except IndexError: self.rate = 0] *)
Definition parse_rate (rate : string) : res F :=
  except_IndexError (res_bind (getitem0 (findall rate)) py_float)
                    (Ok (fl_of_int 0)).

(** [Information.__init__] *)
Definition Information_init (description number rate info_type : string)
  : res Information :=
  res_bind (parse_number number) (fun self_number =>
  res_bind (parse_rate rate) (fun self_rate =>
  Ok {| description := description;
        number := self_number;
        rate := self_rate;
        info_type := info_type |})).

(** [Information.__str__] *)
Definition Information_str (self : Information) : string :=
  info_type self +:+ " - " +:+ description self +:+ ": "
  +:+ py_str (number self) +:+ " (" +:+ fl_format3 (rate self) +:+ "%)".

(** *** The object store

    An [Information] object is an address into the store; [next] is the
    first address not yet in use.  The store a call starts from is
    arbitrary. *)

Abbreviation addr := nat.

Record state : Type := {
  store : addr -> Information;
  next : addr
}.

Definition M (A : Type) : Type := state -> res (A * state).

Definition ret {A : Type} (a : A) : M A := fun st => Ok (a, st).

Definition bind {A B : Type} (m : M A) (k : A -> M B) : M B :=
  fun st =>
    match m st with
    | Ok (a, st') => k a st'
    | Raise e => Raise e
    end.

Definition lift {A : Type} (r : res A) : M A :=
  fun st =>
    match r with
    | Ok a => Ok (a, st)
    | Raise e => Raise e
    end.

Definition get_state : M state := fun st => Ok (st, st).

(** Allocating a fresh object. *)
Definition new (o : Information) : M addr :=
  fun st => Ok (next st, {| store := <[next st := o]> (store st);
                            next := S (next st) |}).

(** [el.rate = r] *)
Definition assign_rate (el : addr) (r : F) : M unit :=
  fun st => Ok (tt, {| store := <[el := set_rate (store st el) r]> (store st);
                       next := next st |}).

Notation "x <- m ;; k" := (bind m (fun x => k))
  (at level 100, m at next level, right associativity).

(** *** [load_file] *)

(** [row.extend( [ "" ] * ( 3 - len( row ) ) )]: a count below one adds
    nothing. *)
Definition extend_row (row : list string) : list string :=
  row ++ repeat EmptyString (3 - length row)%nat.

(** [Information( row[ 0 ], row[ 1 ], row[ 2 ], table_title )] on the
    extended row. *)
Definition record_of_row (row : list string) (table_title : string)
  : res Information :=
  let row := extend_row row in
  res_bind (getitem row 0) (fun row0 =>
  res_bind (getitem row 1) (fun row1 =>
  res_bind (getitem row 2) (fun row2 =>
  Information_init row0 row1 row2 table_title))).

(** [for row in parsed_table[ "data" ]: ... result.append( ... )] *)
Fixpoint for_rows (rows : list (list string)) (table_title : string)
         (result : list addr) : M (list addr) :=
  match rows with
  | [] => ret result
  | row :: rows' =>
      o <- lift (record_of_row row table_title) ;;
      el <- new o ;;
      for_rows rows' table_title (result ++ [el])
  end.

(** [for parsed_table, table_title in zip( ..., ... ): ...] *)
Fixpoint for_tables (pairs : list (table_dict * string))
         (result : list addr) : M (list addr) :=
  match pairs with
  | [] => ret result
  | (parsed_table, table_title) :: pairs' =>
      result' <- for_rows (data parsed_table) table_title result ;;
      for_tables pairs' result'
  end.

(** ["county" in el.info_type] *)
Definition is_county (o : Information) : bool :=
  Str.contains "county" (info_type o).

(** [for county in ...: county.rate = county.number / number_cases * 100] *)
Fixpoint for_counties (counties : list addr) (number_cases : Z) : M unit :=
  match counties with
  | [] => ret tt
  | county :: counties' =>
      st <- get_state ;;
      q <- lift (truediv (number (store st county)) number_cases) ;;
      _ <- assign_rate county (fl_mul q (fl_of_int 100)) ;;
      for_counties counties' number_cases
  end.

(** [zip( [ parse_html_table( t ) for t in ... ], [ clean_table_title( t ) for t in ... ] )] *)
Definition zip_tables (file_content : node) : list (table_dict * string) :=
  combine (map parse_html_table (find_all "table" file_content))
          (map clean_table_title (find_all "h2" file_content)).

Definition load_file (file_content : node) : M (list addr) :=
  result <- for_tables (zip_tables file_content) [] ;;
  st <- get_state ;;
  let number_cases :=
    sum (map (fun el => number (store st el))
             (List.filter (fun el => is_county (store st el)) result)) in
  _ <- for_counties (List.filter (fun el => is_county (store st el)) result)
                    number_cases ;;
  ret result.

(** What the caller of [load_file] sees: the objects behind the returned
    list, or the exception. *)
Definition load_records (file_content : node) (st : state)
  : res (list Information) :=
  match load_file file_content st with
  | Ok (result, st') => Ok (map (store st') result)
  | Raise e => Raise e
  end.

(** The records as the first loop leaves them, before the rate pass. *)
Definition built_records (file_content : node) (st : state)
  : res (list Information) :=
  match for_tables (zip_tables file_content) [] st with
  | Ok (result, st') => Ok (map (store st') result)
  | Raise e => Raise e
  end.

(** *** The same computation on values

    [load_file] read as a function from the document to the list of
    records, without the store.  The theorems below prove that
    [load_records] computes exactly this. *)

Fixpoint records_of_rows (rows : list (list string)) (table_title : string)
  : res (list Information) :=
  match rows with
  | [] => Ok []
  | row :: rows' =>
      res_bind (record_of_row row table_title) (fun o =>
      res_bind (records_of_rows rows' table_title) (fun os =>
      Ok (o :: os)))
  end.

Fixpoint records_of_tables (pairs : list (table_dict * string))
  : res (list Information) :=
  match pairs with
  | [] => Ok []
  | (parsed_table, table_title) :: pairs' =>
      res_bind (records_of_rows (data parsed_table) table_title) (fun os =>
      res_bind (records_of_tables pairs') (fun os' =>
      Ok (os ++ os')))
  end.

Definition county_numbers (recs : list Information) : list Z :=
  map number (List.filter is_county recs).

Definition county_rate (number_cases : Z) (o : Information) : Information :=
  if is_county o
  then set_rate o (fl_mul (fl_ratio (number o) number_cases) (fl_of_int 100))
  else o.

Definition rate_pass (recs : list Information) : res (list Information) :=
  let number_cases := sum (county_numbers recs) in
  if existsb is_county recs && (number_cases =? 0)
  then Raise ZeroDivisionError
  else Ok (map (county_rate number_cases) recs).

(** Writing the objects [os] at the addresses from [next st] on. *)
Fixpoint allocate (os : list Information) (st : state) : state :=
  match os with
  | [] => st
  | o :: os' =>
      allocate os' {| store := <[next st := o]> (store st);
                      next := S (next st) |}
  end.

End Loader.

Arguments Information F : clear implicits.
Arguments state F : clear implicits.

(** ** Exact arithmetic

    A float read as the rational number it stands for, with no rounding. *)

Module Exact.

Definition digit_char (d : Z) : ascii := ascii_of_nat (48 + Z.to_nat d).

Definition pad3 (n : Z) : string :=
  String (digit_char (n / 100))
    (String (digit_char (n / 10 mod 10))
       (String (digit_char (n mod 10)) EmptyString)).

(** The integer nearest to [q], ties to the even one. *)
Definition round_half_even (q : Q) : Z :=
  let n := Qnum q in
  let d := Zpos (Qden q) in
  let f := n / d in
  match 2 * (n mod d) ?= d with
  | Lt => f
  | Gt => f + 1
  | Eq => if Z.even f then f else f + 1
  end.

(** [q] with three decimals, for [q >= 0]. *)
Definition format3_abs (q : Q) : string :=
  let m := round_half_even (Qmult q (inject_Z 1000)) in
  py_str (m / 1000) +:+ "." +:+ pad3 (m mod 1000).

Definition format3 (q : Q) : string :=
  (if Qnum q <? 0 then "-" else "") +:+ format3_abs (Qabs q).

#[global] Instance Q_float : PyFloat Q := {
  fl_ratio a b := Qdiv (inject_Z a) (inject_Z b);
  fl_mul := Qmult;
  fl_format3 := format3
}.

(** [sum( l )] on floats *)
Definition fsum (l : list Q) : Q := fold_left Qplus l (inject_Z 0).

End Exact.

(** ** IEEE binary64

    Python's own floats: round to nearest, ties to even, 53 bits. *)

Module Binary64.

Definition prec : Z := 53.
Definition emax : Z := 1024.

Definition of_int (n : Z) : spec_float :=
  match n with
  | Z0 => S754_zero false
  | Zpos p => S754_finite false p 0
  | Zneg p => S754_finite true p 0
  end.

(** The exact value of a finite float's magnitude. *)
Definition magnitude (m : positive) (e : Z) : Q :=
  match e with
  | Zneg k => Qmake (Zpos m) (2 ^ k)%positive
  | _ => inject_Z (Zpos m * 2 ^ e)
  end.

Definition format3 (x : spec_float) : string :=
  match x with
  | S754_nan => "nan"
  | S754_infinity s => if s then "-inf" else "inf"
  | S754_zero s => (if s then "-" else "") +:+ "0.000"
  | S754_finite s m e =>
      (if s then "-" else "") +:+ Exact.format3_abs (magnitude m e)
  end.

#[global] Instance b64_float : PyFloat spec_float := {
  fl_ratio a b := SFdiv prec emax (of_int a) (of_int b);
  fl_mul := SFmul prec emax;
  fl_format3 := format3
}.

(** [sum( l )] on floats *)
Definition fsum (l : list spec_float) : spec_float :=
  fold_left (SFadd prec emax) l (S754_zero false).

(** The rational number a float stands for (0 for the non-finite ones). *)
Definition value (x : spec_float) : Q :=
  match x with
  | S754_finite s m e =>
      ((if s then inject_Z (-1) else inject_Z 1) * inject_Z (Zpos m)
       * Qpower (inject_Z 2) e)%Q
  | _ => inject_Z 0
  end.

(** [x] lies at the place [l] of the interval from [m] to [m + 1]. *)
Definition inbetween (m : Z) (l : location) (x : Q) : Prop :=
  match l with
  | loc_Exact => Qeq x (inject_Z m)
  | loc_Inexact Lt =>
      Qlt (inject_Z m) x /\ Qlt x (inject_Z m + (1 # 2))%Q
  | loc_Inexact Eq => Qeq x (inject_Z m + (1 # 2))%Q
  | loc_Inexact Gt =>
      Qlt (inject_Z m + (1 # 2))%Q x /\ Qlt x (inject_Z m + 1)%Q
  end.

(** [2 ^ e] for an integer [e] of either sign. *)
Definition pow2 (e : Z) : Q := Qpower (inject_Z 2) e.

(** The relative error of a rate after its two roundings:
    [(1 + 2 ^ -53) ^ 2 - 1]. *)
Definition eps : Q :=
  ((2 # 9007199254740992) + (1 # 81129638414606681695789005144064))%Q.

End Binary64.

(** The state a first call starts from: nothing allocated. *)
Definition empty_state `{PyFloat F} : state F :=
  {| store := fun _ => {| description := EmptyString; number := 0;
                          rate := fl_of_int 0; info_type := EmptyString |};
     next := 0%nat |}.


(** ** Predicates used in the statements *)

(** A row with a [strong] element somewhere below it. *)
Definition contains_strong (row : node) : bool :=
  existsb (has_name "strong") (descendants row).

(** The data rows of the paired tables in the order the two loops of
    [load_file] visit them, each with the heading of its table. *)
Definition titled_rows (pairs : list (table_dict * string))
  : list (list string * string) :=
  flat_map (fun p => map (fun row => (row, snd p)) (data (fst p))) pairs.

(** ** Example documents *)

Module Docs.

Definition td (s : string) : node := Tag "td" [NavigableString s].

Definition tr (cells : list string) : node := Tag "tr" (map td cells).

Definition header (cells : list string) : node :=
  Tag "tr" (map (fun s => Tag "td" [Tag "strong" [NavigableString s]]) cells).

Definition h2 (s : string) : node := Tag "h2" [NavigableString s].

Definition document (body : list node) : node := Tag "[document]" body.

(** Regional counts Dublin 10, Cork 5, Clare 0. *)
Definition county_table : node :=
  Tag "table" [header ["County"; "Cases"];
               tr ["Dublin"; "10"]; tr ["Cork"; "5"]; tr ["Clare"; "0"]].

Definition snapshot_2020_03_19 : node :=
  document [h2 " Cases by county "; county_table].

Definition snapshot_2020_03_19_records : list (Information Q) :=
  [ {| description := "Dublin"; number := 10;
       rate := fl_mul (fl_ratio 10 15) (fl_of_int 100);
       info_type := "Cases by county" |};
    {| description := "Cork"; number := 5;
       rate := fl_mul (fl_ratio 5 15) (fl_of_int 100);
       info_type := "Cases by county" |};
    {| description := "Clare"; number := 0;
       rate := fl_mul (fl_ratio 0 15) (fl_of_int 100);
       info_type := "Cases by county" |} ].

(** The same snapshot followed by a heading without a table. *)
Definition snapshot_extra_heading : node :=
  document [h2 " Cases by county "; county_table; h2 "Notes"].

(** A county table whose counts add up to zero. *)
Definition snapshot_zero_total : node :=
  document [h2 "Cases by county";
            Tag "table" [tr ["Clare"; "0"]; tr ["Kerry"; "none"]]].

(** An age table with a source rate, and a county table. *)
Definition snapshot_two_tables : node :=
  document [h2 "Age range affected";
            Tag "table" [header ["Age"; "Cases"; "Rate"];
                         tr ["<5"; "3"; "1.5%"; "footnote"];
                         tr ["65+"; "7"]];
            h2 " Cases by county "; county_table].

Definition snapshot_2020_03_19_binary64 : list (Information spec_float) :=
  [ {| description := "Dublin"; number := 10;
       rate := S754_finite false 4691249611844266 (-46);
       info_type := "Cases by county" |};
    {| description := "Cork"; number := 5;
       rate := S754_finite false 4691249611844266 (-47);
       info_type := "Cases by county" |};
    {| description := "Clare"; number := 0;
       rate := S754_zero false;
       info_type := "Cases by county" |} ].

Definition snapshot_two_tables_built : list (Information Q) :=
  [ {| description := "<5"; number := 3; rate := fl_ratio 15 (10 ^ 1);
       info_type := "Age range affected" |};
    {| description := "65+"; number := 7; rate := fl_of_int 0;
       info_type := "Age range affected" |};
    {| description := "Dublin"; number := 10; rate := fl_of_int 0;
       info_type := "Cases by county" |};
    {| description := "Cork"; number := 5; rate := fl_of_int 0;
       info_type := "Cases by county" |};
    {| description := "Clare"; number := 0; rate := fl_of_int 0;
       info_type := "Cases by county" |} ].

(** The store after loading [snapshot_two_tables] into an empty one. *)
Definition after_two_tables : state Q :=
  match load_file snapshot_two_tables empty_state with
  | Ok (_, st) => st
  | Raise _ => empty_state
  end.

(** How the records of a loaded document are displayed. *)
Definition shown `{PyFloat F} (doc : node) : res (list string) :=
  match load_records doc empty_state with
  | Ok out => Ok (map Information_str out)
  | Raise e => Raise e
  end.

End Docs.

(** ** Further predicates on texts and rows *)


(** The first cell and the heading of each data row of the paired tables,
    in document order. *)
Definition row_keys (pairs : list (table_dict * string))
  : list (string * string) :=
  flat_map (fun p => map (fun row => (nth 0 row "", snd p)) (data (fst p)))
           pairs.

(** ** [markdown_table]

    The dictionary [data] maps a column title to the list of the column's
    values; its keys are kept in insertion order, so it is the list of its
    items.  The values are [str] and [int] objects. *)

Inductive object : Type :=
| PyStr (s : string)
| PyInt (n : Z).

(** [str( el )] *)
Definition str (el : object) : string :=
  match el with
  | PyStr s => s
  | PyInt n => py_str n
  end.

(** The line feed. *)
Definition LF : string := String (ascii_of_nat 10) EmptyString.

(** [sep.join( l )] *)
Fixpoint join (sep : string) (l : list string) : string :=
  match l with
  | [] => EmptyString
  | x :: l' =>
      match l' with
      | [] => x
      | _ :: _ => x +:+ sep +:+ join sep l'
      end
  end.

(** [zip( c, *cs )]: one tuple for each element of [c], until one of the
    columns has no next element. *)
Fixpoint zip_rows {A : Type} (c : list A) (cs : list (list A))
  : list (list A) :=
  match c with
  | [] => []
  | x :: c' =>
      match mapM head cs with
      | Some xs => (x :: xs) :: zip_rows c' (map tail cs)
      | None => []
      end
  end.

(** [zip( *columns )]; without columns there is no tuple. *)
Definition zip_star {A : Type} (columns : list (list A)) : list (list A) :=
  match columns with
  | [] => []
  | c :: cs => zip_rows c cs
  end.

Definition markdown_table (data : list (string * list object))
           (title : string) : string :=
  let result := "## " +:+ title +:+ LF in
  let result := result +:+ (join "|" (map fst data) +:+ LF) in
  let result :=
    result +:+ (join "|" (repeat "---" (length (map fst data))) +:+ LF) in
  fold_left (fun result row => result +:+ (join "|" (map str row) +:+ LF))
            (zip_star (map snd data)) result.

(** The table of one category in [main]:
    [markdown_table( { "Type": [ ... ], "Number": [ ... ], "Rate": [ ... ] }, info )] *)
Definition statistics_table `{PyFloat F} (selected_data : list (Information F))
           (info : string) : string :=
  markdown_table
    [ ("Type", map (fun el => PyStr (description el)) selected_data);
      ("Number", map (fun el => PyInt (number el)) selected_data);
      ("Rate", map (fun el => PyStr (fl_format3 (rate el) +:+ "%"))
                   selected_data) ]
    info.

(** The length of the shortest of the columns; 0 without columns. *)
Definition shortest {A : Type} (columns : list (list A)) : nat :=
  match columns with
  | [] => 0%nat
  | c :: cs => fold_right (fun c' n => Nat.min (length c') n) (length c) cs
  end.

(** Lines, each closed by a line feed. *)
Definition unlines (l : list string) : string :=
  fold_right (fun s rest => s +:+ LF +:+ rest) EmptyString l.

(** ** The evolution chart of [main]

    The dictionary [data] of [main] maps the name of a snapshot to the
    records loaded from it; it is the list of its items in insertion
    order. *)

(** A comprehension whose element can raise: the elements are computed
    from left to right and the first exception ends it. *)
Fixpoint for_each {A B : Type} (f : A -> res B) (l : list A) : res (list B) :=
  match l with
  | [] => Ok []
  | a :: l' =>
      res_bind (f a) (fun b =>
      res_bind (for_each f l') (fun bs => Ok (b :: bs)))
  end.

Section Evolution.

Context {F : Type} `{PyFloat F}.

(** [[ el.number for el in records if "county" in el.info_type and el.description == c ][ 0 ]] *)
Definition county_number (records : list (Information F)) (c : string)
  : res Z :=
  getitem0 (map number
                (List.filter (fun el => is_county el
                                        && String.eqb (description el) c)
                             records)).

(** The two branches of [if not selected_counties: ... else: ...]. *)
Definition evolution_data (data : list (string * list (Information F)))
           (selected_counties : list string)
  : res (list (string * list (string * Z))) :=
  match selected_counties with
  | [] =>
      Ok [ ("Total",
            map (fun d => (fst d, sum (county_numbers (snd d)))) data) ]
  | _ :: _ =>
      for_each (fun c =>
                  res_bind (for_each (fun d =>
                                        res_bind (county_number (snd d) c)
                                                 (fun n => Ok (fst d, n)))
                                     data)
                           (fun series => Ok (c, series)))
               selected_counties
  end.


End Evolution.

(** ** [Constants.py] *)

(** One value of [COUNTY_SETTINGS]: a dictionary with the keys ["pos"] and
    ["color"]. *)
Record county_setting : Type := {
  pos : Z * Z;
  color : string
}.

(** The dictionary keeps its keys in the order they are written. *)
Definition COUNTY_SETTINGS : list (string * county_setting) :=
  [ ("Carlow", {| pos := (500, 610); color := "#D82894" |});
    ("Cavan", {| pos := (420, 310); color := "#532DA9" |});
    ("Clare", {| pos := (210, 550); color := "#D7C56D" |});
    ("Cork", {| pos := (250, 780); color := "#DCA912" |});
    ("Donegal", {| pos := (350, 150); color := "#8DF59D" |});
    ("Dublin", {| pos := (580, 475); color := "#2AB32D" |});
    ("Galway", {| pos := (225, 450); color := "#D79571" |});
    ("Kerry", {| pos := (130, 750); color := "#FD2C3C" |});
    ("Kildare", {| pos := (510, 500); color := "#17D065" |});
    ("Kilkenny", {| pos := (450, 650); color := "#E2929B" |});
    ("Limerick", {| pos := (250, 630); color := "#172ADE" |});
    ("Longford", {| pos := (400, 380); color := "#EED9DF" |});
    ("Louth", {| pos := (570, 340); color := "#2344DE" |});
    ("Mayo", {| pos := (200, 300); color := "#4461D9" |});
    ("Meath", {| pos := (520, 375); color := "#F273E3" |});
    ("Offaly", {| pos := (400, 490); color := "#2B86BD" |});
    ("Roscommon", {| pos := (330, 380); color := "#97F348" |});
    ("Sligo", {| pos := (290, 290); color := "#D7CB30" |});
    ("Tipperary", {| pos := (380, 600); color := "#0D05A1" |});
    ("Waterford", {| pos := (400, 710); color := "#60D4C5" |});
    ("Westmeath", {| pos := (420, 410); color := "#8F8BEB" |});
    ("Wexford", {| pos := (525, 650); color := "#C755D4" |});
    ("Wicklow", {| pos := (540, 520); color := "#0F20CB" |}) ].

Definition MAP_PATCH_SIZE : Z * Z := (5, 150).

(** ** [rescale_patch_size] and [plot_map]

    The drawing code divides, multiplies, adds and converts back to [int],
    so it can raise [OverflowError] besides the exceptions of the loader. *)

Inductive map_exn : Type :=
| Std (e : exn)
| OverflowError.

Inductive fres (A : Type) : Type :=
| Return (a : A)
| Throw (e : map_exn).
Arguments Return {A} a.
Arguments Throw {A} e.

Definition fres_bind {A B : Type} (m : fres A) (k : A -> fres B) : fres B :=
  match m with
  | Return a => k a
  | Throw e => Throw e
  end.

Definition of_res {A : Type} (r : res A) : fres A :=
  match r with
  | Ok a => Return a
  | Raise e => Throw (Std e)
  end.

(** The further operations of [float] the drawing code uses. *)
Class PyFloatOps (F : Type) `{PyFloat F} : Type := {
  (** [x + y] *)
  fl_add : F -> F -> F;
  (** [math.isnan( x )] and [math.isinf( x )] *)
  fl_is_nan : F -> bool;
  fl_is_inf : F -> bool;
  (** [int( x )] for a finite [x]: the integer part, toward zero *)
  fl_trunc : F -> Z
}.

(** [int( x )] on a [float] *)
Definition int_of_float `{PyFloatOps F} (x : F) : fres Z :=
  if fl_is_nan x then Throw (Std ValueError)
  else if fl_is_inf x then Throw OverflowError
  else Return (fl_trunc x).

(** [a / b] on two [int]s, with the case of a quotient that is too large
    for a [float]. *)
Definition int_truediv `{PyFloatOps F} (a b : Z) : fres F :=
  if b =? 0 then Throw (Std ZeroDivisionError)
  else
    let q := fl_ratio a b in
    if fl_is_inf q then Throw OverflowError else Return q.

(** [max( l )] *)
Definition py_max (l : list Z) : res Z :=
  match l with
  | [] => Raise ValueError
  | x :: l' => Ok (fold_left Z.max l' x)
  end.

Definition rescale_patch_size `{PyFloatOps F} (current_value : F) : fres Z :=
  int_of_float (fl_add (fl_mul current_value (fl_of_int (snd MAP_PATCH_SIZE)))
                       (fl_of_int (fst MAP_PATCH_SIZE))).

Section Map.

Context {F : Type} `{PyFloatOps F}.

(** [matplotlib.patches.Circle( xy, radius, label=..., color=..., alpha=... )] *)
Record Circle : Type := {
  xy : Z * Z;
  radius : Z;
  label : Z;
  patch_color : string;
  alpha : F
}.

(** What [plot_map] puts on the axes: [ax.add_patch( circle )] and
    [plt.text( x, y, s )].  The figure, its background image and the
    switch that hides the axes do not depend on the data and are left
    out. *)
Inductive artist : Type :=
| add_patch (c : Circle)
| plt_text (x y : Z) (s : Z).

(** [[ c for c in data if c.description == county ][ 0 ]] *)
Definition current_county (data : list (Information F)) (county : string)
  : res (Information F) :=
  getitem0 (List.filter (fun c => String.eqb (description c) county) data).

(** [for county in Constants.COUNTY_SETTINGS: ...] *)
Fixpoint draw_counties (settings : list (string * county_setting))
         (data : list (Information F)) (max_size : Z) (drawn : list artist)
  : fres (list artist) :=
  match settings with
  | [] => Return drawn
  | (county, setting) :: settings' =>
      fres_bind (of_res (current_county data county)) (fun c =>
      fres_bind (int_truediv (number c) max_size) (fun share =>
      fres_bind (rescale_patch_size share) (fun r =>
      draw_counties settings' data max_size
        (drawn ++ [ add_patch {| xy := pos setting;
                                 radius := r;
                                 label := number c;
                                 patch_color := color setting;
                                 alpha := fl_ratio 7 10 |};
                    plt_text (fst (pos setting)) (snd (pos setting))
                             (number c) ]))))
  end.

Definition plot_map (data : list (Information F)) : fres (list artist) :=
  fres_bind (of_res (py_max (map number data))) (fun max_size =>
  draw_counties COUNTY_SETTINGS data max_size []).

(** [selected_data = [ el for el in data[ selected_date ] if "county" in el.info_type ]] *)
Definition selected_data (records : list (Information F))
  : list (Information F) :=
  List.filter is_county records.

(** What one turn of the loop of [plot_map] adds for a county that has a
    record. *)
Definition drawn_for (data : list (Information F)) (max_size : Z)
           (s : string * county_setting) (step : list artist) : Prop :=
  exists (c : Information F) (r : Z),
    current_county data (fst s) = Ok c
    /\ rescale_patch_size (fl_ratio (number c) max_size) = Return r
    /\ step = [ add_patch {| xy := pos (snd s);
                             radius := r;
                             label := number c;
                             patch_color := color (snd s);
                             alpha := fl_ratio 7 10 |};
                plt_text (fst (pos (snd s))) (snd (pos (snd s)))
                         (number c) ].

(** The radius of a drawn circle; a text has none. *)
Definition radius_of (a : artist) : option Z :=
  match a with
  | add_patch c => Some (radius c)
  | plt_text _ _ _ => None
  end.

(** The data hold a record of this name. *)
Definition has_county (data : list (Information F)) (county : string)
  : bool :=
  existsb (fun c => String.eqb (description c) county) data.

(** The data hold a record for every county of [COUNTY_SETTINGS]. *)
Definition has_every_county (data : list (Information F)) : bool :=
  forallb (fun s => has_county data (fst s)) COUNTY_SETTINGS.

End Map.

Arguments Circle F : clear implicits.
Arguments artist F : clear implicits.

(** What the drawing code needs from the arithmetic: the share of a count
    in a positive count that is not smaller is a finite float, and its
    radius lies between 5 and 155. *)
Class RescaleLaws (F : Type) `{PyFloatOps F} : Prop := {
  rescale_share : forall n m : Z,
    0 <= n <= m -> 0 < m < 2 ^ 1000 ->
    fl_is_inf (fl_ratio n m) = false
    /\ exists r : Z,
         rescale_patch_size (fl_ratio n m) = Return r
         /\ 5 <= r <= 155
         /\ (n = 0 -> r = 5)
         /\ (n = m -> r = 155)
}.

Module ExactOps.

#[global] Instance Q_ops : PyFloatOps Q := {
  fl_add := Qplus;
  fl_is_nan := fun _ => false;
  fl_is_inf := fun _ => false;
  fl_trunc := fun q => Z.quot (Qnum q) (Z.pos (Qden q))
}.

End ExactOps.

Module Binary64Ops.

Definition is_nan (x : spec_float) : bool :=
  match x with
  | S754_nan => true
  | _ => false
  end.

Definition is_inf (x : spec_float) : bool :=
  match x with
  | S754_infinity _ => true
  | _ => false
  end.

(** The integer part of a finite float. *)
Definition trunc (x : spec_float) : Z :=
  match x with
  | S754_finite s m e => cond_Zopp s (Z.shiftl (Z.pos m) e)
  | _ => 0
  end.

#[global] Instance b64_ops : PyFloatOps spec_float := {
  fl_add := SFadd Binary64.prec Binary64.emax;
  fl_is_nan := is_nan;
  fl_is_inf := is_inf;
  fl_trunc := trunc
}.

End Binary64Ops.

(** ** Dictionaries and the charts

    A dictionary whose order is seen (its keys are listed, or it is drawn)
    is the list of its items in insertion order.  [None] stands for the
    [KeyError] of a key that is not there. *)

Section Dict.

Context {V : Type}.

(** [d[ k ]] *)
Fixpoint dict_get (d : list (string * V)) (k : string) : option V :=
  match d with
  | [] => None
  | (k', v) :: d' => if String.eqb k' k then Some v else dict_get d' k
  end.

(** [d[ k ] = v]: the value of a key that is there is replaced where it
    is, a new key goes to the end. *)
Fixpoint dict_set (d : list (string * V)) (k : string) (v : V)
  : list (string * V) :=
  match d with
  | [] => [(k, v)]
  | (k', v') :: d' =>
      if String.eqb k' k then (k', v) :: d' else (k', v') :: dict_set d' k v
  end.

(** [{ k: v for ... }], the items given in the order the comprehension
    produces them. *)
Definition dict_of (items : list (string * V)) : list (string * V) :=
  fold_left (fun d kv => dict_set d (fst kv) (snd kv)) items [].

End Dict.

(** The order of [str]: by code points, a proper prefix first. *)
Definition str_le (a b : string) : Prop := String.leb a b = true.

#[global] Instance str_le_dec : RelDecision str_le :=
  fun a b => decide (String.leb a b = true).

(** [sorted( keys )].  The order is total and antisymmetric, so the sorted
    list does not depend on the sorting algorithm. *)
Definition sorted (l : list string) : list string := merge_sort str_le l.

Definition GRAPH_SIZE : Z * Z := (800, 600).

(** The arguments of [go.Scatter], [go.Bar] and [go.Pie]. *)
Inductive trace (V : Type) : Type :=
| Scatter (x : list string) (y : list V) (mode name : string)
| Bar (x : list string) (y text : list V) (textposition name : string)
| Pie (labels : list string) (values : list V).
Arguments Scatter {V} x y mode name.
Arguments Bar {V} x y text textposition name.
Arguments Pie {V} labels values.

(** The dictionary [layout]; the keys ["yaxis"] and ["title"] are not
    always there. *)
Record Layout : Type := {
  showlegend : bool;
  width : Z;
  height : Z;
  yaxis : option (list (string * string));
  title : option string
}.

(** A figure: the traces added to it, in order, and its layout. *)
Record Figure (V : Type) : Type := {
  traces : list (trace V);
  layout : Layout
}.
Arguments traces {V} f.
Arguments layout {V} f.

Section Charts.

Context {V : Type}.

Definition plot_bar_chart (data : list (string * V)) (title : option string)
           (legend : bool) : Figure V :=
  {| traces := [Bar (map fst data) (map snd data) (map snd data)
                    "auto" "Sbra"];
     layout := {| showlegend := legend;
                  width := fst GRAPH_SIZE;
                  height := snd GRAPH_SIZE;
                  yaxis := None;
                  title := title |} |}.

Definition plot_pie_chart (data : list (string * V)) (title : option string)
           (legend : bool) : Figure V :=
  {| traces := [Pie (map fst data) (map snd data)];
     layout := {| showlegend := legend;
                  width := fst GRAPH_SIZE;
                  height := snd GRAPH_SIZE;
                  yaxis := None;
                  title := title |} |}.

(** One turn of the loop of [plot_line_chart]: the trace of [county]. *)
Definition line_of (data : list (string * list (string * V)))
           (county : string) : option (trace V) :=
  series ← dict_get data county;
  let x_axis := sorted (map fst series) in
  ys ← mapM (dict_get series) x_axis;
  Some (Scatter x_axis ys "lines+markers" county).

Definition plot_line_chart (data : list (string * list (string * V)))
           (title : option string) (legend : bool) : option (Figure V) :=
  lines ← mapM (line_of data) (map fst data);
  Some {| traces := lines;
          layout := {| showlegend := legend;
                       width := fst GRAPH_SIZE;
                       height := snd GRAPH_SIZE;
                       yaxis := Some [("rangemode", "tozero")];
                       title := title |} |}.

End Charts.

Section ChartData.

Context {F : Type} `{PyFloat F}.

(** [{ el.description: el.number for el in selected_data }] *)
Definition by_description (selected_data : list (Information F))
  : list (string * Z) :=
  dict_of (map (fun el => (description el, number el)) selected_data).

(** [{ el.description: el.number for el in selected_data if "Total" not in el.description }] *)
Definition without_total (selected_data : list (Information F))
  : list (string * Z) :=
  by_description
    (List.filter (fun el => negb (Str.contains "Total" (description el)))
                 selected_data).

End ChartData.

(** ** [@st.cache]

    [load_file] is decorated with [st.cache], which keeps what the function
    has returned under the argument it was called with.  A call with a
    file name that is in the cache returns the list kept for it, the
    objects of the earlier call themselves, and neither opens the file nor
    runs the body.  A call with another file name runs the body on what
    the file holds then and keeps the list it returns; when the body
    raises, nothing is kept.  The cache lives as long as the application,
    over the runs of [main]. *)

Section Cache.

Context {F : Type} `{PyFloat F}.

Abbreviation addr := nat.

(** The objects and the cache of the application. *)
Record session : Type := {
  objects : state F;
  cache : list (string * list addr)
}.

Definition empty_session : session :=
  {| objects := empty_state; cache := [] |}.

(** [load_file( file_name )] as its callers have it, the file holding
    [file_content] when the call is made. *)
Definition load_file_cached (file_name : string) (file_content : node)
           (s : session) : res (list addr * session) :=
  match dict_get (cache s) file_name with
  | Some result => Ok (result, s)
  | None =>
      match load_file file_content (objects s) with
      | Ok (result, st) =>
          Ok (result, {| objects := st;
                         cache := dict_set (cache s) file_name result |})
      | Raise e => Raise e
      end
  end.

(** [for file_name in glob.glob( ... ): data[ ... ] = load_file( file_name )]:
    the calls of [load_file] one after the other, over one run of [main]
    or several, each with the name of the file and with what the file
    holds when the call is made. *)
Fixpoint load_files (calls : list (string * node)) (s : session)
  : res (list (list addr) * session) :=
  match calls with
  | [] => Ok ([], s)
  | (file_name, file_content) :: calls' =>
      match load_file_cached file_name file_content s with
      | Ok (result, s') =>
          match load_files calls' s' with
          | Ok (results, s'') => Ok (result :: results, s'')
          | Raise e => Raise e
          end
      | Raise e => Raise e
      end
  end.

(** What holds of the cache after the calls [calls]: it has the file names
    of the calls; the list kept for a name comes from a run of the body on
    the first content the name was called with, and its objects are as
    that run left them; the lists of two names share no object. *)
Definition cache_inv (calls : list (string * node)) (s : session) : Prop :=
  (forall file_name,
      dict_get (cache s) file_name = None
      <-> dict_get calls file_name = None)
  /\ (forall file_name result,
        dict_get (cache s) file_name = Some result ->
        exists (first_content : node) (st0 st1 : state F),
          dict_get calls file_name = Some first_content
          /\ load_file first_content st0 = Ok (result, st1)
          /\ (next st1 <= next (objects s))%nat
          /\ forall a, (a < next st1)%nat ->
                       store (objects s) a = store st1 a)
  /\ (forall name name' result result' a,
        name <> name' ->
        dict_get (cache s) name = Some result ->
        dict_get (cache s) name' = Some result' ->
        In a result -> ~ In a result').

End Cache.

Arguments session F : clear implicits.

(** ** Further example documents *)

Module Runs.

(** A table in a cell of another table. *)
Definition nested_table : node :=
  Tag "table" [Docs.tr ["Leinster"; "15"];
               Tag "tr" [Tag "td" [Docs.county_table]]].

(** One row with the count 1 for every county of the map, Dublin with the
    count 3. *)
Definition every_county : node :=
  Docs.document
    [Docs.h2 "Cases by county";
     Tag "table"
         (map (fun s => Docs.tr [fst s;
                                 if String.eqb (fst s) "Dublin" then "3"
                                 else "1"])
              COUNTY_SETTINGS)].

Definition loaded (doc : node) : list (Information Q) :=
  match load_records doc empty_state with
  | Ok out => out
  | Raise _ => []
  end.

(** The same in binary64. *)
Definition loaded_binary64 (doc : node) : list (Information spec_float) :=
  match load_records doc empty_state with
  | Ok out => out
  | Raise _ => []
  end.

(** What [plot_map] draws for it. *)
Definition every_county_map : list (artist Q) :=
  match plot_map (selected_data (loaded every_county)) with
  | Return drawn => drawn
  | Throw _ => []
  end.

(** Two snapshots as [main] keeps them. *)
Definition two_days : list (string * list (Information Q)) :=
  [ ("2020_03_19", loaded Docs.snapshot_2020_03_19);
    ("2020_03_20", loaded Docs.snapshot_two_tables) ].

(** Three calls: the file of the first call is loaded again after it has
    been rewritten with a county table whose counts add up to zero. *)
Definition three_calls : list (string * node) :=
  [ ("data/2020_03_19.html", Docs.snapshot_2020_03_19);
    ("data/2020_03_20.html", Docs.snapshot_two_tables);
    ("data/2020_03_19.html", Docs.snapshot_zero_total) ].

Definition after_three_calls : session spec_float :=
  match load_files three_calls empty_session with
  | Ok (_, s) => s
  | Raise _ => empty_session
  end.

End Runs.

(** * Properties *)

#[local] Arguments String.append !_ _ / : simpl nomatch.

(** ** Strings and the pattern *)

Module StrFacts.
Import Str.

Lemma append_empty_r (s : string) : s +:+ EmptyString = s.
Proof. induction s as [|c s IH]; simpl; [reflexivity | now rewrite IH]. Qed.

Lemma append_assoc (a b c : string) : (a +:+ b) +:+ c = a +:+ (b +:+ c).
Proof. induction a as [|x a IH]; simpl; [reflexivity | now rewrite IH]. Qed.

Lemma all_append (p : ascii -> bool) (a b : string) :
  all p (a +:+ b) = all p a && all p b.
Proof.
  induction a as [|x a IH]; simpl; [reflexivity |].
  now rewrite IH, andb_assoc.
Qed.

Lemma is_digit_in_class (c : ascii) : is_digit c = true -> in_class c = true.
Proof. unfold in_class. now intros ->. Qed.

Lemma all_digit_in_class (s : string) :
  all is_digit s = true -> all in_class s = true.
Proof.
  induction s as [|c s IH]; simpl; [reflexivity |].
  rewrite !andb_true_iff. intros [Hc Hs].
  split; [now apply is_digit_in_class | now apply IH].
Qed.

(** ** [strip] *)

Lemma lstrip_first (s : string) :
  match first_char (lstrip s) with
  | Some c => is_space c = false
  | None => True
  end.
Proof.
  induction s as [|c s IH]; simpl; [exact I |].
  destruct (is_space c) eqn:E; [exact IH | simpl; exact E].
Qed.

Lemma rstrip_first (s : string) :
  match first_char s with
  | Some c => is_space c = false -> first_char (rstrip s) = Some c
  | None => True
  end.
Proof.
  destruct s as [|c s]; simpl; [exact I |].
  intros ->. reflexivity.
Qed.

Lemma rstrip_last (s : string) :
  match last_char (rstrip s) with
  | Some c => is_space c = false
  | None => True
  end.
Proof.
  induction s as [|c s IH]; simpl; [exact I |].
  destruct (rstrip s) as [|d t] eqn:E; simpl.
  - destruct (is_space c) eqn:Ec; simpl; [exact I | exact Ec].
  - rewrite andb_false_r. simpl. exact IH.
Qed.

Lemma rstrip_first_char (s : string) :
  match first_char (rstrip s) with
  | Some c => first_char s = Some c
  | None => True
  end.
Proof.
  destruct s as [|c s]; simpl; [exact I |].
  destruct (is_space c && is_empty (rstrip s)); simpl; [exact I | reflexivity].
Qed.

Lemma lstrip_decompose (s : string) :
  exists l : string, s = l +:+ lstrip s /\ all is_space l = true.
Proof.
  induction s as [|c s (l & Hl & Hsp)]; simpl.
  - now exists EmptyString.
  - destruct (is_space c) eqn:E.
    + exists (String c l). simpl. rewrite E, Hsp. now rewrite <- Hl.
    + now exists EmptyString.
Qed.

Lemma rstrip_decompose (s : string) :
  exists r : string, s = rstrip s +:+ r /\ all is_space r = true.
Proof.
  induction s as [|c s (r & Hr & Hsp)]; simpl.
  - now exists EmptyString.
  - destruct (is_space c && is_empty (rstrip s)) eqn:E.
    + apply andb_true_iff in E as [Ec Et].
      exists (String c s). split; [reflexivity |]. simpl. rewrite Ec. simpl.
      destruct (rstrip s); [| discriminate]. simpl in Hr. now rewrite Hr.
    + exists r. simpl. now rewrite <- Hr.
Qed.

(** [strip] removes whitespace from the two ends and nothing else. *)
Lemma strip_decompose (s : string) :
  exists l r : string,
    s = l +:+ strip s +:+ r
    /\ all is_space l = true /\ all is_space r = true.
Proof.
  destruct (lstrip_decompose s) as (l & Hl & Hlsp).
  destruct (rstrip_decompose (lstrip s)) as (r & Hr & Hrsp).
  exists l, r. unfold strip. now rewrite <- Hr.
Qed.

(** The result of [strip] has no whitespace at either end. *)
Lemma strip_trimmed (s : string) : trimmed (strip s) = true.
Proof.
  unfold trimmed, strip.
  pose proof (rstrip_first_char (lstrip s)) as Hf.
  pose proof (rstrip_last (lstrip s)) as Hl.
  pose proof (lstrip_first s) as Hs.
  destruct (first_char (rstrip (lstrip s))) as [a|]; [| reflexivity].
  destruct (last_char (rstrip (lstrip s))) as [b|]; [| reflexivity].
  rewrite Hf in Hs. now rewrite Hs, Hl.
Qed.

Lemma lstrip_id (s : string) :
  match first_char s with
  | Some c => is_space c = false
  | None => True
  end -> lstrip s = s.
Proof. destruct s as [|c s]; simpl; [reflexivity | now intros ->]. Qed.

Lemma rstrip_id (s : string) :
  match last_char s with
  | Some c => is_space c = false
  | None => True
  end -> rstrip s = s.
Proof.
  induction s as [|c s IH]; simpl; [reflexivity |].
  destruct s as [|d s'].
  - simpl. now intros ->.
  - intros Hl. rewrite (IH Hl). simpl. now rewrite andb_false_r.
Qed.

Lemma last_char_none (s : string) : last_char s = None -> s = EmptyString.
Proof.
  induction s as [|c s IH]; [reflexivity |].
  simpl. destruct s as [|d t]; [discriminate |].
  intros Hn. specialize (IH Hn). discriminate.
Qed.

(** Stripping twice is stripping once. *)
Lemma strip_idempotent (s : string) : strip (strip s) = strip s.
Proof.
  pose proof (strip_trimmed s) as Ht. unfold trimmed in Ht.
  unfold strip at 1.
  destruct (first_char (strip s)) as [a|] eqn:Ea.
  - destruct (last_char (strip s)) as [b|] eqn:Eb.
    + apply andb_true_iff in Ht as [Ha Hb].
      apply negb_true_iff in Ha, Hb.
      rewrite lstrip_id by now rewrite Ea.
      apply rstrip_id. now rewrite Eb.
    + apply last_char_none in Eb. rewrite Eb in Ea. discriminate.
  - destruct (strip s); simpl in *; [reflexivity | discriminate].
Qed.

End StrFacts.

(** ** The pattern and the conversions *)

Module PatternFacts.
Import Str StrFacts.

(** A text without class characters has no match. *)
Lemma findall_from_no_class (cur : option string) (s : string) :
  any in_class s = false ->
  findall_from cur s = match cur with Some r => [r] | None => [] end.
Proof.
  revert cur. induction s as [|c s IH]; intros cur; simpl; [reflexivity |].
  intros Hno. apply orb_false_iff in Hno as [Hc Hs]. rewrite Hc.
  destruct cur as [r|]; now rewrite (IH None Hs).
Qed.

Lemma findall_no_class (s : string) :
  any in_class s = false -> findall s = [].
Proof. apply (findall_from_no_class None). Qed.

(** Reading a run of class characters extends the open match. *)
Lemma findall_from_run (cur : option string) (run rest : string) :
  all in_class run = true ->
  is_empty run = false \/ is_Some cur ->
  findall_from cur (run +:+ rest)
  = findall_from (Some (default EmptyString cur +:+ run)) rest.
Proof.
  revert cur. induction run as [|c run IH]; intros cur Hall Hne.
  - destruct Hne as [Hne | [r ->]]; [discriminate |].
    simpl. now rewrite append_empty_r.
  - simpl in Hall. apply andb_true_iff in Hall as [Hc Hrun].
    simpl. rewrite Hc. rewrite IH; [| exact Hrun | right; eauto].
    destruct cur as [r|]; simpl; [| reflexivity].
    now rewrite append_assoc.
Qed.

(** A non-empty text of class characters is its own single match. *)
Lemma findall_all_class (s : string) :
  all in_class s = true -> is_empty s = false -> findall s = [s].
Proof.
  intros Hall Hne. unfold findall.
  rewrite <- (append_empty_r s) at 1.
  rewrite findall_from_run by auto. reflexivity.
Qed.

(** A run closed by a character outside the class is the first match. *)
Lemma findall_run_then (run : string) (c : ascii) (rest : string) :
  all in_class run = true -> is_empty run = false -> in_class c = false ->
  findall (run +:+ String c rest) = run :: findall rest.
Proof.
  intros Hall Hne Hc. unfold findall.
  rewrite findall_from_run by auto. simpl. now rewrite Hc.
Qed.

Lemma findall_skip (c : ascii) (s : string) :
  in_class c = false -> findall (String c s) = findall s.
Proof. intros Hc. unfold findall. simpl. now rewrite Hc. Qed.

(** *** [int] *)

Lemma uint_of_char_digit (a : ascii) (d : option Decimal.uint) :
  is_Some (uint_of_char a d) -> is_digit a = true.
Proof.
  destruct d as [d|]; [| intros [x Hx]; discriminate].
  intros [x Hx]. apply uint_of_char_spec in Hx.
  repeat (destruct Hx as [[-> _] | Hx]; [reflexivity |]).
  destruct Hx as [-> _]. reflexivity.
Qed.

Lemma digit_uint_of_char (a : ascii) (d : Decimal.uint) :
  is_digit a = true -> is_Some (uint_of_char a (Some d)).
Proof.
  destruct a as [[|] [|] [|] [|] [|] [|] [|] [|]];
    intros Hd; try discriminate Hd; simpl; eauto.
Qed.

Lemma uint_of_string_digits (s : string) :
  is_Some (NilEmpty.uint_of_string s) <-> all is_digit s = true.
Proof.
  induction s as [|c s IH]; simpl.
  - split; eauto.
  - rewrite andb_true_iff. split.
    + intros Hs. split; [now apply uint_of_char_digit in Hs |].
      apply IH. destruct (NilEmpty.uint_of_string s); [eauto |].
      destruct Hs as [x Hx]. discriminate.
    + intros [Hc Hs]. apply IH in Hs as [d ->].
      now apply digit_uint_of_char.
Qed.

Lemma of_uint_nonneg (d : Decimal.uint) : 0 <= Z.of_uint d.
Proof. unfold Z.of_uint. apply N2Z.is_nonneg. Qed.

(** [int] accepts exactly the non-empty digit strings. *)
Lemma py_int_Ok_iff (s : string) :
  (exists n, py_int s = Ok n)
  <-> all is_digit s = true /\ is_empty s = false.
Proof.
  unfold py_int, NilZero.uint_of_string. destruct s as [|c s].
  - split; [intros [n Hn]; discriminate | intros [_ Hn]; discriminate].
  - rewrite <- uint_of_string_digits.
    destruct (NilEmpty.uint_of_string (String c s)) as [d|].
    + split; eauto.
    + split; [intros [n Hn]; discriminate |].
      intros [[x Hx] _]. discriminate.
Qed.

Lemma py_int_ValueError (s : string) :
  all is_digit s = false -> py_int s = Raise ValueError.
Proof.
  intros Hs. destruct (py_int s) as [n|e] eqn:E.
  - assert (Hex : exists n, py_int s = Ok n) by eauto.
    apply py_int_Ok_iff in Hex as [Hd _]. congruence.
  - unfold py_int in E. destruct (NilZero.uint_of_string s); congruence.
Qed.

Lemma py_int_nonneg (s : string) (n : Z) : py_int s = Ok n -> 0 <= n.
Proof.
  unfold py_int. destruct (NilZero.uint_of_string s); [| discriminate].
  intros [= <-]. apply of_uint_nonneg.
Qed.

(** *** [str] *)

Lemma string_of_uint_digits (d : Decimal.uint) :
  all is_digit (NilEmpty.string_of_uint d) = true.
Proof. induction d; simpl; auto. Qed.

Lemma py_str_digits (n : Z) :
  0 <= n -> all is_digit (py_str n) = true /\ is_empty (py_str n) = false.
Proof.
  intros Hn. unfold py_str. destruct n as [|p|p]; [split; reflexivity | | lia].
  simpl. unfold NilZero.string_of_uint.
  pose proof (string_of_uint_digits (Pos.to_uint p)) as Hd.
  pose proof (DecimalPos.Unsigned.to_uint_nonnil p) as Hnn.
  destruct (Pos.to_uint p) eqn:E; try contradiction; split; auto.
Qed.

(** Reading back a printed non-negative integer. *)
Lemma py_int_py_str (n : Z) : 0 <= n -> py_int (py_str n) = Ok n.
Proof.
  intros Hn. unfold py_int, py_str. destruct n as [|p|p]; [reflexivity | | lia].
  simpl. rewrite NilZero.usu by apply DecimalPos.Unsigned.to_uint_nonnil.
  f_equal. change (Z.of_int (Z.to_int (Z.pos p)) = Z.pos p).
  apply DecimalZ.of_to.
Qed.

End PatternFacts.

(** ** [Information.__init__] *)

Section InitFacts.
Context {F : Type} `{PyFloat F}.
Import Str StrFacts PatternFacts.

(** The two guarded assignments, by what the pattern finds. *)
Lemma count_of_no_match (ntext : string) :
  findall ntext = [] -> parse_number ntext = Ok 0.
Proof. unfold parse_number. now intros ->. Qed.

Lemma count_of_match (ntext m : string) (ms : list string) :
  findall ntext = m :: ms -> parse_number ntext = py_int m.
Proof.
  unfold parse_number. intros ->. simpl. unfold py_int.
  now destruct (NilZero.uint_of_string m).
Qed.

Lemma rate_of_no_match (rtext : string) :
  findall rtext = [] -> parse_rate rtext = Ok (fl_of_int 0).
Proof. unfold parse_rate. now intros ->. Qed.

Lemma rate_of_match (rtext m : string) (ms : list string) :
  findall rtext = m :: ms -> parse_rate rtext = py_float m.
Proof.
  unfold parse_rate. intros ->. simpl. unfold py_float.
  destruct (split_point m) as [ip fp].
  now destruct (NilZero.uint_of_string _).
Qed.

(** Texts without a class character give the two defaults. *)
Lemma Information_init_no_match (d ntext rtext t : string) :
  any in_class ntext = false -> any in_class rtext = false ->
  Information_init d ntext rtext t
  = Ok {| description := d; number := 0; rate := fl_of_int 0;
          info_type := t |}.
Proof.
  intros Hn Hr. unfold Information_init.
  rewrite count_of_no_match by now apply findall_no_class.
  rewrite rate_of_no_match by now apply findall_no_class.
  reflexivity.
Qed.

(** A first match that is not a digit string makes the constructor raise. *)
Lemma Information_init_bad_count (d ntext rtext t m : string)
      (ms : list string) :
  findall ntext = m :: ms -> all is_digit m = false ->
  Information_init d ntext rtext t = Raise ValueError.
Proof.
  intros Hm Hd. unfold Information_init.
  rewrite (count_of_match _ _ _ Hm), (py_int_ValueError _ Hd).
  reflexivity.
Qed.

(** A constructed record comes from the two guarded expressions. *)
Lemma Information_init_inv (d ntext rtext t : string) (o : Information F) :
  Information_init d ntext rtext t = Ok o ->
  exists (n : Z) (x : F),
    parse_number ntext = Ok n
    /\ parse_rate rtext = Ok x
    /\ o = {| description := d; number := n; rate := x; info_type := t |}.
Proof.
  unfold Information_init.
  destruct (parse_number ntext) as [n|e]; [| discriminate].
  destruct (parse_rate rtext) as [x|e]; [| discriminate].
  simpl. intros [= <-]. now exists n, x.
Qed.

Lemma Information_init_intro (d ntext rtext t : string) (n : Z) (x : F) :
  parse_number ntext = Ok n ->
  parse_rate rtext = Ok x ->
  Information_init d ntext rtext t
  = Ok {| description := d; number := n; rate := x; info_type := t |}.
Proof. unfold Information_init. now intros -> ->. Qed.

(** What a constructed record holds. *)
Lemma Information_init_Ok (d ntext rtext t : string) (o : Information F) :
  Information_init d ntext rtext t = Ok o ->
  description o = d /\ info_type o = t /\ 0 <= number o.
Proof.
  intros (n & x & Hn & _ & ->)%Information_init_inv. simpl.
  repeat split.
  assert (Hcase : findall ntext = [] \/ exists m ms, findall ntext = m :: ms)
    by (destruct (findall ntext); eauto).
  destruct Hcase as [Em | (m & ms & Em)].
  - rewrite (count_of_no_match _ Em) in Hn. injection Hn as <-. lia.
  - rewrite (count_of_match _ _ _ Em) in Hn.
    now apply py_int_nonneg in Hn.
Qed.

(** *** Reading back a formatted rate *)

Lemma split_point_digits (ip rest : string) :
  all is_digit ip = true ->
  split_point (ip +:+ String "." rest) = (ip, Some rest).
Proof.
  induction ip as [|c ip IH]; simpl; [reflexivity |].
  intros Hall. apply andb_true_iff in Hall as [Hc Hip].
  rewrite (IH Hip).
  destruct (Ascii.eqb_spec c ".") as [-> | _]; [discriminate | reflexivity].
Qed.

Lemma py_float_fixed (ip fp : string) :
  all is_digit ip = true -> is_empty ip = false -> all is_digit fp = true ->
  exists x : F, py_float (ip +:+ String "." fp) = Ok x.
Proof.
  intros Hip Hne Hfp. unfold py_float.
  rewrite (split_point_digits ip fp Hip). simpl.
  assert (Hsome : is_Some (NilEmpty.uint_of_string (ip +:+ fp))).
  { apply uint_of_string_digits. rewrite all_append, Hip, Hfp. reflexivity. }
  destruct Hsome as [u Hu]. unfold NilZero.uint_of_string.
  destruct ip as [|c ip]; [discriminate |].
  simpl in *. rewrite Hu. eauto.
Qed.

(** The rate part of the display string never makes [float] raise. *)
Lemma rate_text_reparses (s : string) :
  Fixed3.shape s ->
  exists x : F,
    parse_rate (s +:+ "%") = Ok x.
Proof.
  intros [-> | [-> | [-> | (neg & ip & fp & -> & Hip & Hne & Hfp & _)]]];
    [eexists; reflexivity .. |].
  assert (Hrun : all in_class (ip +:+ String "." fp) = true).
  { rewrite all_append. rewrite (all_digit_in_class _ Hip). simpl.
    now apply all_digit_in_class. }
  assert (Hnonempty : is_empty (ip +:+ String "." fp) = false)
    by now destruct ip.
  assert (Hfind : findall (((if neg then "-" else "") +:+ ip +:+ "." +:+ fp)
                           +:+ "%") = [ip +:+ String "." fp]).
  { destruct neg; simpl.
    - rewrite findall_skip by reflexivity.
      now rewrite findall_run_then.
    - now rewrite findall_run_then. }
  rewrite (rate_of_match _ _ _ Hfind).
  now apply py_float_fixed.
Qed.

End InitFacts.

(** ** [load_file] and its reading on values *)

Section LoaderFacts.
Context {F : Type} `{PyFloat F}.

Abbreviation Info := (Information F).
Abbreviation State := (state F).

(** *** Allocation *)

Lemma allocate_next (os : list Info) (st : State) :
  next (allocate os st) = (next st + length os)%nat.
Proof.
  revert st. induction os as [|o os IH]; intros st; simpl; [lia |].
  rewrite IH. simpl. lia.
Qed.

(** Objects that were there before are not touched. *)
Lemma allocate_old (os : list Info) (st : State) (a : nat) :
  (a < next st)%nat -> store (allocate os st) a = store st a.
Proof.
  revert st. induction os as [|o os IH]; intros st Ha; simpl; [reflexivity |].
  rewrite IH by (simpl; lia). simpl.
  apply fn_lookup_insert_ne. lia.
Qed.

Lemma allocate_new (os : list Info) (st : State) :
  map (store (allocate os st)) (seq (next st) (length os)) = os.
Proof.
  revert st. induction os as [|o os IH]; intros st; simpl; [reflexivity |].
  f_equal.
  - rewrite allocate_old by (simpl; lia). simpl. apply fn_lookup_insert.
  - apply (IH {| store := <[next st := o]> (store st);
                 next := S (next st) |}).
Qed.

Lemma allocate_app (os os' : list Info) (st : State) :
  allocate (os ++ os') st = allocate os' (allocate os st).
Proof.
  revert st. induction os as [|o os IH]; intros st; simpl; [reflexivity |].
  apply IH.
Qed.

(** *** The first loop *)

Lemma for_rows_spec (rows : list (list string)) (title : string)
      (result : list nat) (st : State) :
  for_rows rows title result st
  = match records_of_rows rows title with
    | Ok os => Ok (result ++ seq (next st) (length os), allocate os st)
    | Raise e => Raise e
    end.
Proof.
  revert result st. induction rows as [|row rows IH]; intros result st; simpl.
  - unfold ret. now rewrite app_nil_r.
  - unfold bind at 1, lift.
    destruct (record_of_row row title) as [o|e]; simpl; [| reflexivity].
    unfold bind at 1, new. rewrite IH. simpl.
    destruct (records_of_rows rows title) as [os|e]; simpl; [| reflexivity].
    now rewrite <- app_assoc.
Qed.

Lemma for_tables_spec (pairs : list (table_dict * string))
      (result : list nat) (st : State) :
  for_tables pairs result st
  = match records_of_tables pairs with
    | Ok os => Ok (result ++ seq (next st) (length os), allocate os st)
    | Raise e => Raise e
    end.
Proof.
  revert result st.
  induction pairs as [|[parsed title] pairs IH]; intros result st; simpl.
  - unfold ret. now rewrite app_nil_r.
  - unfold bind. rewrite for_rows_spec.
    destruct (records_of_rows (data parsed) title) as [os|e]; simpl;
      [| reflexivity].
    rewrite IH.
    destruct (records_of_tables pairs) as [os'|e]; simpl; [| reflexivity].
    rewrite allocate_app, allocate_next, length_app, seq_app, app_assoc.
    reflexivity.
Qed.

(** The first loop builds the records of the paired tables, in order, and
    does not depend on the store it starts from. *)
Lemma built_records_spec (doc : node) (st : State) :
  built_records doc st = records_of_tables (zip_tables doc).
Proof.
  unfold built_records. rewrite for_tables_spec.
  destruct (records_of_tables (zip_tables doc)) as [os|e]; [| reflexivity].
  simpl. now rewrite allocate_new.
Qed.

(** *** The rate pass *)

Lemma set_rate_set_rate (o : Info) (x y : F) :
  set_rate (set_rate o x) y = set_rate o y.
Proof. reflexivity. Qed.

Lemma for_counties_zero (county : nat) (counties : list nat) (st : State) :
  for_counties (county :: counties) 0 st = Raise ZeroDivisionError.
Proof. reflexivity. Qed.

Lemma for_counties_spec (counties : list nat) (number_cases : Z)
      (st : State) :
  number_cases <> 0 ->
  exists st' : State,
    for_counties counties number_cases st = Ok (tt, st')
    /\ next st' = next st
    /\ (forall a, ~ In a counties -> store st' a = store st a)
    /\ (forall a, In a counties ->
          store st' a
          = set_rate (store st a)
              (fl_mul (fl_ratio (number (store st a)) number_cases)
                      (fl_of_int 100))).
Proof.
  intros Hnz. revert st.
  induction counties as [|c counties IH]; intros st.
  - exists st. simpl. unfold ret.
    split; [reflexivity |]. split; [reflexivity |].
    split; [reflexivity | intros a []].
  - simpl. unfold bind at 1, get_state. unfold bind at 1, lift, truediv.
    destruct (Z.eqb_spec number_cases 0) as [|_]; [contradiction |].
    unfold bind at 1, assign_rate.
    destruct (IH {| store := <[c := set_rate (store st c)
                                  (fl_mul (fl_ratio (number (store st c))
                                                    number_cases)
                                          (fl_of_int 100))]> (store st);
                    next := next st |})
      as (st' & Hrun & Hnext & Hout & Hin).
    exists st'. simpl in *.
    split; [exact Hrun |]. split; [exact Hnext |]. split.
    + intros a Ha.
      rewrite Hout by tauto. apply fn_lookup_insert_ne. tauto.
    + intros a Ha.
      destruct (in_dec Nat.eq_dec a counties) as [Hm | Hm].
      * rewrite (Hin a Hm).
        destruct (Nat.eq_dec c a) as [-> | Hne].
        -- now rewrite fn_lookup_insert.
        -- now rewrite fn_lookup_insert_ne.
      * rewrite (Hout a Hm).
        destruct Ha as [-> | Ha]; [| contradiction].
        now rewrite fn_lookup_insert.
Qed.

Lemma filter_map_store (f : nat -> Info) (p : Info -> bool) (l : list nat) :
  map f (List.filter (fun a => p (f a)) l) = List.filter p (map f l).
Proof.
  induction l as [|a l IH]; simpl; [reflexivity |].
  destruct (p (f a)); simpl; now rewrite IH.
Qed.

Lemma existsb_filter_nil (p : Info -> bool) (l : list Info) :
  existsb p l = false <-> List.filter p l = [].
Proof.
  induction l as [|a l IH]; simpl; [tauto |].
  destruct (p a); simpl; [split; discriminate | exact IH].
Qed.

Lemma county_rate_not_county (nc : Z) (l : list Info) :
  existsb is_county l = false -> map (county_rate nc) l = l.
Proof.
  induction l as [|o l IH]; simpl; [reflexivity |].
  intros Hno. apply orb_false_iff in Hno as [Ho Hl].
  unfold county_rate at 1. rewrite Ho. now rewrite IH.
Qed.

(** [load_file] returns the built records with the rate pass applied. *)
Theorem load_records_spec (doc : node) (st : State) :
  load_records doc st = res_bind (built_records doc st) rate_pass.
Proof.
  rewrite built_records_spec. unfold load_records, load_file.
  unfold bind at 1. rewrite for_tables_spec.
  destruct (records_of_tables (zip_tables doc)) as [os|e]; [| reflexivity].
  cbn [app res_bind]. unfold bind at 1, get_state.
  set (st1 := allocate os st).
  set (result := seq (next st) (length os)).
  assert (Hos : map (store st1) result = os) by apply allocate_new.
  set (counties := List.filter (fun el => is_county (store st1 el)) result).
  assert (Hcs : map (store st1) counties = List.filter is_county os).
  { unfold counties. now rewrite filter_map_store, Hos. }
  assert (Hnc : map (fun el => number (store st1 el)) counties
                = county_numbers os).
  { unfold county_numbers. rewrite <- Hcs. now rewrite map_map. }
  rewrite Hnc. unfold rate_pass. set (nc := sum (county_numbers os)).
  destruct (existsb is_county os) eqn:Hex; cbn [andb].
  - destruct (Z.eqb_spec nc 0) as [Hz | Hnz].
    + destruct counties as [|c cs] eqn:Ec.
      * symmetry in Hcs. apply existsb_filter_nil in Hcs. congruence.
      * unfold bind at 1. rewrite Hz. now rewrite for_counties_zero.
    + destruct (for_counties_spec counties nc st1 Hnz)
        as (st2 & Hrun & _ & Hout & Hin).
      unfold bind at 1. rewrite Hrun. unfold ret. f_equal.
      transitivity (map (county_rate nc) (map (store st1) result));
        [| now rewrite Hos].
      rewrite map_map.
      apply map_ext_in. intros a Ha. unfold county_rate.
      destruct (is_county (store st1 a)) eqn:Eca.
      * apply Hin. unfold counties. apply filter_In. auto.
      * apply Hout. unfold counties. rewrite filter_In. intros [_ Hc].
        congruence.
  - assert (Hnil : counties = []).
    { apply existsb_filter_nil in Hex. rewrite Hex in Hcs.
      now destruct counties. }
    rewrite Hnil. unfold bind at 1. simpl. unfold ret. f_equal.
    rewrite county_rate_not_county by exact Hex. exact Hos.
Qed.

End LoaderFacts.

(** ** The two float instances *)

Module FloatFacts.
Import Str StrFacts PatternFacts.

Lemma digit_char_digit (d : Z) :
  0 <= d <= 9 -> is_digit (Exact.digit_char d) = true.
Proof.
  intros Hd. unfold Exact.digit_char.
  assert (Hk : (Z.to_nat d <= 9)%nat) by lia.
  revert Hk. generalize (Z.to_nat d). intros k Hk.
  do 10 (destruct k as [|k]; [reflexivity |]). lia.
Qed.

Lemma pad3_digits (n : Z) :
  0 <= n < 1000 -> all is_digit (Exact.pad3 n) = true.
Proof.
  intros Hn. unfold Exact.pad3. cbn [all].
  rewrite (digit_char_digit (n / 100)) by (Z.div_mod_to_equations; lia).
  rewrite (digit_char_digit (n / 10 mod 10))
    by (Z.div_mod_to_equations; lia).
  rewrite (digit_char_digit (n mod 10)) by (Z.div_mod_to_equations; lia).
  reflexivity.
Qed.

Lemma round_half_even_nonneg (q : Q) :
  (0 <= q)%Q -> 0 <= Exact.round_half_even q.
Proof.
  intros Hq. unfold Exact.round_half_even.
  assert (Hn : 0 <= Qnum q).
  { unfold Qle in Hq. simpl in Hq. lia. }
  assert (Hf : 0 <= Qnum q / Z.pos (Qden q)) by (apply Z.div_pos; lia).
  destruct (2 * (Qnum q mod Z.pos (Qden q)) ?= Z.pos (Qden q));
    [destruct (Z.even _) | |]; lia.
Qed.

(** The shape of a formatted magnitude. *)
Lemma format3_abs_parts (q : Q) :
  (0 <= q)%Q ->
  exists ip fp : string,
    Exact.format3_abs q = ip +:+ "." +:+ fp
    /\ all is_digit ip = true /\ is_empty ip = false
    /\ all is_digit fp = true /\ String.length fp = 3%nat.
Proof.
  intros Hq. unfold Exact.format3_abs.
  set (m := Exact.round_half_even (q * inject_Z 1000)).
  assert (Hm : 0 <= m).
  { apply round_half_even_nonneg.
    apply Qmult_le_0_compat; [exact Hq | discriminate]. }
  exists (py_str (m / 1000)), (Exact.pad3 (m mod 1000)).
  split; [reflexivity |].
  destruct (py_str_digits (m / 1000)) as [Hd Hne];
    [apply Z.div_pos; lia |].
  repeat split; [exact Hd | exact Hne |].
  apply pad3_digits. apply Z.mod_pos_bound. lia.
Qed.

#[global] Instance Q_float_laws : PyFloatLaws Q.
Proof.
  constructor. intros q. do 3 right.
  destruct (format3_abs_parts (Qabs q) (Qabs_nonneg q))
    as (ip & fp & Heq & Hip & Hne & Hfp & Hlen).
  exists (Qnum q <? 0), ip, fp. simpl. unfold Exact.format3.
  rewrite Heq. auto.
Qed.

Lemma magnitude_nonneg (m : positive) (e : Z) :
  (0 <= Binary64.magnitude m e)%Q.
Proof.
  unfold Binary64.magnitude, Qle. destruct e as [|p|p]; simpl; lia.
Qed.

#[global] Instance b64_float_laws : PyFloatLaws spec_float.
Proof.
  constructor. intros [s|s| |s m e]; simpl; unfold Binary64.format3.
  - do 3 right. exists s, "0", "000". now destruct s.
  - destruct s; [right; left | left]; reflexivity.
  - right; right; left. reflexivity.
  - do 3 right.
    destruct (format3_abs_parts _ (magnitude_nonneg m e))
      as (ip & fp & Heq & Hip & Hne & Hfp & Hlen).
    exists s, ip, fp. rewrite Heq. auto.
Qed.

(** *** Sums of exact rates *)

Lemma fsum_from (l : list Q) (a : Q) :
  (fold_left Qplus l a == a + Exact.fsum l)%Q.
Proof.
  unfold Exact.fsum. revert a.
  induction l as [|x l IH]; intros a; simpl.
  - ring.
  - rewrite (IH (a + x)%Q), (IH (inject_Z 0 + x)%Q). ring.
Qed.

Lemma fsum_cons (x : Q) (l : list Q) :
  (Exact.fsum (x :: l) == x + Exact.fsum l)%Q.
Proof.
  unfold Exact.fsum at 1. simpl. rewrite fsum_from. ring.
Qed.

Lemma sum_from (l : list Z) (a : Z) : fold_left Z.add l a = a + sum l.
Proof.
  unfold sum. revert a. induction l as [|x l IH]; intros a; simpl.
  - lia.
  - rewrite (IH (a + x)), (IH (0 + x)). lia.
Qed.

Lemma sum_cons (x : Z) (l : list Z) : sum (x :: l) = x + sum l.
Proof. unfold sum at 1. simpl. apply sum_from. Qed.

(** The shares of a non-zero total add up to a hundred. *)
Lemma fsum_shares (ns : list Z) (total : Z) :
  total <> 0 ->
  (Exact.fsum (map (fun n => fl_mul (fl_ratio n total) (fl_of_int 100)) ns)
   == inject_Z (sum ns) / inject_Z total * inject_Z 100)%Q.
Proof.
  intros Hnz. induction ns as [|n ns IH].
  - simpl. unfold Exact.fsum, sum. simpl. field.
    intros Hq. apply Hnz. unfold Qeq in Hq. simpl in Hq. lia.
  - simpl map. rewrite fsum_cons, IH, sum_cons, inject_Z_plus.
    simpl. field.
    intros Hq. apply Hnz. unfold Qeq in Hq. simpl in Hq. lia.
Qed.

End FloatFacts.

(** ** Rounding in binary64 *)

Module Binary64Facts.
Import Binary64.
Local Open Scope Q_scope.

Lemma iter_pos_invariant {A : Type} (f : A -> A) (P : nat -> A -> Prop) :
  (forall k x, P k x -> P (S k) (f x)) ->
  forall p k x, P k x -> P (k + Pos.to_nat p)%nat (SpecFloat.iter_pos f p x).
Proof.
  intros Hstep. induction p as [p IH|p IH|]; intros k x Hx; simpl.
  - rewrite Pos2Nat.inj_xI.
    replace (k + S (2 * Pos.to_nat p))%nat
      with (S k + Pos.to_nat p + Pos.to_nat p)%nat by lia.
    apply IH, IH, Hstep, Hx.
  - rewrite Pos2Nat.inj_xO.
    replace (k + 2 * Pos.to_nat p)%nat
      with (k + Pos.to_nat p + Pos.to_nat p)%nat by lia.
    apply IH, IH, Hx.
  - replace (k + Pos.to_nat 1)%nat with (S k) by (simpl; lia).
    apply Hstep, Hx.
Qed.

Lemma inbetween_ext (m : Z) (l : location) (x y : Q) :
  x == y -> inbetween m l x -> inbetween m l y.
Proof.
  intros Hxy. destruct l as [|[| |]]; simpl; rewrite Hxy; auto.
Qed.

Lemma inject_Z_xO (p : positive) : inject_Z (Z.pos p~0) == 2 * inject_Z (Z.pos p).
Proof. unfold Qeq. simpl. lia. Qed.

Lemma inject_Z_xI (p : positive) :
  inject_Z (Z.pos p~1) == 2 * inject_Z (Z.pos p) + 1.
Proof. unfold Qeq. simpl. lia. Qed.

(** One shift to the right halves the number and keeps its place. *)
Lemma shr_1_inbetween (mrs : shr_record) (x : Q) :
  (0 <= shr_m mrs)%Z ->
  inbetween (shr_m mrs) (loc_of_shr_record mrs) x ->
  (0 <= shr_m (shr_1 mrs))%Z
  /\ inbetween (shr_m (shr_1 mrs)) (loc_of_shr_record (shr_1 mrs)) (x / 2).
Proof.
  destruct mrs as [m r s]. simpl. intros Hm.
  destruct m as [|[p|p|]|p]; try lia; clear Hm;
    destruct r, s; simpl; intros Hx; (split; [lia |]);
    rewrite ?inject_Z_xO, ?inject_Z_xI in Hx;
    change (inject_Z 1) with 1 in *; change (inject_Z 0) with 0 in *;
    unfold Qdiv; change (/ 2) with (1 # 2); lra.
Qed.

Lemma pow2_pos (e : Z) : 0 < pow2 e.
Proof. apply Qpower_0_lt. reflexivity. Qed.

Lemma pow2_add (a b : Z) : pow2 (a + b) == pow2 a * pow2 b.
Proof. apply Qpower_plus. discriminate. Qed.

Lemma pow2_succ (a : Z) : pow2 (a + 1) == 2 * pow2 a.
Proof. rewrite pow2_add. change (pow2 1) with 2. ring. Qed.

Lemma pow2_Z (a : Z) : (0 <= a)%Z -> pow2 a == inject_Z (2 ^ a).
Proof. intros Ha. symmetry. apply (Zpower_Qpower 2 a Ha). Qed.

(** Shifting [n] times divides by [2 ^ n]. *)
Lemma shr_iter_inbetween (n : positive) (mrs : shr_record) (x : Q) :
  (0 <= shr_m mrs)%Z ->
  inbetween (shr_m mrs) (loc_of_shr_record mrs) x ->
  (0 <= shr_m (SpecFloat.iter_pos shr_1 n mrs))%Z
  /\ inbetween (shr_m (SpecFloat.iter_pos shr_1 n mrs))
               (loc_of_shr_record (SpecFloat.iter_pos shr_1 n mrs))
               (x / pow2 (Z.pos n)).
Proof.
  intros Hm Hx.
  pose (P := fun (k : nat) (r : shr_record) =>
               (0 <= shr_m r)%Z
               /\ inbetween (shr_m r) (loc_of_shr_record r)
                            (x / pow2 (Z.of_nat k))).
  assert (Hinv : P (0 + Pos.to_nat n)%nat (SpecFloat.iter_pos shr_1 n mrs)).
  { apply iter_pos_invariant.
    - intros k r [Hr Hin]. destruct (shr_1_inbetween r _ Hr Hin) as [H1 H2].
      split; [exact H1 |].
      apply (inbetween_ext _ _ _ (x / pow2 (Z.of_nat (S k)))) in H2;
        [exact H2 |].
      rewrite Nat2Z.inj_succ. unfold Z.succ. rewrite pow2_succ.
      field. pose proof (pow2_pos (Z.of_nat k)). lra.
    - split; [exact Hm |].
      apply (inbetween_ext _ _ x); [| exact Hx].
      change (pow2 (Z.of_nat 0)) with 1. field. }
  destruct Hinv as [H1 H2]. split; [exact H1 |].
  simpl in H2. now rewrite positive_nat_Z in H2.
Qed.

Lemma loc_of_record_of_loc (m : Z) (l : location) :
  loc_of_shr_record (shr_record_of_loc m l) = l
  /\ shr_m (shr_record_of_loc m l) = m.
Proof. now destruct l as [|[| |]]. Qed.

(** Rounding to nearest moves by at most a half. *)
Lemma round_nearest_even_near (m : Z) (l : location) (x : Q) :
  inbetween m l x ->
  (round_nearest_even m l = m \/ round_nearest_even m l = (m + 1)%Z)
  /\ inject_Z (round_nearest_even m l) - (1 # 2) <= x
  /\ x <= inject_Z (round_nearest_even m l) + (1 # 2).
Proof.
  destruct l as [|[| |]]; simpl; intros Hx.
  - split; [now left | lra].
  - destruct (Z.even m); (split; [auto |]);
      rewrite ?inject_Z_plus; change (inject_Z 1) with 1; lra.
  - split; [now left | lra].
  - split; [now right |].
    rewrite inject_Z_plus. change (inject_Z 1) with 1. lra.
Qed.

(** *** Number of bits *)

Lemma digits2_size (p : positive) : digits2_pos p = Pos.size p.
Proof. induction p as [p IH|p IH|]; simpl; now rewrite ?IH. Qed.

Lemma digits2_bounds (p : positive) :
  (2 ^ (Z.pos (digits2_pos p) - 1) <= Z.pos p < 2 ^ Z.pos (digits2_pos p))%Z.
Proof.
  rewrite digits2_size.
  pose proof (Pos.size_gt p) as Hgt. pose proof (Pos.size_le p) as Hle.
  apply Pos2Z.pos_lt_pos in Hgt. apply Pos2Z.pos_le_pos in Hle.
  rewrite Pos2Z.inj_pow in Hgt, Hle.
  split; [| exact Hgt].
  replace (Z.pos (Pos.size p)) with (Z.pos (Pos.size p) - 1 + 1)%Z in Hle
    by lia.
  rewrite Z.pow_add_r in Hle by lia. change (2 ^ 1)%Z with 2%Z in Hle. lia.
Qed.

Lemma digits2_unique (p : positive) (k : Z) :
  (2 ^ (k - 1) <= Z.pos p < 2 ^ k)%Z -> Z.pos (digits2_pos p) = k.
Proof.
  intros [Hlo Hhi]. pose proof (digits2_bounds p) as [Dlo Dhi].
  set (d := Z.pos (digits2_pos p)) in *.
  assert (Hk : (0 < k)%Z).
  { destruct (Z.lt_trichotomy k 0) as [Hn | [-> | Hp]]; [| | exact Hp].
    - rewrite (Z.pow_neg_r 2 k Hn) in Hhi. lia.
    - simpl in Hhi. lia. }
  destruct (Z.lt_trichotomy d k) as [Hlt | [Heq | Hgt]]; [| exact Heq |].
  - assert (2 ^ d <= 2 ^ (k - 1))%Z by (apply Z.pow_le_mono_r; lia). lia.
  - assert (2 ^ k <= 2 ^ (d - 1))%Z by (apply Z.pow_le_mono_r; lia). lia.
Qed.


Lemma inbetween_bounds (m : Z) (l : location) (x : Q) :
  inbetween m l x -> inject_Z m <= x /\ x < inject_Z m + 1.
Proof. destruct l as [|[| |]]; simpl; intros Hx; lra. Qed.

Lemma shr_inbetween (mrs : shr_record) (e n : Z) (x : Q) :
  (0 <= n)%Z -> (0 <= shr_m mrs)%Z ->
  inbetween (shr_m mrs) (loc_of_shr_record mrs) x ->
  snd (shr mrs e n) = (e + n)%Z
  /\ (0 <= shr_m (fst (shr mrs e n)))%Z
  /\ inbetween (shr_m (fst (shr mrs e n)))
               (loc_of_shr_record (fst (shr mrs e n))) (x / pow2 n).
Proof.
  intros Hn Hm Hx. unfold shr. destruct n as [|p|p]; [| | lia]; simpl.
  - split; [lia |]. split; [exact Hm |].
    apply (inbetween_ext _ _ x); [| exact Hx].
    change (pow2 0) with 1. field.
  - split; [reflexivity |]. now apply shr_iter_inbetween.
Qed.

Lemma fexp_normal (e : Z) :
  (-1074 <= e - 53)%Z -> fexp prec emax e = (e - 53)%Z.
Proof. unfold fexp, emin, prec, emax. lia. Qed.

Lemma pow2_52 : pow2 52 == inject_Z (2 ^ 52).
Proof. now apply pow2_Z. Qed.

(** Dividing a number of [d] bits by [2 ^ (d - 53)] leaves 53 bits. *)
Lemma shifted_bounds (mx : positive) (n m1 : Z) (x y : Q) :
  (0 <= n)%Z -> Z.pos (digits2_pos mx) = (53 + n)%Z ->
  inject_Z (Z.pos mx) <= x -> x < inject_Z (Z.pos mx) + 1 ->
  y * pow2 n == x ->
  inject_Z m1 <= y -> y < inject_Z m1 + 1 ->
  (2 ^ 52 <= m1 < 2 ^ 53)%Z /\ inject_Z (2 ^ 52) <= y.
Proof.
  intros Hn Hd Hx1 Hx2 Hy Hm1 Hm2.
  pose proof (digits2_bounds mx) as [Dlo Dhi]. rewrite Hd in Dlo, Dhi.
  replace (53 + n - 1)%Z with (52 + n)%Z in Dlo by lia.
  rewrite Z.pow_add_r in Dlo, Dhi by lia.
  pose proof (pow2_pos n) as Hc. pose proof (pow2_Z n Hn) as Hcz.
  assert (Hlo : inject_Z (2 ^ 52) * pow2 n <= x).
  { rewrite Hcz, <- inject_Z_mult.
    apply Qle_trans with (inject_Z (Z.pos mx)); [| exact Hx1].
    now rewrite <- Zle_Qle. }
  assert (Hhi : x <= inject_Z (2 ^ 53) * pow2 n).
  { rewrite Hcz, <- inject_Z_mult.
    apply Qle_trans with (inject_Z (Z.pos mx + 1)).
    - rewrite inject_Z_plus. change (inject_Z 1) with 1. lra.
    - rewrite <- Zle_Qle. lia. }
  rewrite <- Hy in Hlo, Hhi.
  apply Qmult_le_r in Hlo; [| exact Hc].
  assert (Hy53 : y < inject_Z (2 ^ 53)).
  { destruct (Qlt_le_dec y (inject_Z (2 ^ 53))) as [Hlt | Hge]; [exact Hlt |].
    exfalso.
    assert (Heq : y * pow2 n == inject_Z (2 ^ 53) * pow2 n).
    { apply Qle_antisym; [exact Hhi |].
      apply Qmult_le_compat_r; [exact Hge | lra]. }
    assert (Hx53 : x == inject_Z (2 ^ 53 * 2 ^ n)).
    { rewrite <- Hy, Heq, Hcz, <- inject_Z_mult. reflexivity. }
    rewrite Hx53 in Hx2.
    change 1 with (inject_Z 1) in Hx2. rewrite <- inject_Z_plus in Hx2.
    rewrite <- Zlt_Qlt in Hx2. lia. }
  split; [| exact Hlo]. split.
  - assert (Hq : inject_Z (2 ^ 52) < inject_Z (m1 + 1)).
    { rewrite inject_Z_plus. change (inject_Z 1) with 1. lra. }
    rewrite <- Zlt_Qlt in Hq. lia.
  - assert (Hq : inject_Z m1 < inject_Z (2 ^ 53)) by lra.
    now rewrite <- Zlt_Qlt in Hq.
Qed.


(** The second shift of [binary_round_aux]: a rounded mantissa of 53 bits
    is kept, the carry [2 ^ 53] is renormalised. *)
Lemma renormalise (sx : bool) (m2 e1 : Z) :
  (2 ^ 52 <= m2 <= 2 ^ 53)%Z -> (-1074 <= e1 <= 970)%Z ->
  exists (m : positive) (e : Z),
    (let '(mrs, e'') := shr_fexp prec emax m2 e1 loc_Exact in
     match shr_m mrs with
     | Z0 => S754_zero sx
     | Z.pos m =>
         if Z.leb e'' (emax - prec) then S754_finite sx m e''
         else S754_infinity sx
     | Z.neg _ => S754_nan
     end) = S754_finite sx m e
    /\ (2 ^ 52 <= Z.pos m < 2 ^ 53)%Z
    /\ (e1 <= e <= e1 + 1)%Z
    /\ inject_Z (Z.pos m) * pow2 e == inject_Z m2 * pow2 e1.
Proof.
  intros Hm He. destruct m2 as [|p2|p2]; try lia.
  assert (Hle : (e1 <=? emax - prec)%Z = true)
    by (apply Z.leb_le; unfold emax, prec; lia).
  assert (Hle' : (e1 + 1 <=? emax - prec)%Z = true)
    by (apply Z.leb_le; unfold emax, prec; lia).
  destruct (Z.eq_dec (Z.pos p2) (2 ^ 53)%Z) as [Heq | Hne].
  - assert (Hd : Z.pos (digits2_pos p2) = 54%Z).
    { apply digits2_unique. rewrite Heq. split; [reflexivity | reflexivity]. }
    assert (Hp : p2 = 9007199254740992%positive)
      by (apply Pos2Z.inj; rewrite Heq; reflexivity).
    exists 4503599627370496%positive, (e1 + 1)%Z.
    unfold shr_fexp. cbn [Zdigits2]. rewrite Hd.
    rewrite fexp_normal by lia.
    replace (54 + e1 - 53 - e1)%Z with 1%Z by lia.
    rewrite Hp.
    cbn [shr SpecFloat.iter_pos shr_record_of_loc shr_1 shr_m].
    rewrite Hle'.
    split; [reflexivity |]. split; [split; [discriminate | reflexivity] |].
    split; [lia |].
    rewrite pow2_succ, (inject_Z_xO 4503599627370496). ring.
  - assert (Hd : Z.pos (digits2_pos p2) = 53%Z).
    { apply digits2_unique. change (53 - 1)%Z with 52%Z. lia. }
    exists p2, e1.
    unfold shr_fexp. cbn [Zdigits2]. rewrite Hd.
    rewrite fexp_normal by lia.
    replace (53 + e1 - 53 - e1)%Z with 0%Z by lia.
    cbn [shr shr_record_of_loc shr_m]. rewrite Hle.
    split; [reflexivity |]. split; [lia |]. split; [lia | reflexivity].
Qed.

(** [binary_round_aux] on a mantissa of at least 53 bits, in the normal
    range and away from overflow: the result is a float of 53 bits within a
    relative error of [2 ^ -53] of the exact number. *)
Lemma binary_round_aux_correct
      (sx : bool) (mx : positive) (ex : Z) (lx : location) (x : Q) :
  inbetween (Z.pos mx) lx x ->
  (53 <= Z.pos (digits2_pos mx))%Z ->
  (-1074 <= Z.pos (digits2_pos mx) + ex - 53)%Z ->
  (Z.pos (digits2_pos mx) + ex <= 1023)%Z ->
  exists (m : positive) (e : Z),
    binary_round_aux prec emax sx (Z.pos mx) ex lx = S754_finite sx m e
    /\ (2 ^ 52 <= Z.pos m < 2 ^ 53)%Z
    /\ (Z.pos (digits2_pos mx) + ex - 53 <= e
        <= Z.pos (digits2_pos mx) + ex - 52)%Z
    /\ Qabs (inject_Z (Z.pos m) * pow2 e - x * pow2 ex)
       <= pow2 (-53) * (x * pow2 ex).
Proof.
  intros Hx Hd Hnorm Hover.
  set (d := Z.pos (digits2_pos mx)) in *.
  set (n := (d - 53)%Z).
  set (e1 := (d + ex - 53)%Z).
  unfold binary_round_aux.
  assert (Hshr : shr_fexp prec emax (Z.pos mx) ex lx
                 = shr (shr_record_of_loc (Z.pos mx) lx) ex n).
  { unfold shr_fexp. cbn [Zdigits2]. fold d.
    rewrite fexp_normal by lia. f_equal. unfold n. lia. }
  rewrite Hshr.
  destruct (loc_of_record_of_loc (Z.pos mx) lx) as [Hloc Hm0].
  destruct (shr_inbetween (shr_record_of_loc (Z.pos mx) lx) ex n x)
    as (He1 & Hm1 & Hin1).
  { unfold n. lia. }
  { rewrite Hm0. lia. }
  { now rewrite Hloc, Hm0. }
  destruct (shr (shr_record_of_loc (Z.pos mx) lx) ex n) as [mrs1 e1'].
  simpl in He1, Hm1, Hin1. subst e1'. cbv beta iota.
  replace (ex + n)%Z with e1 by (unfold e1, n; lia).
  set (m1 := shr_m mrs1) in *. set (l1 := loc_of_shr_record mrs1) in *.
  set (y := x / pow2 n) in *.
  assert (Hy : y * pow2 n == x).
  { unfold y. field. pose proof (pow2_pos n). lra. }
  destruct (inbetween_bounds _ _ _ Hx) as [Hx1 Hx2].
  destruct (inbetween_bounds _ _ _ Hin1) as [Hy1 Hy2].
  destruct (shifted_bounds mx n m1 x y) as [Hm1b Hylo]; auto;
    [unfold n; lia | fold d; unfold n; lia |].
  destruct (round_nearest_even_near m1 l1 y Hin1) as (Hcase & Hr1 & Hr2).
  set (m2 := round_nearest_even m1 l1) in *.
  destruct (renormalise sx m2 e1) as (m & e & Hres & Hmb & Heb & Hval).
  { destruct Hcase as [-> | ->]; lia. }
  { unfold e1. lia. }
  exists m, e. split; [exact Hres |]. split; [exact Hmb |].
  split; [unfold e1 in Heb; lia |].
  rewrite Hval.
  assert (Hxe : x * pow2 ex == y * pow2 e1).
  { rewrite <- Hy. unfold e1. replace (d + ex - 53)%Z with (n + ex)%Z
      by (unfold n; lia).
    rewrite pow2_add. ring. }
  rewrite Hxe.
  pose proof (pow2_pos e1) as Hc.
  assert (Hu : pow2 (-53) * inject_Z (2 ^ 52) == 1 # 2) by reflexivity.
  assert (Hdiff : inject_Z m2 * pow2 e1 - y * pow2 e1
                  == (inject_Z m2 - y) * pow2 e1) by ring.
  rewrite Hdiff, Qabs_Qmult, (Qabs_pos (pow2 e1)) by lra.
  apply Qle_trans with ((1 # 2) * pow2 e1).
  - apply Qmult_le_compat_r; [| lra]. apply Qabs_Qle_condition. lra.
  - rewrite <- Hu.
    rewrite <- !Qmult_assoc. apply Qmult_le_l; [apply pow2_pos |].
    apply Qmult_le_compat_r; [exact Hylo | lra].
Qed.

Lemma digits2_range (p : positive) (a b : Z) :
  (0 <= a)%Z -> (2 ^ a <= Z.pos p < 2 ^ b)%Z ->
  (a + 1 <= Z.pos (digits2_pos p) <= b)%Z.
Proof.
  intros Ha [Hlo Hhi]. pose proof (digits2_bounds p) as [Dlo Dhi].
  set (d := Z.pos (digits2_pos p)) in *.
  assert (Hb : (0 <= b)%Z).
  { destruct (Z.lt_ge_cases b 0) as [Hn | Hp]; [| exact Hp].
    rewrite (Z.pow_neg_r 2 b Hn) in Hhi. lia. }
  split.
  - destruct (Z.lt_ge_cases d (a + 1)) as [Hlt | Hge]; [| exact Hge].
    assert (2 ^ d <= 2 ^ a)%Z by (apply Z.pow_le_mono_r; lia). lia.
  - destruct (Z.lt_ge_cases b d) as [Hlt | Hge]; [| exact Hge].
    assert (2 ^ b <= 2 ^ (d - 1))%Z by (apply Z.pow_le_mono_r; lia). lia.
Qed.

(** *** Multiplication *)

Lemma SFmul_correct (mx my : positive) (ex ey : Z) :
  (2 ^ 52 <= Z.pos mx < 2 ^ 53)%Z -> (2 ^ 52 <= Z.pos my < 2 ^ 53)%Z ->
  (-1126 <= ex + ey)%Z -> (ex + ey <= 917)%Z ->
  exists (m : positive) (e : Z),
    SFmul prec emax (S754_finite false mx ex) (S754_finite false my ey)
    = S754_finite false m e
    /\ (2 ^ 52 <= Z.pos m < 2 ^ 53)%Z
    /\ Qabs (inject_Z (Z.pos m) * pow2 e
             - (inject_Z (Z.pos mx) * pow2 ex) * (inject_Z (Z.pos my) * pow2 ey))
       <= pow2 (-53)
          * ((inject_Z (Z.pos mx) * pow2 ex) * (inject_Z (Z.pos my) * pow2 ey)).
Proof.
  intros Hx Hy Hlo Hhi. cbn [SFmul xorb].
  assert (Hprod : (2 ^ 104 <= Z.pos (mx * my) < 2 ^ 106)%Z).
  { rewrite Pos2Z.inj_mul.
    change (2 ^ 104)%Z with (2 ^ 52 * 2 ^ 52)%Z.
    change (2 ^ 106)%Z with (2 ^ 53 * 2 ^ 53)%Z. nia. }
  pose proof (digits2_range (mx * my) 104 106 ltac:(lia) Hprod) as Hd.
  destruct (binary_round_aux_correct false (mx * my) (ex + ey) loc_Exact
              (inject_Z (Z.pos (mx * my))))
    as (m & e & Hres & Hm & _ & Herr); try lia.
  { simpl. reflexivity. }
  exists m, e. split; [exact Hres |]. split; [exact Hm |].
  assert (Hval : inject_Z (Z.pos (mx * my)) * pow2 (ex + ey)
                 == (inject_Z (Z.pos mx) * pow2 ex)
                    * (inject_Z (Z.pos my) * pow2 ey)).
  { rewrite Pos2Z.inj_mul, inject_Z_mult, pow2_add. ring. }
  now rewrite Hval in Herr.
Qed.

(** *** Division of integers *)

Lemma new_location_correct (q b r : Z) :
  (0 < b)%Z -> (0 <= r < b)%Z ->
  inbetween q (new_location b r) (inject_Z q + inject_Z r / inject_Z b).
Proof.
  intros Hb Hr.
  assert (HB : 0 < inject_Z b) by (change 0 with (inject_Z 0); now rewrite <- Zlt_Qlt).
  remember (inject_Z r / inject_Z b) as f eqn:Ef.
  assert (Hf : f * inject_Z b == inject_Z r).
  { rewrite Ef. field. lra. }
  assert (Hcmp : forall k : Z,
             (inject_Z k < 2 * inject_Z r <-> (k < 2 * r)%Z)
             /\ (2 * inject_Z r < inject_Z k <-> (2 * r < k)%Z)).
  { intros k. change 2 with (inject_Z 2). rewrite <- inject_Z_mult.
    rewrite <- !Zlt_Qlt. tauto. }
  assert (Hhalf_lt : (2 * r < b)%Z -> f < 1 # 2).
  { intros H2. apply Hcmp in H2.
    apply Qmult_lt_r with (z := inject_Z b); [exact HB |]. rewrite Hf. lra. }
  assert (Hhalf_gt : (b < 2 * r)%Z -> 1 # 2 < f).
  { intros H2. apply Hcmp in H2.
    apply Qmult_lt_r with (z := inject_Z b); [exact HB |]. rewrite Hf. lra. }
  assert (Hf1 : f < 1).
  { apply Qmult_lt_r with (z := inject_Z b); [exact HB |]. rewrite Hf.
    rewrite Qmult_1_l. rewrite <- Zlt_Qlt. lia. }
  assert (Hf0 : r <> 0%Z -> 0 < f).
  { intros Hr0. apply Qmult_lt_r with (z := inject_Z b); [exact HB |].
    rewrite Hf, Qmult_0_l. change 0 with (inject_Z 0). rewrite <- Zlt_Qlt.
    lia. }
  assert (Hzero : r = 0%Z -> f == 0).
  { intros ->. apply Qmult_inj_r with (z := inject_Z b); [lra |].
    rewrite Hf. ring. }
  unfold new_location.
  destruct (Z.even b) eqn:Heven;
    [unfold new_location_even | unfold new_location_odd];
    destruct (Z.eqb_spec r 0%Z) as [Hr0 | Hr0];
    try (specialize (Hzero Hr0); simpl; lra);
    specialize (Hf0 Hr0).
  - destruct (Z.compare_spec (2 * r) b) as [Heq | Hlt | Hgt]; simpl.
    + assert (Hz : f == 1 # 2).
      { apply Qmult_inj_r with (z := inject_Z b); [lra |].
        rewrite Hf, <- Heq, inject_Z_mult. change (inject_Z 2) with 2.
        field. }
      lra.
    + specialize (Hhalf_lt Hlt). lra.
    + specialize (Hhalf_gt Hgt). lra.
  - assert (Hodd : (2 * r <> b)%Z).
    { intros Heq. rewrite <- Heq, Z.even_mul in Heven. discriminate. }
    destruct (Z.compare_spec (2 * r + 1) b) as [Heq | Hlt | Hgt]; simpl.
    + assert (H2 : (2 * r < b)%Z) by lia. specialize (Hhalf_lt H2). lra.
    + assert (H2 : (2 * r < b)%Z) by lia. specialize (Hhalf_lt H2). lra.
    + assert (H2 : (b < 2 * r)%Z) by lia. specialize (Hhalf_gt H2). lra.
Qed.

(** The quotient of two positive integers [a <= b < 2 ^ 1000], as
    [SFdiv] rounds it. *)
Lemma SFdiv_int_correct (a b : positive) :
  (Z.pos a <= Z.pos b)%Z -> (Z.pos b < 2 ^ 1000)%Z ->
  exists (m : positive) (e : Z),
    SFdiv prec emax (S754_finite false a 0) (S754_finite false b 0)
    = S754_finite false m e
    /\ (2 ^ 52 <= Z.pos m < 2 ^ 53)%Z
    /\ (-1052 <= e <= -51)%Z
    /\ Qabs (inject_Z (Z.pos m) * pow2 e - inject_Z (Z.pos a) / inject_Z (Z.pos b))
       <= pow2 (-53) * (inject_Z (Z.pos a) / inject_Z (Z.pos b)).
Proof.
  intros Hab Hb.
  pose proof (digits2_bounds a) as [A1 A2].
  pose proof (digits2_bounds b) as [B1 B2].
  set (d1 := Z.pos (digits2_pos a)) in *.
  set (d2 := Z.pos (digits2_pos b)) in *.
  assert (Hd1 : (1 <= d1)%Z) by (unfold d1; lia).
  assert (Hd2 : (d2 <= 1000)%Z).
  { apply (digits2_range b 0 1000); [lia |]. split; [simpl; lia | exact Hb]. }
  assert (Hd12 : (d1 <= d2)%Z).
  { destruct (Z.lt_ge_cases d2 d1) as [Hlt | Hge]; [| exact Hge].
    assert (2 ^ d2 <= 2 ^ (d1 - 1))%Z by (apply Z.pow_le_mono_r; lia). lia. }
  set (s := (53 + d2 - d1)%Z).
  assert (Hs : (0 < s)%Z) by (unfold s; lia).
  set (P1 := (2 ^ (d1 - 1))%Z) in *. set (P2 := (2 ^ (d2 - 1))%Z) in *.
  assert (HP1 : (2 ^ d1 = 2 * P1)%Z).
  { unfold P1. replace d1 with (1 + (d1 - 1))%Z at 1 by lia.
    rewrite Z.pow_add_r by lia. reflexivity. }
  assert (HP2 : (2 ^ d2 = 2 * P2)%Z).
  { unfold P2. replace d2 with (1 + (d2 - 1))%Z at 1 by lia.
    rewrite Z.pow_add_r by lia. reflexivity. }
  assert (HS : (2 ^ s * P1 = 2 ^ 53 * P2)%Z).
  { unfold P1, P2. rewrite <- !Z.pow_add_r by lia. f_equal. unfold s. lia. }
  assert (HSpos : (0 < 2 ^ s)%Z) by (apply Z.pow_pos_nonneg; lia).
  rewrite HP1 in A2. rewrite HP2 in B2.
  cbn [SFdiv xorb]. unfold SFdiv_core_binary. cbn [Zdigits2].
  fold d1 d2. rewrite !Z.add_0_r.
  rewrite fexp_normal by lia.
  replace (Z.min (d1 - d2 - 53) (0 - 0))%Z with (- s)%Z by (unfold s; lia).
  replace (0 - 0 - - s)%Z with s by lia.
  destruct s as [|ps|ps] eqn:Es; try lia. rewrite <- Es in *.
  rewrite Z.shiftl_mul_pow2 by lia.
  pose proof (Z_div_mod (Z.pos a * 2 ^ s) (Z.pos b) ltac:(lia)) as Hdm.
  destruct (Z.div_eucl (Z.pos a * 2 ^ s) (Z.pos b)) as [q r].
  destruct Hdm as [Hq Hr].
  assert (Hlow : (2 ^ 52 * Z.pos b < Z.pos a * 2 ^ s)%Z).
  { assert (P1 * 2 ^ s <= Z.pos a * 2 ^ s)%Z
      by (apply Z.mul_le_mono_nonneg_r; lia).
    change (2 ^ 53)%Z with (2 * 2 ^ 52)%Z in HS. nia. }
  assert (Hhigh : (Z.pos a * 2 ^ s < 2 ^ 54 * Z.pos b)%Z).
  { assert (Z.pos a * 2 ^ s < (2 * P1) * 2 ^ s)%Z
      by (apply Z.mul_lt_mono_pos_r; lia).
    change (2 ^ 54)%Z with (2 * 2 ^ 53)%Z. nia. }
  assert (Hqb : (2 ^ 52 <= q < 2 ^ 54)%Z) by nia.
  destruct q as [|pq|pq]; try lia.
  pose proof (digits2_range pq 52 54 ltac:(lia) Hqb) as Hdq.
  destruct (binary_round_aux_correct false pq (- s)
              (new_location (Z.pos b) r)
              (inject_Z (Z.pos pq) + inject_Z r / inject_Z (Z.pos b)))
    as (m & e & Hres & Hm & He & Herr); try (unfold s in *; lia).
  { apply new_location_correct; lia. }
  exists m, e. split; [exact Hres |]. split; [exact Hm |].
  split; [unfold s in *; lia |].
  assert (Hval : (inject_Z (Z.pos pq) + inject_Z r / inject_Z (Z.pos b))
                 * pow2 (- s)
                 == inject_Z (Z.pos a) / inject_Z (Z.pos b)).
  { assert (HB : 0 < inject_Z (Z.pos b)) by reflexivity.
    assert (Hpp : pow2 (- s) * pow2 s == 1).
    { rewrite <- pow2_add. replace (- s + s)%Z with 0%Z by lia. reflexivity. }
    assert (Hqz : inject_Z (Z.pos a) * pow2 s
                  == inject_Z (Z.pos b) * inject_Z (Z.pos pq) + inject_Z r).
    { rewrite pow2_Z by lia.
      rewrite <- !inject_Z_mult, <- inject_Z_plus. now rewrite Hq. }
    pose proof (pow2_pos s) as Hsp. pose proof (pow2_pos (- s)) as Hsn.
    apply Qmult_inj_r with (z := pow2 s); [lra |].
    transitivity ((inject_Z (Z.pos b) * inject_Z (Z.pos pq) + inject_Z r)
                  / inject_Z (Z.pos b) * (pow2 (- s) * pow2 s)).
    - field. lra.
    - rewrite Hpp, <- Hqz. field. lra. }
  now rewrite Hval in Herr.
Qed.

(** *** The rate of one county *)

Lemma hundred : fl_of_int 100 = S754_finite false 7036874417766400 (-46).
Proof. reflexivity. Qed.

Lemma rate_correct (n T : Z) :
  (0 <= n <= T)%Z -> (0 < T < 2 ^ 1000)%Z ->
  Qabs (value (fl_mul (fl_ratio n T) (fl_of_int 100))
        - 100 * (inject_Z n * / inject_Z T))
  <= eps * (100 * (inject_Z n * / inject_Z T)).
Proof.
  intros Hn HT. rewrite hundred.
  destruct T as [|b|b]; try lia.
  destruct n as [|a|a]; try lia.
  - cbn. unfold Qabs, Qle. simpl. lia.
  - cbn [fl_ratio fl_mul b64_float of_int].
    destruct (SFdiv_int_correct a b) as (m1 & e1 & -> & Hm1 & He1 & Herr1);
      try lia.
    destruct (SFmul_correct m1 7036874417766400 e1 (-46))
      as (m2 & e2 & -> & Hm2 & Herr2); try lia.
    cbn [value]. change (inject_Z 1) with 1. rewrite Qmult_1_l.
    assert (H100 : inject_Z (Z.pos 7036874417766400) * pow2 (-46) == 100)
      by reflexivity.
    rewrite H100 in Herr2. clear H100.
    change (pow2 (-53)) with (1 # 9007199254740992) in Herr1, Herr2.
    fold (pow2 e2). fold (pow2 e1) in Herr1, Herr2.
    set (v2 := inject_Z (Z.pos m2) * pow2 e2) in *.
    set (v1 := inject_Z (Z.pos m1) * pow2 e1) in *.
    change (inject_Z (Z.pos a) / inject_Z (Z.pos b))
      with (inject_Z (Z.pos a) * / inject_Z (Z.pos b)) in Herr1.
    set (A := inject_Z (Z.pos a) * / inject_Z (Z.pos b)) in *.
    assert (HA : 0 <= A).
    { unfold A. apply Qmult_le_0_compat; [discriminate |].
      apply Qinv_le_0_compat. discriminate. }
    apply Qabs_Qle_condition in Herr1, Herr2.
    apply Qabs_Qle_condition. unfold eps.
    clearbody v1 v2 A. lra.
Qed.

Lemma Forall_sum_nonneg (ns : list Z) :
  Forall (fun n => (0 <= n)%Z) ns -> (0 <= sum ns)%Z.
Proof.
  induction 1 as [|n ns Hn _ IH].
  - unfold sum. simpl. lia.
  - rewrite FloatFacts.sum_cons. lia.
Qed.

Lemma Forall_le_sum (ns : list Z) :
  Forall (fun n => (0 <= n)%Z) ns ->
  Forall (fun n => (0 <= n <= sum ns)%Z) ns.
Proof.
  induction 1 as [|n ns Hn Hns IH]; constructor.
  - rewrite FloatFacts.sum_cons. pose proof (Forall_sum_nonneg ns Hns). lia.
  - rewrite FloatFacts.sum_cons.
    revert IH. apply List.Forall_impl. intros k Hk. lia.
Qed.

(** The float rates of counts that lie between 0 and [T] add up to the
    hundredfold of their share of [T], within the relative error [eps]. *)
Lemma rates_sum (ns : list Z) (T : Z) :
  (0 < T < 2 ^ 1000)%Z ->
  Forall (fun n => (0 <= n <= T)%Z) ns ->
  Qabs (Exact.fsum
          (map (fun n => value (fl_mul (fl_ratio n T) (fl_of_int 100))) ns)
        - 100 * (inject_Z (sum ns) * / inject_Z T))
  <= eps * (100 * (inject_Z (sum ns) * / inject_Z T)).
Proof.
  intros HT. induction 1 as [|n ns Hn Hns IH].
  - unfold Exact.fsum, sum. simpl. unfold Qabs, Qle. simpl. lia.
  - simpl map. rewrite FloatFacts.fsum_cons, FloatFacts.sum_cons.
    rewrite inject_Z_plus.
    pose proof (rate_correct n T Hn HT) as Hr.
    apply Qabs_Qle_condition in Hr, IH. apply Qabs_Qle_condition.
    set (v := value _) in *. set (S := Exact.fsum _) in *.
    set (c := / inject_Z T) in *. unfold eps in *. lra.
Qed.

End Binary64Facts.

(** * The claims *)

(** ** The constructor *)

Section ConstructorClaims.
Context {F : Type} `{PyFloat F}.
Import Str StrFacts PatternFacts.

(** C1.  The specification asks that a count text without a digit sequence
    give count 0 and that no parse failure escape the constructor.  The
    count text ["."] has no digit, yet it matches the pattern, [int]
    rejects the match and the [ValueError] escapes, because the handler
    only catches [IndexError]; so does the count text ["n.a."], and the rate
    text ["."] behaves the same way. *)
Theorem C1_point_without_digit_raises (d other t : string) :
  any is_digit "." = false
  /\ Information_init d "." other t = Raise ValueError
  /\ any is_digit "n.a." = false
  /\ Information_init d "n.a." other t = Raise ValueError
  /\ Information_init d "" "." t = Raise ValueError.
Proof.
  split; [reflexivity |]. split; [| split; [reflexivity | split]].
  - apply (Information_init_bad_count d "." other t "." []); reflexivity.
  - apply (Information_init_bad_count d "n.a." other t "." ["."]);
      reflexivity.
  - reflexivity.
Qed.

(** C4.  The specification asks that the count text ["1,234"] yield the
    count 1234.  The pattern does take the separator into the match, but
    the match goes to [int] as it is and the constructor raises
    [ValueError]. *)
Theorem C4_thousands_separator_raises (d other t : string) :
  findall "1,234" = ["1,234"]
  /\ Information_init d "1,234" other t = Raise ValueError.
Proof.
  split; [reflexivity |].
  apply (Information_init_bad_count d "1,234" other t "1,234" []);
    reflexivity.
Qed.

(** C9.  Round trip through the display string: for a record built by the
    constructor, whatever rate it holds afterwards, the display string is
    made of its category, description, count part and rate part, and
    passing the description, count part and rate part back to the
    constructor returns a record with the same count. *)
Theorem C9_display_roundtrip_count `{!PyFloatLaws F}
        (d ntext rtext t : string) (built : Information F) (x : F) :
  Information_init d ntext rtext t = Ok built ->
  let self := set_rate built x in
  Information_str self
  = info_type self +:+ " - " +:+ description self +:+ ": "
    +:+ py_str (number self) +:+ " (" +:+ (fl_format3 (rate self) +:+ "%")
    +:+ ")"
  /\ exists again : Information F,
       Information_init (description self) (py_str (number self))
                        (fl_format3 (rate self) +:+ "%") (info_type self)
       = Ok again
       /\ number again = number self.
Proof.
  intros Hbuilt self. split.
  - unfold Information_str. now rewrite !append_assoc.
  - destruct (Information_init_Ok _ _ _ _ _ Hbuilt) as (_ & _ & Hnn).
    change (number self) with (number built).
    destruct (py_str_digits _ Hnn) as [Hd Hne].
    destruct (rate_text_reparses (fl_format3 (rate self))
                                 (fl_format3_shape _)) as [y Hy].
    eexists. split.
    + apply Information_init_intro; [| exact Hy].
      rewrite (count_of_match _ (py_str (number built)) []).
      * now apply py_int_py_str.
      * apply findall_all_class; [now apply all_digit_in_class | exact Hne].
    + reflexivity.
Qed.

End ConstructorClaims.

Lemma C9_display_roundtrip_count_witness :
  Information_init (F := Q) "Dublin" "10 cases" "" "Cases by county"
  = Ok {| description := "Dublin"; number := 10; rate := fl_of_int 0;
          info_type := "Cases by county" |}
  /\ exists again : Information Q,
       Information_init "Dublin" (py_str 10)
                        (fl_format3 (Qmake 200 3) +:+ "%") "Cases by county"
       = Ok again
       /\ number again = 10.
Proof.
  split; [reflexivity |].
  exact (proj2 (C9_display_roundtrip_count
                  "Dublin" "10 cases" "" "Cases by county"
                  {| description := "Dublin"; number := 10;
                     rate := fl_of_int 0;
                     info_type := "Cases by county" |}
                  (Qmake 200 3) eq_refl)).
Defined.


(** ** The rate pass *)

Section RatePassFacts.
Context {F : Type} `{PyFloat F}.

Abbreviation Info := (Information F).
Abbreviation State := (state F).

Lemma rate_pass_inv (recs out : list Info) :
  rate_pass recs = Ok out ->
  out = map (county_rate (sum (county_numbers recs))) recs
  /\ (existsb is_county recs = true -> sum (county_numbers recs) <> 0).
Proof.
  unfold rate_pass.
  destruct (existsb is_county recs); cbn [andb].
  - destruct (Z.eqb_spec (sum (county_numbers recs)) 0); [discriminate |].
    intros [= <-]. auto.
  - intros [= <-]. split; [reflexivity | discriminate].
Qed.

Lemma county_rate_is_county (nc : Z) (o : Info) :
  is_county (county_rate nc o) = is_county o.
Proof. unfold county_rate. now destruct (is_county o) eqn:E. Qed.

Lemma county_rate_number (nc : Z) (o : Info) :
  number (county_rate nc o) = number o.
Proof. unfold county_rate. now destruct (is_county o). Qed.

Lemma filter_county_rate (nc : Z) (recs : list Info) :
  List.filter is_county (map (county_rate nc) recs)
  = map (county_rate nc) (List.filter is_county recs).
Proof.
  induction recs as [|o recs IH]; simpl; [reflexivity |].
  rewrite county_rate_is_county.
  destruct (is_county o); simpl; now rewrite IH.
Qed.

Lemma county_numbers_rate (nc : Z) (recs : list Info) :
  county_numbers (map (county_rate nc) recs) = county_numbers recs.
Proof.
  unfold county_numbers. rewrite filter_county_rate, map_map.
  apply map_ext. intros o. apply county_rate_number.
Qed.

Lemma shares_of_rate_pass (recs : list Info) (nc : Z) :
  map rate (List.filter is_county (map (county_rate nc) recs))
  = map (fun n => fl_mul (fl_ratio n nc) (fl_of_int 100))
        (county_numbers recs).
Proof.
  unfold county_numbers. rewrite filter_county_rate, !map_map.
  apply map_ext_in. intros o Ho. apply filter_In in Ho as [_ Hc].
  unfold county_rate. now rewrite Hc.
Qed.

(** Counts are never negative. *)
Lemma record_of_row_nonneg (row : list string) (title : string) (o : Info) :
  record_of_row row title = Ok o -> 0 <= number o.
Proof.
  unfold record_of_row.
  destruct (getitem (extend_row row) 0) as [c0|e]; [| discriminate].
  destruct (getitem (extend_row row) 1) as [c1|e]; [| discriminate].
  destruct (getitem (extend_row row) 2) as [c2|e]; [| discriminate].
  simpl. intros Ho. now apply Information_init_Ok in Ho.
Qed.

Lemma records_of_rows_nonneg (rows : list (list string)) (title : string)
      (os : list Info) :
  records_of_rows rows title = Ok os -> Forall (fun o => 0 <= number o) os.
Proof.
  revert os. induction rows as [|row rows IH]; intros os; simpl.
  - intros [= <-]. constructor.
  - destruct (record_of_row row title) as [o|e] eqn:Eo; [| discriminate].
    destruct (records_of_rows rows title) as [os'|e]; [| discriminate].
    simpl. intros [= <-]. constructor; [| now apply IH].
    now apply record_of_row_nonneg in Eo.
Qed.

Lemma records_of_tables_nonneg (pairs : list (table_dict * string))
      (os : list Info) :
  records_of_tables pairs = Ok os -> Forall (fun o => 0 <= number o) os.
Proof.
  revert os. induction pairs as [|[parsed title] pairs IH]; intros os; simpl.
  - intros [= <-]. constructor.
  - destruct (records_of_rows (data parsed) title) as [os1|e] eqn:E1;
      [| discriminate].
    destruct (records_of_tables pairs) as [os2|e]; [| discriminate].
    simpl. intros [= <-]. apply Forall_app. split.
    + now apply records_of_rows_nonneg in E1.
    + now apply IH.
Qed.

Lemma county_numbers_nonneg (recs : list Info) :
  Forall (fun o => 0 <= number o) recs ->
  Forall (fun n => 0 <= n) (county_numbers recs).
Proof.
  unfold county_numbers. induction 1 as [|o recs Ho _ IH]; simpl.
  - constructor.
  - destruct (is_county o); simpl; [constructor |]; auto.
Qed.

(** The rate of a county record after the pass, for any float. *)
Lemma rate_pass_formula (recs out : list Info) (o : Info) :
  rate_pass recs = Ok out -> In o out -> is_county o = true ->
  rate o = fl_mul (fl_ratio (number o) (sum (county_numbers out)))
                  (fl_of_int 100).
Proof.
  intros [-> _]%rate_pass_inv Ho Hc.
  rewrite county_numbers_rate.
  apply in_map_iff in Ho as (o0 & <- & _).
  rewrite county_rate_is_county in Hc. rewrite county_rate_number.
  unfold county_rate. now rewrite Hc.
Qed.

(** What the rate pass leaves alone. *)
Lemma county_rate_frame (nc : Z) (recs : list Info) :
  Forall2 (fun o o' =>
             description o' = description o
             /\ number o' = number o
             /\ info_type o' = info_type o
             /\ (is_county o = false -> o' = o)
             /\ (is_county o = true -> exists r, o' = set_rate o r))
          recs (map (county_rate nc) recs).
Proof.
  induction recs as [|o recs IH]; simpl; [constructor |].
  constructor; [| exact IH].
  unfold county_rate. destruct (is_county o) eqn:E; simpl.
  - repeat split; [discriminate | eauto].
  - repeat split. discriminate.
Qed.

(** The rate pass keeps the store's older objects and the addresses. *)
Lemma for_counties_frame (counties : list nat) (nc : Z) (st st' : State)
      (u : unit) :
  for_counties counties nc st = Ok (u, st') ->
  next st' = next st
  /\ forall a, ~ In a counties -> store st' a = store st a.
Proof.
  destruct (Z.eq_dec nc 0) as [-> | Hnz].
  - destruct counties as [|c cs]; [| discriminate].
    simpl. unfold ret. intros [= _ <-]. auto.
  - destruct (for_counties_spec counties nc st Hnz)
      as (st2 & Hrun & Hnext & Hout & _).
    rewrite Hrun. intros [= _ <-]. auto.
Qed.

Lemma load_file_frame (doc : node) (st st' : State) (result : list nat) :
  load_file doc st = Ok (result, st') ->
  exists n : nat,
    result = seq (next st) n
    /\ next st' = (next st + n)%nat
    /\ forall a, (a < next st)%nat -> store st' a = store st a.
Proof.
  unfold load_file. unfold bind at 1. rewrite for_tables_spec.
  destruct (records_of_tables (zip_tables doc)) as [os|e]; [| discriminate].
  cbn [app]. unfold bind at 1, get_state. unfold bind at 1.
  set (counties := List.filter _ _). set (nc := sum _).
  destruct (for_counties counties nc (allocate os st)) as [[u st2]|e] eqn:E;
    [| discriminate].
  unfold ret. intros [= <- <-].
  apply for_counties_frame in E as [Hnext Hout].
  exists (length os). split; [reflexivity |].
  split; [now rewrite Hnext, allocate_next |].
  intros a Ha. rewrite Hout.
  - now apply allocate_old.
  - unfold counties. rewrite filter_In, in_seq. lia.
Qed.

End RatePassFacts.

Section RatePassClaims.
Context {F : Type} `{PyFloat F}.

(** C3.  When the records built from a document include a county record
    and the county counts add up to zero, the rate pass divides by zero and
    [load_file] raises [ZeroDivisionError]. *)
Theorem C3_zero_total_division_by_zero
        (doc : node) (st : state F) (recs : list (Information F)) :
  built_records doc st = Ok recs ->
  existsb is_county recs = true ->
  sum (county_numbers recs) = 0 ->
  load_file doc st = Raise ZeroDivisionError
  /\ load_records doc st = Raise ZeroDivisionError.
Proof.
  intros Hbuilt Hex Hzero.
  assert (Hrec : load_records doc st = Raise ZeroDivisionError).
  { rewrite load_records_spec, Hbuilt. simpl. unfold rate_pass.
    now rewrite Hex, Hzero. }
  split; [| exact Hrec].
  unfold load_records in Hrec.
  destruct (load_file doc st) as [[result st']|e]; congruence.
Qed.

(** C8.  The one change made to records after their construction is the
    rate pass of [load_file]: the returned objects are the built records
    in the same order, with description, count and category unchanged and
    with every record outside the county categories unchanged as a whole;
    the objects that were in the store before the call are not touched. *)
Theorem C8_rate_pass_frame
        (doc : node) (st st' : state F) (result : list nat) :
  load_file doc st = Ok (result, st') ->
  exists recs : list (Information F),
    built_records doc st = Ok recs
    /\ Forall2 (fun o o' =>
                  description o' = description o
                  /\ number o' = number o
                  /\ info_type o' = info_type o
                  /\ (is_county o = false -> o' = o)
                  /\ (is_county o = true -> exists r, o' = set_rate o r))
               recs (map (store st') result)
    /\ forall a, (a < next st)%nat -> store st' a = store st a.
Proof.
  intros Hload.
  pose proof (load_records_spec doc st) as Hspec.
  unfold load_records in Hspec. rewrite Hload in Hspec.
  destruct (built_records doc st) as [recs|e]; [| discriminate].
  simpl in Hspec. symmetry in Hspec.
  apply rate_pass_inv in Hspec as [Hout _].
  exists recs. split; [reflexivity |]. split.
  - rewrite Hout. apply county_rate_frame.
  - destruct (load_file_frame _ _ _ _ Hload) as (n & _ & _ & Hold).
    exact Hold.
Qed.

End RatePassClaims.

Lemma C3_zero_total_division_by_zero_witness :
  built_records (F := Q) Docs.snapshot_zero_total empty_state
  = Ok [ {| description := "Clare"; number := 0; rate := fl_of_int 0;
            info_type := "Cases by county" |};
         {| description := "Kerry"; number := 0; rate := fl_of_int 0;
            info_type := "Cases by county" |} ]
  /\ load_file (F := Q) Docs.snapshot_zero_total empty_state
     = Raise ZeroDivisionError.
Proof.
  split; [reflexivity |].
  exact (proj1 (C3_zero_total_division_by_zero
                  Docs.snapshot_zero_total empty_state _
                  eq_refl eq_refl eq_refl)).
Defined.

Lemma C8_rate_pass_frame_witness :
  load_file Docs.snapshot_two_tables empty_state
  = Ok ([0; 1; 2; 3; 4]%nat, Docs.after_two_tables)
  /\ built_records Docs.snapshot_two_tables empty_state
     = Ok Docs.snapshot_two_tables_built
  /\ Forall2 (fun o o' =>
                description o' = description o
                /\ number o' = number o
                /\ info_type o' = info_type o
                /\ (is_county o = false -> o' = o)
                /\ (is_county o = true -> exists r, o' = set_rate o r))
             Docs.snapshot_two_tables_built
             (map (store Docs.after_two_tables) [0; 1; 2; 3; 4]%nat).
Proof.
  split; [reflexivity |]. split; [reflexivity |].
  destruct (C8_rate_pass_frame Docs.snapshot_two_tables empty_state
              Docs.after_two_tables [0; 1; 2; 3; 4]%nat eq_refl)
    as (recs & Hbuilt & Hframe & _).
  assert (Hrecs : Ok recs = Ok Docs.snapshot_two_tables_built)
    by (rewrite <- Hbuilt; reflexivity).
  injection Hrecs as <-. exact Hframe.
Defined.

(** ** Exact rates *)

Section ExactRates.
Import FloatFacts.

(** In binary64, for a total below [2 ^ 1000], the county rates as the
    numbers they stand for add up to a hundred within [10 ^ -13]. *)
Lemma binary64_rates_sum
      (doc : node) (st : state spec_float) (out : list (Information spec_float)) :
  load_records doc st = Ok out ->
  0 < sum (county_numbers out) < 2 ^ 1000 ->
  (Qabs (Exact.fsum (map Binary64.value (map rate (List.filter is_county out)))
         - inject_Z 100)
   <= 1 # 10000000000000)%Q.
Proof.
  intros Hload HT.
  rewrite load_records_spec, built_records_spec in Hload.
  destruct (records_of_tables (zip_tables doc)) as [recs|e] eqn:Erecs;
    [| discriminate].
  simpl in Hload. apply rate_pass_inv in Hload as [Hout _].
  assert (Hnums : county_numbers recs = county_numbers out)
    by now rewrite Hout, county_numbers_rate.
  rewrite <- Hnums in HT.
  rewrite Hout at 1. rewrite shares_of_rate_pass, map_map.
  apply records_of_tables_nonneg, county_numbers_nonneg in Erecs.
  apply Binary64Facts.Forall_le_sum in Erecs.
  pose proof (Binary64Facts.rates_sum _ _ HT Erecs) as Hsum.
  set (S := Exact.fsum _) in *.
  assert (Hone : (inject_Z (sum (county_numbers recs))
                  * / inject_Z (sum (county_numbers recs)) == 1)%Q).
  { apply Qmult_inv_r. intros Hq. unfold Qeq in Hq. simpl in Hq. lia. }
  rewrite Hone in Hsum.
  apply Qabs_Qle_condition in Hsum. apply Qabs_Qle_condition.
  unfold Binary64.eps in Hsum. change (inject_Z 100) with 100%Q. lra.
Qed.

(** C2.  In every loaded snapshot, whatever the float arithmetic, the rate
    of each record of a county category is its count divided by the total
    count of the records of the county categories, times a hundred,
    whatever rate the source gave; when that total is positive these rates
    add up to a hundred, exactly in exact arithmetic and within [10 ^ -13]
    in binary64 (for a total below [2 ^ 1000]; the float rates are added as
    the numbers they stand for); and the counts Dublin 10, Cork 5, Clare 0
    are displayed with the rates 66.667, 33.333 and 0.000, in exact
    arithmetic and in binary64 alike. *)
Theorem C2_county_rates :
  (forall (F : Type) (HF : PyFloat F)
          (doc : node) (st : state F) (out : list (Information F)),
      load_records doc st = Ok out ->
      let total := sum (county_numbers out) in
      (exists recs : list (Information F),
         built_records doc st = Ok recs
         /\ county_numbers recs = county_numbers out
         /\ out = map (county_rate total) recs)
      /\ (forall o, In o out -> is_county o = true ->
            rate o = fl_mul (fl_ratio (number o) total) (fl_of_int 100)))
  /\ (forall (doc : node) (st : state Q) (out : list (Information Q)),
        load_records doc st = Ok out ->
        0 < sum (county_numbers out) ->
        (Exact.fsum (map rate (List.filter is_county out)) == inject_Z 100)%Q)
  /\ (forall (doc : node) (st : state spec_float)
             (out : list (Information spec_float)),
        load_records doc st = Ok out ->
        0 < sum (county_numbers out) < 2 ^ 1000 ->
        (Qabs (Exact.fsum (map Binary64.value
                               (map rate (List.filter is_county out)))
               - inject_Z 100)
         <= 1 # 10000000000000)%Q)
  /\ Docs.shown (F := Q) Docs.snapshot_2020_03_19
     = Ok ["Cases by county - Dublin: 10 (66.667%)";
           "Cases by county - Cork: 5 (33.333%)";
           "Cases by county - Clare: 0 (0.000%)"]
  /\ Docs.shown (F := spec_float) Docs.snapshot_2020_03_19
     = Ok ["Cases by county - Dublin: 10 (66.667%)";
           "Cases by county - Cork: 5 (33.333%)";
           "Cases by county - Clare: 0 (0.000%)"].
Proof.
  split; [| split; [| split; [exact binary64_rates_sum | split]]].
  - intros F HF doc st out Hload total.
    rewrite load_records_spec in Hload.
    destruct (built_records doc st) as [recs|e]; [| discriminate].
    simpl in Hload. split.
    + apply rate_pass_inv in Hload as [Hout _].
      assert (Hnums : county_numbers recs = county_numbers out)
        by now rewrite Hout, county_numbers_rate.
      exists recs. repeat split; [exact Hnums |].
      unfold total. now rewrite <- Hnums.
    + intros o Ho Hc. now apply (rate_pass_formula recs out).
  - intros doc st out Hload Hpos.
    rewrite load_records_spec in Hload.
    destruct (built_records doc st) as [recs|e]; [| discriminate].
    simpl in Hload. apply rate_pass_inv in Hload as [Hout _].
    assert (Hnums : county_numbers recs = county_numbers out)
      by now rewrite Hout, county_numbers_rate.
    rewrite <- Hnums in Hpos.
    rewrite Hout at 1. rewrite shares_of_rate_pass.
    rewrite fsum_shares by lia.
    field. intros Hq. unfold Qeq in Hq. simpl in Hq. lia.
  - vm_compute. reflexivity.
  - vm_compute. reflexivity.
Qed.

End ExactRates.

Lemma C2_county_rates_witness :
  load_records Docs.snapshot_2020_03_19 empty_state
  = Ok Docs.snapshot_2020_03_19_records
  /\ 0 < sum (county_numbers Docs.snapshot_2020_03_19_records)
  /\ (Exact.fsum
        (map rate (List.filter is_county Docs.snapshot_2020_03_19_records))
      == inject_Z 100)%Q
  /\ load_records Docs.snapshot_2020_03_19 empty_state
     = Ok Docs.snapshot_2020_03_19_binary64
  /\ 0 < sum (county_numbers Docs.snapshot_2020_03_19_binary64) < 2 ^ 1000
  /\ (Qabs (Exact.fsum
              (map Binary64.value
                   (map rate (List.filter is_county
                                          Docs.snapshot_2020_03_19_binary64)))
            - inject_Z 100)
      <= 1 # 10000000000000)%Q.
Proof.
  split; [reflexivity |]. split; [reflexivity |]. split.
  - exact (proj1 (proj2 C2_county_rates)
                 Docs.snapshot_2020_03_19 empty_state
                 Docs.snapshot_2020_03_19_records eq_refl eq_refl).
  - split; [reflexivity |]. split; [split; reflexivity |].
    exact (proj1 (proj2 (proj2 C2_county_rates))
                 Docs.snapshot_2020_03_19 empty_state
                 Docs.snapshot_2020_03_19_binary64 eq_refl
                 (conj eq_refl eq_refl)).
Defined.

(** ** Tables and rows *)

Section TableFacts.

Lemma head_filter_None {A : Type} (p : A -> bool) (l : list A) :
  head (List.filter p l) = None <-> existsb p l = false.
Proof.
  induction l as [|a l IH]; simpl; [tauto |].
  destruct (p a); simpl; [split; discriminate | exact IH].
Qed.

(** [row.strong is None] exactly when no [strong] element is below [row]. *)
Lemma find_strong_None (row : node) :
  find "strong" row = None <-> contains_strong row = false.
Proof. apply head_filter_None. Qed.

Lemma parse_row_header (result : table_dict) (row : node) :
  contains_strong row = true ->
  parse_row result row
  = {| cols := cols result ++ [row_cells row]; data := data result |}.
Proof.
  intros Hs. unfold parse_row.
  destruct (find "strong" row) eqn:E; [reflexivity |].
  apply find_strong_None in E. congruence.
Qed.

Lemma parse_row_data (result : table_dict) (row : node) :
  contains_strong row = false ->
  parse_row result row
  = {| cols := cols result; data := data result ++ [row_cells row] |}.
Proof.
  intros Hs. unfold parse_row.
  apply find_strong_None in Hs. now rewrite Hs.
Qed.

(** The loop of [parse_html_table] splits the rows in two, in order. *)
Lemma parse_rows_spec (rows : list node) (result : table_dict) :
  fold_left parse_row rows result
  = {| cols := cols result
               ++ map row_cells (List.filter contains_strong rows);
       data := data result
               ++ map row_cells
                    (List.filter (fun r => negb (contains_strong r)) rows) |}.
Proof.
  revert result. induction rows as [|row rows IH]; intros result; simpl.
  - destruct result. simpl. now rewrite !app_nil_r.
  - rewrite IH. destruct (contains_strong row) eqn:E; simpl.
    + rewrite (parse_row_header _ _ E). simpl. now rewrite <- app_assoc.
    + rewrite (parse_row_data _ _ E). simpl. now rewrite <- app_assoc.
Qed.

Lemma filter_Tag_bool (l : list node) : List.filter Tag_bool l = l.
Proof. induction l as [|a l IH]; simpl; [reflexivity | now rewrite IH]. Qed.

(** C7.  [parse_html_table] puts a row under ["cols"] exactly when a
    [strong] element occurs somewhere below the row and under ["data"]
    otherwise, keeping the order of the rows; a row's cells are the
    stripped texts of its [td] elements: each is the text of an element
    without the whitespace at its two ends. *)
Theorem C7_header_rows_and_trimmed_cells (table : node) :
  let rows := find_all "tr" table in
  cols (parse_html_table table)
  = map row_cells (List.filter contains_strong rows)
  /\ data (parse_html_table table)
     = map row_cells (List.filter (fun r => negb (contains_strong r)) rows)
  /\ (forall row,
        contains_strong row = true
        <-> exists el, In el (descendants row)
                       /\ has_name "strong" el = true)
  /\ (forall row,
        row_cells row
        = map (fun el => Str.strip (text el)) (find_all "td" row))
  /\ (forall row c,
        In c (row_cells row) ->
        Str.trimmed c = true
        /\ exists el l r,
             In el (find_all "td" row)
             /\ text el = l +:+ c +:+ r
             /\ Str.all Str.is_space l = true
             /\ Str.all Str.is_space r = true).
Proof.
  intros rows. unfold parse_html_table. fold rows.
  rewrite parse_rows_spec. simpl.
  split; [reflexivity |]. split; [reflexivity |]. split; [| split].
  - intros row. unfold contains_strong. apply existsb_exists.
  - intros row. unfold row_cells. now rewrite filter_Tag_bool.
  - intros row c Hc. unfold row_cells in Hc.
    rewrite filter_Tag_bool in Hc.
    apply in_map_iff in Hc as (el & <- & Hel).
    split; [apply StrFacts.strip_trimmed |].
    destruct (StrFacts.strip_decompose (text el)) as (l & r & Heq & Hl & Hr).
    exists el, l, r. auto.
Qed.

End TableFacts.

(** ** The rows [load_file] reads *)

Section RowFacts.
Context {F : Type} `{PyFloat F}.

Lemma for_each_Ok {A B : Type} (f : A -> res B) (l : list A) (bs : list B) :
  for_each f l = Ok bs <-> Forall2 (fun a b => f a = Ok b) l bs.
Proof.
  revert bs. induction l as [|a l IH]; intros bs; simpl.
  - split; [intros [= <-]; constructor | intros Hf; now inversion Hf].
  - destruct (f a) as [b|e] eqn:Ea; simpl.
    + destruct (for_each f l) as [bs'|e] eqn:El; simpl.
      * split.
        -- intros [= <-]. constructor; [exact Ea | now apply IH].
        -- intros Hf. inversion Hf as [|a' b' l' bs'' Hb Hrest]; subst.
           apply IH in Hrest. congruence.
      * split; [discriminate |].
        intros Hf. inversion Hf as [|a' b' l' bs'' Hb Hrest]; subst.
        apply IH in Hrest. discriminate.
    + split; [discriminate |].
      intros Hf. inversion Hf; congruence.
Qed.

(** A comprehension raises what one of its elements raises. *)
Lemma for_each_Raise {A B : Type} (f : A -> res B) (l : list A) (e : exn) :
  for_each f l = Raise e -> exists a, In a l /\ f a = Raise e.
Proof.
  induction l as [|a l IH]; simpl; [discriminate |].
  destruct (f a) as [b|e'] eqn:Ea; simpl.
  - destruct (for_each f l) as [bs|e'] eqn:El; simpl; [discriminate |].
    intros [= ->]. destruct (IH eq_refl) as (a' & Hin & Ha'). eauto.
  - intros [= ->]. eauto.
Qed.

Lemma for_each_app {A B : Type} (f : A -> res B) (l l' : list A) :
  for_each f (l ++ l')
  = res_bind (for_each f l) (fun bs =>
    res_bind (for_each f l') (fun bs' => Ok (bs ++ bs'))).
Proof.
  induction l as [|a l IH]; simpl.
  - destruct (for_each f l'); reflexivity.
  - destruct (f a) as [b|e]; simpl; [| reflexivity].
    rewrite IH. destruct (for_each f l) as [bs|e]; simpl; [| reflexivity].
    destruct (for_each f l'); reflexivity.
Qed.

Lemma for_each_map {A A' B : Type} (h : A -> A') (f : A' -> res B)
      (l : list A) :
  for_each f (map h l) = for_each (fun a => f (h a)) l.
Proof. induction l as [|a l IH]; simpl; [reflexivity | now rewrite IH]. Qed.

Lemma for_each_ext {A B : Type} (f g : A -> res B) (l : list A) :
  (forall a, f a = g a) -> for_each f l = for_each g l.
Proof.
  intros Hfg. induction l as [|a l IH]; simpl; [reflexivity |].
  now rewrite Hfg, IH.
Qed.

Lemma Forall2_nth_error {A B : Type} (P : A -> B -> Prop) (l : list A)
      (k : list B) (i : nat) (a : A) :
  Forall2 P l k -> nth_error l i = Some a ->
  exists b, nth_error k i = Some b /\ P a b.
Proof.
  intros Hf. revert i.
  induction Hf as [|a' b' l k Hab _ IH]; intros [|i]; simpl;
    try discriminate.
  - intros [= ->]. eauto.
  - apply IH.
Qed.

(** The two loops of [load_file] construct one record for each row of
    [titled_rows], in this order, and stop at the first row whose record
    cannot be constructed. *)
Lemma records_of_rows_for_each (rows : list (list string)) (title : string) :
  records_of_rows (F := F) rows title
  = for_each (fun rt => record_of_row (fst rt) (snd rt))
             (map (fun row => (row, title)) rows).
Proof. induction rows as [|row rows IH]; simpl; [reflexivity | now rewrite IH]. Qed.

Lemma records_of_tables_for_each (pairs : list (table_dict * string)) :
  records_of_tables (F := F) pairs
  = for_each (fun rt => record_of_row (fst rt) (snd rt)) (titled_rows pairs).
Proof.
  unfold titled_rows.
  induction pairs as [|[parsed title] pairs IH]; simpl; [reflexivity |].
  now rewrite for_each_app, <- IH, <- records_of_rows_for_each.
Qed.

(** The record built for the [i]-th titled row is the [i]-th record, before
    and after the rate pass. *)
Lemma load_records_nth (doc : node) (st : state F)
      (out : list (Information F)) (i : nat) (row : list string)
      (title : string) :
  nth_error (titled_rows (zip_tables doc)) i = Some (row, title) ->
  load_records doc st = Ok out ->
  exists (recs : list (Information F)) (o : Information F),
    built_records doc st = Ok recs
    /\ record_of_row row title = Ok o
    /\ nth_error recs i = Some o
    /\ nth_error out i = Some (county_rate (sum (county_numbers recs)) o).
Proof.
  intros Hrow Hload.
  rewrite load_records_spec, built_records_spec in Hload.
  rewrite built_records_spec.
  destruct (records_of_tables (zip_tables doc)) as [recs|e] eqn:Hrecs;
    [| discriminate].
  cbn [res_bind] in Hload. apply rate_pass_inv in Hload as [-> _].
  rewrite records_of_tables_for_each in Hrecs. apply for_each_Ok in Hrecs.
  destruct (Forall2_nth_error _ _ _ _ _ Hrecs Hrow) as (o & Ho & Hrec).
  exists recs, o. split; [reflexivity |]. split; [exact Hrec |].
  split; [exact Ho |]. now apply map_nth_error.
Qed.

Lemma record_of_row_firstn (row : list string) (title : string) :
  record_of_row (F := F) row title = record_of_row (firstn 3 row) title.
Proof. destruct row as [|c0 [|c1 [|c2 rest]]]; reflexivity. Qed.

(** Only the first three cells of each row count. *)
Lemma load_records_first_three (doc doc' : node) (st : state F) :
  map (fun rt => (firstn 3 (fst rt), snd rt)) (titled_rows (zip_tables doc))
  = map (fun rt => (firstn 3 (fst rt), snd rt))
        (titled_rows (zip_tables doc')) ->
  load_records doc st = load_records doc' st.
Proof.
  intros Heq.
  rewrite !load_records_spec, !built_records_spec,
    !records_of_tables_for_each.
  rewrite (for_each_ext _ _ (titled_rows (zip_tables doc))
             (fun rt => record_of_row_firstn (fst rt) (snd rt))).
  rewrite (for_each_ext _ _ (titled_rows (zip_tables doc'))
             (fun rt => record_of_row_firstn (fst rt) (snd rt))).
  rewrite <- !(for_each_map (fun rt => (firstn 3 (fst rt), snd rt))
                 (fun rt => record_of_row (fst rt) (snd rt))).
  now rewrite Heq.
Qed.

End RowFacts.

Section RowClaims.
Context {F : Type} `{PyFloat F}.

(** C6.  A row with fewer than three cells is extended with empty strings
    to exactly three cells, and the record is constructed from these: a
    missing rate cell gives rate 0, a missing count cell gives count 0, an
    empty first cell stays an empty description, and a row of two cells
    gives the first cell as description, the count parsed from the second
    cell and rate 0.  So it is in [load_file]: when it returns, the record
    it has built for such a row of the document holds the first cell, the
    count parsed from the second and rate 0, and this is the record it
    returns at the place of the row, except under a heading that contains
    ["county"], where the rate pass has put the share of the count in
    place of the 0. *)
Theorem C6_short_row_padded (row : list string) (title : string) :
  (length row < 3)%nat ->
  extend_row row = [nth 0 row ""; nth 1 row ""; nth 2 row ""]
  /\ record_of_row row title
     = Information_init (nth 0 row "") (nth 1 row "") (nth 2 row "") title
  /\ (forall o : Information F,
        record_of_row row title = Ok o ->
        rate o = fl_of_int 0
        /\ ((length row <= 1)%nat -> number o = 0)
        /\ (nth 0 row "" = "" -> description o = ""))
  /\ (forall c0 c1 n,
        row = [c0; c1] -> parse_number c1 = Ok n ->
        record_of_row row title
        = Ok {| description := c0; number := n; rate := fl_of_int 0;
                info_type := title |})
  /\ (forall rows result (st : state F),
        for_rows (row :: rows) title result st
        = match Information_init (nth 0 row "") (nth 1 row "") (nth 2 row "")
                                 title with
          | Ok o => for_rows rows title (result ++ [next st])
                             (allocate [o] st)
          | Raise e => Raise e
          end)
  /\ (forall (doc : node) (st : state F) (out : list (Information F))
             (i : nat),
        nth_error (titled_rows (zip_tables doc)) i = Some (row, title) ->
        load_records doc st = Ok out ->
        exists (recs : list (Information F)) (n : Z),
          let o := {| description := nth 0 row ""; number := n;
                      rate := fl_of_int 0; info_type := title |} in
          built_records doc st = Ok recs
          /\ parse_number (nth 1 row "") = Ok n
          /\ ((length row <= 1)%nat -> n = 0)
          /\ nth_error recs i = Some o
          /\ (Str.contains "county" title = false -> nth_error out i = Some o)
          /\ (Str.contains "county" title = true ->
              nth_error out i
              = Some (set_rate o (fl_mul (fl_ratio n (sum (county_numbers
                                                             recs)))
                                         (fl_of_int 100))))).
Proof.
  intros Hlen.
  assert (Hext : extend_row row = [nth 0 row ""; nth 1 row ""; nth 2 row ""]).
  { destruct row as [|c0 [|c1 [|c2 rest]]]; try reflexivity.
    simpl in Hlen. lia. }
  assert (Hrec : record_of_row row title
                 = Information_init (nth 0 row "") (nth 1 row "")
                                    (nth 2 row "") title).
  { unfold record_of_row. now rewrite Hext. }
  assert (Hshort : forall o : Information F,
             record_of_row row title = Ok o ->
             exists n,
               parse_number (nth 1 row "") = Ok n
               /\ ((length row <= 1)%nat -> n = 0)
               /\ o = {| description := nth 0 row ""; number := n;
                         rate := fl_of_int 0; info_type := title |}).
  { intros o Ho. rewrite Hrec in Ho.
    apply Information_init_inv in Ho as (n & x & Hn & Hx & ->).
    exists n. split; [exact Hn |].
    destruct row as [|c0 [|c1 [|c2 rest]]]; simpl in *; try lia.
    - injection Hn as <-. injection Hx as <-. auto.
    - injection Hn as <-. injection Hx as <-. auto.
    - injection Hx as <-. split; [lia | reflexivity]. }
  split; [exact Hext |]. split; [exact Hrec |].
  split; [| split; [| split]].
  - intros o Ho. destruct (Hshort o Ho) as (n & _ & Hn & ->). simpl.
    repeat split; auto.
  - intros c0 c1 n -> Hn. rewrite Hrec. simpl.
    now apply Information_init_intro.
  - intros rows result st. simpl. unfold bind at 1, lift. rewrite Hrec.
    destruct (Information_init _ _ _ _) as [o|e]; reflexivity.
  - intros doc st out i Hrow Hload.
    destruct (load_records_nth doc st out i row title Hrow Hload)
      as (recs & o & Hbuilt & Ho & Hi & Hout).
    destruct (Hshort o Ho) as (n & Hn & Hone & ->).
    exists recs, n. cbv zeta.
    split; [exact Hbuilt |]. split; [exact Hn |]. split; [exact Hone |].
    split; [exact Hi |].
    unfold county_rate, is_county in Hout. cbn [info_type number] in Hout.
    split; intros Hc; rewrite Hc in Hout; exact Hout.
Qed.

(** C10.  A row with three cells or more is left as it is by the
    extension, and the record is constructed from its first three cells;
    the cells after the third change nothing in the record or in the rest
    of the loop.  So it is in [load_file]: the loop constructs the record
    of such a row from the three cells and goes on; when [load_file]
    returns, the record it has built for such a row of the document holds
    the first cell, the count parsed from the second and the rate parsed
    from the third, and stands, after the rate pass, at the place of the
    row in the list returned; and two documents whose rows agree on their
    first three cells load to the same result. *)
Theorem C10_first_three_cells
        (c0 c1 c2 : string) (rest : list string) (title : string) :
  extend_row (c0 :: c1 :: c2 :: rest) = c0 :: c1 :: c2 :: rest
  /\ record_of_row (F := F) (c0 :: c1 :: c2 :: rest) title
     = Information_init c0 c1 c2 title
  /\ (forall rest' rows result (st : state F),
        for_rows ((c0 :: c1 :: c2 :: rest) :: rows) title result st
        = for_rows ((c0 :: c1 :: c2 :: rest') :: rows) title result st)
  /\ (forall rows result (st : state F),
        for_rows ((c0 :: c1 :: c2 :: rest) :: rows) title result st
        = match Information_init c0 c1 c2 title with
          | Ok o => for_rows rows title (result ++ [next st])
                             (allocate [o] st)
          | Raise e => Raise e
          end)
  /\ (forall (doc : node) (st : state F) (out : list (Information F))
             (i : nat),
        nth_error (titled_rows (zip_tables doc)) i
        = Some (c0 :: c1 :: c2 :: rest, title) ->
        load_records doc st = Ok out ->
        exists (recs : list (Information F)) (n : Z) (x : F),
          let o := {| description := c0; number := n; rate := x;
                      info_type := title |} in
          built_records doc st = Ok recs
          /\ parse_number c1 = Ok n
          /\ parse_rate c2 = Ok x
          /\ nth_error recs i = Some o
          /\ nth_error out i
             = Some (county_rate (sum (county_numbers recs)) o))
  /\ (forall (doc doc' : node) (st : state F),
        map (fun rt => (firstn 3 (fst rt), snd rt))
            (titled_rows (zip_tables doc))
        = map (fun rt => (firstn 3 (fst rt), snd rt))
              (titled_rows (zip_tables doc')) ->
        load_records doc st = load_records doc' st).
Proof.
  assert (Hext : forall r, extend_row (c0 :: c1 :: c2 :: r)
                           = c0 :: c1 :: c2 :: r).
  { intros r. unfold extend_row. simpl. now rewrite app_nil_r. }
  assert (Hrec : forall r, record_of_row (F := F) (c0 :: c1 :: c2 :: r) title
                           = Information_init c0 c1 c2 title).
  { intros r. unfold record_of_row. now rewrite Hext. }
  split; [apply Hext |]. split; [apply Hrec |].
  split; [| split; [| split]].
  - intros rest' rows result st. simpl. unfold bind at 1 3, lift.
    now rewrite !Hrec.
  - intros rows result st. simpl. unfold bind at 1, lift. rewrite Hrec.
    destruct (Information_init _ _ _ _) as [o|e]; reflexivity.
  - intros doc st out i Hrow Hload.
    destruct (load_records_nth doc st out i _ title Hrow Hload)
      as (recs & o & Hbuilt & Ho & Hi & Hout).
    rewrite Hrec in Ho.
    apply Information_init_inv in Ho as (n & x & Hn & Hx & ->).
    exists recs, n, x. cbv zeta. auto.
  - intros doc doc' st. apply load_records_first_three.
Qed.

End RowClaims.

Lemma C6_short_row_padded_witness :
  (length ["65+"; "7"] < 3)%nat
  /\ nth_error (titled_rows (zip_tables Docs.snapshot_two_tables)) 1
     = Some (["65+"; "7"], "Age range affected")
  /\ nth_error (Runs.loaded_binary64 Docs.snapshot_two_tables) 1
     = Some {| description := "65+"; number := 7; rate := fl_of_int 0;
               info_type := "Age range affected" |}
  /\ nth_error (titled_rows (zip_tables Docs.snapshot_two_tables)) 2
     = Some (["Dublin"; "10"], "Cases by county")
  /\ nth_error (Runs.loaded_binary64 Docs.snapshot_two_tables) 2
     = Some {| description := "Dublin"; number := 10;
               rate := fl_mul (fl_ratio 10 15) (fl_of_int 100);
               info_type := "Cases by county" |}.
Proof.
  assert (Hlen : (length ["65+"; "7"] < 3)%nat) by (simpl; lia).
  assert (Hlen' : (length ["Dublin"; "10"] < 3)%nat) by (simpl; lia).
  split; [exact Hlen |]. split; [reflexivity |]. split; [| split].
  - destruct (proj2 (proj2 (proj2 (proj2 (proj2
                (C6_short_row_padded (F := spec_float) ["65+"; "7"]
                                     "Age range affected" Hlen)))))
                Docs.snapshot_two_tables empty_state
                (Runs.loaded_binary64 Docs.snapshot_two_tables) 1%nat
                eq_refl eq_refl)
      as (recs & n & _ & Hn & _ & _ & Hout & _).
    injection Hn as <-. exact (Hout eq_refl).
  - reflexivity.
  - destruct (proj2 (proj2 (proj2 (proj2 (proj2
                (C6_short_row_padded (F := spec_float) ["Dublin"; "10"]
                                     "Cases by county" Hlen')))))
                Docs.snapshot_two_tables empty_state
                (Runs.loaded_binary64 Docs.snapshot_two_tables) 2%nat
                eq_refl eq_refl)
      as (recs & n & Hbuilt & Hn & _ & _ & _ & Hout).
    injection Hn as <-. injection Hbuilt as <-. exact (Hout eq_refl).
Defined.

Lemma C10_first_three_cells_witness :
  nth_error (titled_rows (zip_tables Docs.snapshot_two_tables)) 0
  = Some (["<5"; "3"; "1.5%"; "footnote"], "Age range affected")
  /\ exists (recs : list (Information spec_float)) (n : Z) (x : spec_float),
       let o := {| description := "<5"; number := n; rate := x;
                   info_type := "Age range affected" |} in
       built_records Docs.snapshot_two_tables empty_state = Ok recs
       /\ parse_number "3" = Ok n
       /\ parse_rate "1.5%" = Ok x
       /\ nth_error recs 0 = Some o
       /\ nth_error (Runs.loaded_binary64 Docs.snapshot_two_tables) 0
          = Some (county_rate (sum (county_numbers recs)) o).
Proof.
  split; [reflexivity |].
  exact (proj1 (proj2 (proj2 (proj2 (proj2
           (C10_first_three_cells (F := spec_float) "<5" "3" "1.5%"
                                  ["footnote"] "Age range affected")))))
           Docs.snapshot_two_tables empty_state
           (Runs.loaded_binary64 Docs.snapshot_two_tables) 0%nat
           eq_refl eq_refl).
Defined.

(** ** Pairing tables with headings *)

Section PairingFacts.
Context {F : Type} `{PyFloat F}.

Lemma combine_firstn_min {A B : Type} (l : list A) (l' : list B) :
  combine (firstn (Nat.min (length l) (length l')) l)
          (firstn (Nat.min (length l) (length l')) l')
  = combine l l'.
Proof.
  revert l'. induction l as [|a l IH]; intros [|b l']; simpl;
    try reflexivity.
  now rewrite IH.
Qed.

Lemma length_combine_min {A B : Type} (l : list A) (l' : list B) :
  length (combine l l') = Nat.min (length l) (length l').
Proof.
  revert l'. induction l as [|a l IH]; intros [|b l']; simpl;
    try reflexivity.
  now rewrite IH.
Qed.

(** [zip] uses the tables and the headings up to the shorter length. *)
Lemma zip_tables_firstn (doc : node) :
  let m := Nat.min (length (find_all "table" doc))
                   (length (find_all "h2" doc)) in
  zip_tables doc
  = combine (map parse_html_table (firstn m (find_all "table" doc)))
            (map clean_table_title (firstn m (find_all "h2" doc))).
Proof.
  intros m. unfold zip_tables.
  rewrite <- (combine_firstn_min (map parse_html_table _)
                                 (map clean_table_title _)).
  rewrite !length_map. fold m. now rewrite !firstn_map.
Qed.

Lemma load_records_zip (doc doc' : node) (st : state F) :
  zip_tables doc = zip_tables doc' ->
  load_records doc st = load_records doc' st.
Proof.
  intros Hzip. rewrite !load_records_spec, !built_records_spec.
  now rewrite Hzip.
Qed.

(** C5.  [load_file] pairs the i-th table with the i-th heading and uses
    as many pairs as the shorter of the two sequences has; what comes after
    that in the longer sequence has no effect at all: two documents that
    agree on these first tables and headings load to the same result, be
    it a list of records or an exception, so the tables or headings in
    excess produce no record and raise nothing. *)
Theorem C5_pairing_stops_at_shorter (doc doc' : node) (st : state F) :
  let tables := find_all "table" doc in
  let titles := find_all "h2" doc in
  let m := Nat.min (length tables) (length titles) in
  let tables' := find_all "table" doc' in
  let titles' := find_all "h2" doc' in
  let m' := Nat.min (length tables') (length titles') in
  firstn m tables = firstn m' tables' ->
  firstn m titles = firstn m' titles' ->
  length (zip_tables doc) = m
  /\ (forall i table title,
        nth_error tables i = Some table ->
        nth_error titles i = Some title ->
        nth_error (zip_tables doc) i
        = Some (parse_html_table table, clean_table_title title))
  /\ built_records doc st
     = records_of_tables
         (combine (map parse_html_table (firstn m tables))
                  (map clean_table_title (firstn m titles)))
  /\ load_records doc st = load_records doc' st.
Proof.
  intros tables titles m tables' titles' m' Htables Htitles.
  split; [| split; [| split]].
  - unfold zip_tables. rewrite length_combine_min, !length_map. reflexivity.
  - intros i table title Ht Hh. unfold zip_tables.
    fold tables titles. clear -Ht Hh.
    revert i Ht Hh. generalize titles. clear titles.
    induction tables as [|t ts IH]; intros [|h hs] [|i] Ht Hh;
      simpl in *; try discriminate.
    + now injection Ht as ->; injection Hh as ->.
    + now apply IH.
  - rewrite built_records_spec. now rewrite zip_tables_firstn.
  - apply load_records_zip.
    rewrite (zip_tables_firstn doc), (zip_tables_firstn doc').
    fold tables titles m tables' titles' m'.
    now rewrite Htables, Htitles.
Qed.

End PairingFacts.

Lemma C5_pairing_stops_at_shorter_witness :
  firstn 1 (find_all "table" Docs.snapshot_extra_heading)
  = firstn 1 (find_all "table" Docs.snapshot_2020_03_19)
  /\ firstn 1 (find_all "h2" Docs.snapshot_extra_heading)
     = firstn 1 (find_all "h2" Docs.snapshot_2020_03_19)
  /\ length (find_all "h2" Docs.snapshot_extra_heading) = 2%nat
  /\ load_records (F := Q) Docs.snapshot_extra_heading empty_state
     = load_records Docs.snapshot_2020_03_19 empty_state
  /\ load_records Docs.snapshot_2020_03_19 empty_state
     = Ok Docs.snapshot_2020_03_19_records.
Proof.
  split; [reflexivity |]. split; [reflexivity |]. split; [reflexivity |].
  split; [| reflexivity].
  exact (proj2 (proj2 (proj2
           (C5_pairing_stops_at_shorter (F := Q)
              Docs.snapshot_extra_heading Docs.snapshot_2020_03_19
              empty_state eq_refl eq_refl)))).
Defined.

Lemma C7_header_rows_and_trimmed_cells_witness :
  In "Dublin" (row_cells (Docs.tr [" Dublin "; "10"]))
  /\ Str.trimmed "Dublin" = true
  /\ parse_html_table Docs.county_table
     = {| cols := [["County"; "Cases"]];
          data := [["Dublin"; "10"]; ["Cork"; "5"]; ["Clare"; "0"]] |}.
Proof.
  split; [left; reflexivity |]. split; [| reflexivity].
  exact (proj1 (proj2 (proj2 (proj2 (proj2
           (C7_header_rows_and_trimmed_cells Docs.county_table))))
           (Docs.tr [" Dublin "; "10"]) "Dublin" (or_introl eq_refl))).
Defined.

(** ** Concrete runs *)

Example findall_sentence :
  findall "about 1,234 cases (12.5%)" = ["1,234"; "12.5"].
Proof. reflexivity. Qed.

Example count_with_a_stray_point :
  Information_init (F := Q) "Total" "approx. 5" "" "Statistics"
  = Raise ValueError.
Proof. reflexivity. Qed.

Example count_and_rate_from_text :
  Information_init (F := Q) "Dublin" "about 1234 cases" "(12.5%)" "Cases"
  = Ok {| description := "Dublin"; number := 1234;
          rate := fl_ratio 125 (10 ^ 1); info_type := "Cases" |}.
Proof. reflexivity. Qed.

Example rate_with_two_points :
  Information_init (F := Q) "Dublin" "7" "1.2.3" "Cases" = Raise ValueError.
Proof. reflexivity. Qed.

Example strip_unicode_space :
  Str.strip (String (ascii_of_nat 160) " Cork  ") = "Cork".
Proof. reflexivity. Qed.

(** In binary64 the three rates of the example are the doubles Python
    prints as 66.66666666666666, 33.33333333333333 and 0.0, and their sum
    from left to right is one unit in the last place below 100. *)
Example snapshot_2020_03_19_binary64 :
  match load_records (F := spec_float) Docs.snapshot_2020_03_19 empty_state with
  | Ok out =>
      map rate out
      = [S754_finite false 4691249611844266 (-46);
         S754_finite false 4691249611844266 (-47);
         S754_zero false]
      /\ Binary64.fsum (map rate out)
         = S754_finite false 7036874417766399 (-46)
  | Raise _ => False
  end.
Proof. vm_compute. split; reflexivity. Qed.

Example two_tables_shown :
  Docs.shown (F := spec_float) Docs.snapshot_two_tables
  = Ok ["Age range affected - <5: 3 (1.500%)";
        "Age range affected - 65+: 7 (0.000%)";
        "Cases by county - Dublin: 10 (66.667%)";
        "Cases by county - Cork: 5 (33.333%)";
        "Cases by county - Clare: 0 (0.000%)"].
Proof. vm_compute. reflexivity. Qed.

(** * Further properties

    Properties of the loader beyond the claims, and of the display code:
    [markdown_table], the data of the evolution chart, [rescale_patch_size]
    and [plot_map]. *)

(** ** What the constructor and the loader can raise *)

Section RaiseFacts.
Context {F : Type} `{PyFloat F}.
Import Str StrFacts PatternFacts.

Lemma py_int_cases (s : string) :
  (exists n, py_int s = Ok n) \/ py_int s = Raise ValueError.
Proof. unfold py_int. destruct (NilZero.uint_of_string s); eauto. Qed.

Lemma py_float_cases (s : string) :
  (exists x : F, py_float s = Ok x) \/ py_float (F := F) s = Raise ValueError.
Proof.
  unfold py_float. destruct (split_point s) as [ip fp].
  destruct (NilZero.uint_of_string _); eauto.
Qed.

Lemma parse_number_cases (s : string) :
  (exists n, parse_number s = Ok n) \/ parse_number s = Raise ValueError.
Proof.
  destruct (findall s) as [|m ms] eqn:E.
  - left. rewrite (count_of_no_match _ E). eauto.
  - rewrite (count_of_match _ _ _ E). apply py_int_cases.
Qed.

Lemma parse_rate_cases (s : string) :
  (exists x : F, parse_rate s = Ok x)
  \/ parse_rate (F := F) s = Raise ValueError.
Proof.
  destruct (findall s) as [|m ms] eqn:E.
  - left. rewrite (rate_of_no_match _ E). eauto.
  - rewrite (rate_of_match _ _ _ E). apply py_float_cases.
Qed.

Lemma Information_init_cases (d ntext rtext t : string) :
  (exists o : Information F, Information_init d ntext rtext t = Ok o)
  \/ Information_init (F := F) d ntext rtext t = Raise ValueError.
Proof.
  unfold Information_init.
  destruct (parse_number_cases ntext) as [[n ->] | ->]; [| now right].
  destruct (parse_rate_cases rtext) as [[x ->] | ->]; [| now right].
  left. simpl. eauto.
Qed.

(** The three cells a record is built from, whatever the length of the
    row. *)
Lemma record_of_row_cells (row : list string) (title : string) :
  record_of_row (F := F) row title
  = Information_init (nth 0 row "") (nth 1 row "") (nth 2 row "") title.
Proof.
  unfold record_of_row, extend_row.
  destruct row as [|c0 [|c1 [|c2 rest]]]; reflexivity.
Qed.

Lemma records_of_rows_cases (rows : list (list string)) (title : string) :
  (exists os : list (Information F), records_of_rows rows title = Ok os)
  \/ records_of_rows (F := F) rows title = Raise ValueError.
Proof.
  induction rows as [|row rows IH]; simpl; [eauto |].
  rewrite record_of_row_cells.
  destruct (Information_init_cases (nth 0 row "") (nth 1 row "")
                                   (nth 2 row "") title) as [[o ->] | ->];
    [| now right].
  destruct IH as [[os ->] | ->]; [| now right].
  left. simpl. eauto.
Qed.

Lemma records_of_tables_cases (pairs : list (table_dict * string)) :
  (exists os : list (Information F), records_of_tables pairs = Ok os)
  \/ records_of_tables (F := F) pairs = Raise ValueError.
Proof.
  induction pairs as [|[parsed title] pairs IH]; simpl; [eauto |].
  destruct (records_of_rows_cases (data parsed) title) as [[os ->] | ->];
    [| now right].
  destruct IH as [[os' ->] | ->]; [| now right].
  left. simpl. eauto.
Qed.

(** X1.  The constructor returns a record or raises [ValueError]: the
    [IndexError] of an empty match list is caught and nothing else can be
    raised, and a returned record holds the description and the category
    it was given and a count that is not negative. *)
Theorem Information_init_returns_or_ValueError (d ntext rtext t : string) :
  (exists o : Information F,
     Information_init d ntext rtext t = Ok o
     /\ description o = d /\ info_type o = t /\ 0 <= number o)
  \/ Information_init (F := F) d ntext rtext t = Raise ValueError.
Proof.
  destruct (Information_init_cases d ntext rtext t) as [[o Ho] | Hr];
    [left | now right].
  exists o. split; [exact Ho |]. now apply Information_init_Ok in Ho.
Qed.




(** X3.  [load_file] returns, raises [ValueError] (from a constructor) or
    raises [ZeroDivisionError] (from the rate pass); it never raises
    [IndexError], because every row is extended to three cells before its
    cells are read.  The [ValueError] is raised exactly when building the
    records raises, the [ZeroDivisionError] exactly when the records are
    built, one of them is a county record and the county counts add up to
    zero. *)
Theorem load_file_outcomes (doc : node) (st : state F) :
  ((exists out : list (Information F), load_records doc st = Ok out)
   \/ load_records doc st = Raise ValueError
   \/ load_records doc st = Raise ZeroDivisionError)
  /\ (load_records doc st = Raise ValueError
      <-> built_records doc st = Raise ValueError)
  /\ (load_records doc st = Raise ZeroDivisionError
      <-> exists recs : list (Information F),
            built_records doc st = Ok recs
            /\ existsb is_county recs = true
            /\ sum (county_numbers recs) = 0).
Proof.
  rewrite load_records_spec, built_records_spec.
  destruct (records_of_tables_cases (zip_tables doc)) as [[recs ->] | ->];
    cbn [res_bind].
  - unfold rate_pass.
    destruct (existsb is_county recs) eqn:Hex; cbn [andb].
    + destruct (Z.eqb_spec (sum (county_numbers recs)) 0) as [Hz | Hnz].
      * split; [auto |]. split; [split; discriminate |].
        split; [| reflexivity]. intros _. exists recs. auto.
      * split; [eauto |]. split; [split; discriminate |].
        split; [discriminate |].
        intros (recs' & [= <-] & _ & Hz). contradiction.
    + split; [eauto |]. split; [split; discriminate |].
      split; [discriminate |].
      intros (recs' & [= <-] & Hc & _). congruence.
  - split; [auto |]. split; [tauto |].
    split; [discriminate |]. intros (recs' & Hb & _). discriminate.
Qed.

End RaiseFacts.

(** ** What the loaded records hold *)

Section LoadedFacts.
Context {F : Type} `{PyFloat F}.
Import Str StrFacts PatternFacts.

Lemma records_of_rows_keys (rows : list (list string)) (title : string)
      (os : list (Information F)) :
  records_of_rows rows title = Ok os ->
  map (fun o => (description o, info_type o)) os
  = map (fun row => (nth 0 row "", title)) rows.
Proof.
  revert os. induction rows as [|row rows IH]; intros os; simpl.
  - now intros [= <-].
  - destruct (record_of_row row title) as [o|e] eqn:Eo; [| discriminate].
    destruct (records_of_rows rows title) as [os'|e]; [| discriminate].
    simpl. intros [= <-]. simpl. rewrite (IH os' eq_refl). f_equal.
    rewrite record_of_row_cells in Eo.
    apply Information_init_Ok in Eo as (-> & -> & _). reflexivity.
Qed.

Lemma records_of_tables_keys (pairs : list (table_dict * string))
      (os : list (Information F)) :
  records_of_tables pairs = Ok os ->
  map (fun o => (description o, info_type o)) os = row_keys pairs.
Proof.
  revert os. induction pairs as [|[parsed title] pairs IH]; intros os; simpl.
  - now intros [= <-].
  - destruct (records_of_rows (data parsed) title) as [os1|e] eqn:E1;
      [| discriminate].
    destruct (records_of_tables pairs) as [os2|e]; [| discriminate].
    simpl. intros [= <-]. rewrite map_app.
    now rewrite (records_of_rows_keys _ _ _ E1), (IH os2 eq_refl).
Qed.

Lemma rate_pass_keys (recs out : list (Information F)) :
  rate_pass recs = Ok out ->
  map (fun o => (description o, info_type o)) out
  = map (fun o => (description o, info_type o)) recs.
Proof.
  intros [-> _]%rate_pass_inv. rewrite !map_map.
  apply map_ext. intros o. unfold county_rate. now destruct (is_county o).
Qed.

(** A loaded list is the rate pass applied to the built records. *)
Lemma load_records_inv (doc : node) (st : state F)
      (out : list (Information F)) :
  load_records doc st = Ok out ->
  exists recs, records_of_tables (zip_tables doc) = Ok recs
               /\ rate_pass recs = Ok out.
Proof.
  rewrite load_records_spec, built_records_spec.
  destruct (records_of_tables (zip_tables doc)) as [recs|e]; [| discriminate].
  simpl. eauto.
Qed.

Lemma load_records_keys (doc : node) (st : state F)
      (out : list (Information F)) :
  load_records doc st = Ok out ->
  map (fun o => (description o, info_type o)) out = row_keys (zip_tables doc).
Proof.
  intros (recs & Hrecs & Hpass)%load_records_inv.
  apply rate_pass_keys in Hpass. apply records_of_tables_keys in Hrecs.
  congruence.
Qed.

Lemma load_records_nonneg (doc : node) (st : state F)
      (out : list (Information F)) :
  load_records doc st = Ok out -> Forall (fun o => 0 <= number o) out.
Proof.
  intros (recs & Hrecs & Hpass)%load_records_inv.
  apply records_of_tables_nonneg in Hrecs.
  apply rate_pass_inv in Hpass as [-> _].
  apply Forall_map. revert Hrecs. apply List.Forall_impl.
  intros o Ho. now rewrite county_rate_number.
Qed.

(** X4.  A loaded snapshot holds one record for each data row of each
    paired table, in document order: the description is the row's first
    cell as [parse_html_table] returned it (empty for a row without
    cells) and the category is the heading paired with the table. *)
Theorem load_file_one_record_per_row (doc : node) (st : state F)
        (out : list (Information F)) :
  load_records doc st = Ok out ->
  map (fun o => (description o, info_type o)) out = row_keys (zip_tables doc)
  /\ length out
     = length (concat (map (fun p => data (fst p)) (zip_tables doc))).
Proof.
  intros Heq%load_records_keys. split; [exact Heq |].
  apply (f_equal (@length _)) in Heq. rewrite length_map in Heq.
  rewrite Heq. unfold row_keys. generalize (zip_tables doc).
  intros pairs. induction pairs as [|p pairs IH]; simpl; [reflexivity |].
  now rewrite !length_app, length_map, IH.
Qed.

(** X5.  The count of every loaded record is zero or more: a count comes
    from a digit string or is the default, and the rate pass leaves it as
    it is. *)
Theorem load_file_counts_nonneg (doc : node) (st : state F)
        (out : list (Information F)) :
  load_records doc st = Ok out -> Forall (fun o => 0 <= number o) out.
Proof. apply load_records_nonneg. Qed.

Lemma row_cells_trimmed (row : node) (c : string) :
  In c (row_cells row) -> trimmed c = true.
Proof.
  unfold row_cells. intros (el & <- & _)%in_map_iff. apply strip_trimmed.
Qed.

Lemma data_rows (table : node) (row : list string) :
  In row (data (parse_html_table table)) ->
  exists r, In r (find_all "tr" table) /\ row = row_cells r.
Proof.
  unfold parse_html_table. rewrite parse_rows_spec. simpl.
  intros (r & <- & Hr)%in_map_iff. apply filter_In in Hr as [Hr _]. eauto.
Qed.

Lemma first_cell_trimmed (row : node) :
  trimmed (nth 0 (row_cells row) "") = true.
Proof.
  destruct (row_cells row) as [|c cs] eqn:E; [reflexivity |].
  apply (row_cells_trimmed row). rewrite E. now left.
Qed.

Lemma row_keys_In (pairs : list (table_dict * string)) (d t : string) :
  In (d, t) (row_keys pairs) ->
  exists parsed row, In (parsed, t) pairs /\ In row (data parsed)
                     /\ d = nth 0 row "".
Proof.
  unfold row_keys. intros ([parsed t'] & Hp & Hin)%in_flat_map.
  apply in_map_iff in Hin as (row & [= <- <-] & Hrow). eauto.
Qed.

(** X6.  In a loaded snapshot every description and every category is a
    text without whitespace at either end, and every category is the
    stripped text of one of the document's [h2] headings. *)
Theorem load_file_texts_trimmed (doc : node) (st : state F)
        (out : list (Information F)) :
  load_records doc st = Ok out ->
  Forall (fun o =>
            trimmed (description o) = true
            /\ trimmed (info_type o) = true
            /\ exists h, In h (find_all "h2" doc)
                         /\ info_type o = strip (text h)) out.
Proof.
  intros Hkeys%load_records_keys.
  apply List.Forall_forall. intros o Ho.
  assert (Hin : In (description o, info_type o) (row_keys (zip_tables doc))).
  { rewrite <- Hkeys.
    apply (in_map (fun o => (description o, info_type o))), Ho. }
  apply row_keys_In in Hin as (parsed & row & Hp & Hrow & Hd).
  unfold zip_tables in Hp.
  pose proof (in_combine_l _ _ _ _ Hp) as Hl.
  pose proof (in_combine_r _ _ _ _ Hp) as Hr.
  apply in_map_iff in Hl as (table & <- & _).
  apply in_map_iff in Hr as (h & Hh & Hhin).
  apply data_rows in Hrow as (r & _ & ->).
  split; [rewrite Hd; apply first_cell_trimmed |].
  split; [rewrite <- Hh; apply strip_trimmed |].
  exists h. split; [exact Hhin | now rewrite <- Hh].
Qed.

End LoadedFacts.

(** ** Nested tables *)

Section NestingFacts.

Lemma node_induction (P : node -> Prop) :
  (forall s, P (NavigableString s)) ->
  (forall name cs, Forall P cs -> P (Tag name cs)) ->
  forall n, P n.
Proof.
  intros Hs Ht. fix IH 1. intros [s | name cs]; [apply Hs |].
  apply Ht. induction cs as [|c cs IHcs]; constructor; [apply IH | exact IHcs].
Qed.

Lemma descendants_Tag (name : string) (cs : list node) :
  descendants (Tag name cs) = flat_map (fun c => c :: descendants c) cs.
Proof.
  induction cs as [|c cs IH]; [reflexivity |].
  simpl in *. now rewrite IH.
Qed.

(** A descendant of a descendant is a descendant. *)
Lemma descendants_trans (a b c : node) :
  In a (descendants b) -> In b (descendants c) -> In a (descendants c).
Proof.
  intros Hab. revert c.
  apply (node_induction
           (fun c => In b (descendants c) -> In a (descendants c))).
  - intros s [].
  - intros name cs IH. rewrite descendants_Tag.
    intros (x & Hx & Hb)%in_flat_map. apply in_flat_map. exists x.
    split; [exact Hx |]. right.
    destruct Hb as [<- | Hb]; [exact Hab |].
    rewrite List.Forall_forall in IH. now apply IH.
Qed.

Lemma find_all_nested (name : string) (inner outer : node) :
  In inner (descendants outer) ->
  incl (find_all name inner) (find_all name outer).
Proof.
  intros Hin el. unfold find_all. rewrite !filter_In. intros [Hel Hn].
  split; [| exact Hn]. now apply (descendants_trans el inner outer).
Qed.

(** X9.  [find_all] reaches every depth, so a table nested in a cell of
    another table gives its rows to both: every header row and every data
    row of the inner table is also one of the outer table, under the same
    key. *)
Theorem nested_table_rows (inner outer : node) :
  In inner (descendants outer) ->
  incl (cols (parse_html_table inner)) (cols (parse_html_table outer))
  /\ incl (data (parse_html_table inner)) (data (parse_html_table outer)).
Proof.
  intros Hin. pose proof (find_all_nested "tr" inner outer Hin) as Hrows.
  unfold parse_html_table. rewrite !parse_rows_spec. simpl.
  split; intros row (r & <- & Hr)%in_map_iff; apply in_map;
    apply filter_In in Hr as [Hr Hs]; apply filter_In; auto.
Qed.

End NestingFacts.

(** ** [markdown_table] *)

Section MarkdownFacts.
Import StrFacts.

Lemma mapM_head_Some {A : Type} (d : A) (cs : list (list A)) :
  Forall (fun c => c <> []) cs -> mapM head cs = Some (map (fun c => nth 0 c d) cs).
Proof.
  induction 1 as [|c cs Hc _ IH]; [reflexivity |].
  destruct c as [|x c]; [contradiction |].
  cbn. rewrite IH. reflexivity.
Qed.

Lemma mapM_head_None {A : Type} (cs : list (list A)) :
  In [] cs -> mapM head cs = None.
Proof.
  induction cs as [|c cs IH]; [intros [] |].
  intros [-> | Hin]; [reflexivity |].
  cbn. destruct (head c); [| reflexivity]. cbn. now rewrite IH.
Qed.

Lemma min_len_0 {A : Type} (cs : list (list A)) :
  fold_right (fun c' n => Nat.min (length c') n) 0%nat cs = 0%nat.
Proof. induction cs as [|c cs IH]; simpl; [reflexivity | rewrite IH; lia]. Qed.

Lemma min_len_empty {A : Type} (n : nat) (cs : list (list A)) :
  In [] cs -> fold_right (fun c' n => Nat.min (length c') n) n cs = 0%nat.
Proof.
  induction cs as [|c cs IH]; [intros [] |].
  intros [-> | Hin]; simpl; [reflexivity | rewrite IH by exact Hin; lia].
Qed.

Lemma min_len_tail {A : Type} (n : nat) (cs : list (list A)) :
  Forall (fun c => c <> []) cs ->
  fold_right (fun c' n => Nat.min (length c') n) (S n) cs
  = S (fold_right (fun c' n => Nat.min (length c') n) n (map tail cs)).
Proof.
  induction 1 as [|c cs Hc _ IH]; [reflexivity |].
  destruct c as [|x c]; [contradiction |]. simpl. rewrite IH. reflexivity.
Qed.

Lemma empty_or_not {A : Type} (cs : list (list A)) :
  In [] cs \/ Forall (fun c => c <> []) cs.
Proof.
  induction cs as [|c cs [IH | IH]]; [right; constructor | left; now right |].
  destruct c as [|x c]; [left; now left | right].
  constructor; [discriminate | exact IH].
Qed.

(** The tuples of [zip]: as many as the shortest column has elements, the
    [j]-th made of the [j]-th element of each column. *)
Lemma zip_rows_nth {A : Type} (d : A) (c : list A) (cs : list (list A)) :
  zip_rows c cs
  = map (fun j => map (fun col => nth j col d) (c :: cs))
        (seq 0 (shortest (c :: cs))).
Proof.
  revert cs. induction c as [|x c IH]; intros cs.
  - cbn [zip_rows shortest length]. now rewrite min_len_0.
  - cbn [zip_rows shortest length].
    destruct (empty_or_not cs) as [Hin | Hne].
    + now rewrite (mapM_head_None cs Hin), (min_len_empty _ cs Hin).
    + rewrite (mapM_head_Some d cs Hne), (min_len_tail _ cs Hne).
      rewrite IH. cbn [seq map nth]. f_equal.
      rewrite <- seq_shift, map_map. apply map_ext. intros j.
      cbn [map nth shortest]. f_equal.
      rewrite map_map. apply map_ext. intros col.
      destruct col; [now destruct j | reflexivity].
Qed.

Lemma zip_star_nth {A : Type} (d : A) (columns : list (list A)) :
  zip_star columns
  = map (fun j => map (fun col => nth j col d) columns)
        (seq 0 (shortest columns)).
Proof. destruct columns as [|c cs]; [reflexivity | apply zip_rows_nth]. Qed.

Lemma fold_left_lines (f : list object -> string) (rows : list (list object))
      (result : string) :
  fold_left (fun result row => result +:+ (f row +:+ LF)) rows result
  = result +:+ unlines (map f rows).
Proof.
  revert result. induction rows as [|row rows IH]; intros result; simpl.
  - now rewrite append_empty_r.
  - rewrite IH. now rewrite !append_assoc.
Qed.

End MarkdownFacts.

Lemma markdown_table_unlines (data : list (string * list object))
        (title : string) :
  markdown_table data title
  = unlines
      (("## " +:+ title)
       :: join "|" (map fst data)
       :: join "|" (repeat "---" (length data))
       :: map (fun j =>
                 join "|" (map (fun col => str (nth j (snd col) (PyStr "")))
                               data))
              (seq 0 (shortest (map snd data)))).
Proof.
  unfold markdown_table. rewrite fold_left_lines.
  assert (Hrows : map (fun row => join "|" (map str row))
                      (zip_star (map snd data))
                  = map (fun j =>
                           join "|" (map (fun col =>
                                            str (nth j (snd col) (PyStr "")))
                                         data))
                        (seq 0 (shortest (map snd data)))).
  { rewrite (zip_star_nth (PyStr "")), map_map. apply map_ext. intros j.
    now rewrite !map_map. }
  rewrite Hrows, length_map. cbn [unlines fold_right].
  now rewrite !StrFacts.append_assoc.
Qed.

(** X10.  The text of [markdown_table]: the title line, the line of the
    column titles, a line with one [---] for each column, then one line for
    each position below the length of the shortest column, made of the
    values at that position; the values of the longer columns beyond it
    are left out, and without columns there is no row. *)
Theorem markdown_table_lines (data : list (string * list object))
        (title : string) :
  markdown_table data title
  = unlines
      (("## " +:+ title)
       :: join "|" (map fst data)
       :: join "|" (repeat "---" (length data))
       :: map (fun j =>
                 join "|" (map (fun col => str (nth j (snd col) (PyStr "")))
                               data))
              (seq 0 (shortest (map snd data)))).
Proof. apply markdown_table_unlines. Qed.

Section StatisticsFacts.
Context {F : Type} `{PyFloat F}.

Lemma zip_three {A B : Type} (f g h : A -> B) (l : list A) :
  zip_star [map f l; map g l; map h l] = map (fun a => [f a; g a; h a]) l.
Proof.
  unfold zip_star. induction l as [|a l IH]; [reflexivity |].
  cbn [map zip_rows]. cbn. f_equal. exact IH.
Qed.

(** X11.  The table [main] shows for a category has, below the title, the
    header and the separator, one line for each of the selected records, in
    their order: the description, the count and the rate with three
    decimals and a percent sign, separated by bars. *)
Theorem statistics_table_rows (selected_data : list (Information F))
        (info : string) :
  statistics_table selected_data info
  = unlines
      (("## " +:+ info) :: "Type|Number|Rate" :: "---|---|---"
       :: map (fun el =>
                 description el +:+ "|" +:+ py_str (number el) +:+ "|"
                 +:+ (fl_format3 (rate el) +:+ "%"))
              selected_data).
Proof.
  unfold statistics_table, markdown_table. rewrite fold_left_lines.
  cbn [map snd fst length repeat join]. rewrite zip_three, map_map.
  cbn [unlines fold_right map str join].
  now rewrite !StrFacts.append_assoc.
Qed.

End StatisticsFacts.

(** ** The evolution chart *)

Section EvolutionFacts.
Context {F : Type} `{PyFloat F}.

Lemma county_number_Ok (records : list (Information F)) (c : string) (n : Z) :
  county_number records c = Ok n ->
  exists el, In el records /\ is_county el = true /\ description el = c
             /\ number el = n.
Proof.
  unfold county_number.
  destruct (List.filter _ records) as [|el l] eqn:E; [discriminate |].
  simpl. intros [= <-].
  assert (Hin : In el (List.filter
                         (fun el => is_county el
                                    && String.eqb (description el) c)
                         records)) by (rewrite E; now left).
  apply filter_In in Hin as [Hin Hb]. apply andb_true_iff in Hb as [Hc Hd].
  apply String.eqb_eq in Hd. eauto.
Qed.





Lemma Forall2_In_right {A B : Type} (R : A -> B -> Prop) (l : list A)
      (l' : list B) (b : B) :
  Forall2 R l l' -> In b l' -> exists a, In a l /\ R a b.
Proof.
  induction 1 as [|x y l l' Hxy _ IH]; [intros [] |].
  intros [<- | Hin]; [exists x; split; [now left | exact Hxy] |].
  destruct (IH Hin) as (a & Ha & Hab). exists a. split; [now right | exact Hab].
Qed.

Lemma Forall2_with_Forall {A B : Type} (P : A -> Prop) (R R' : A -> B -> Prop)
      (l : list A) (l' : list B) :
  (forall a b, P a -> R a b -> R' a b) ->
  Forall P l -> Forall2 R l l' -> Forall2 R' l l'.
Proof.
  intros Himp HP HR. induction HR as [|x y l l' Hxy _ IH]; [constructor |].
  inversion HP; subst. constructor; auto.
Qed.

(** X13.  In the chart of snapshots that [load_file] returned, every value
    lies between zero and the county total of its snapshot, and every
    series has one value for each snapshot, in the order of the
    snapshots: the series of a county never runs above the series
    [Total]. *)
Theorem evolution_data_bounds
        (data : list (string * list (Information F)))
        (selected_counties : list string)
        (chart : list (string * list (string * Z)))
        (c : string) (series : list (string * Z)) :
  Forall (fun d => exists doc st, load_records doc st = Ok (snd d)) data ->
  evolution_data data selected_counties = Ok chart ->
  In (c, series) chart ->
  Forall2 (fun d e => fst e = fst d
                      /\ 0 <= snd e <= sum (county_numbers (snd d)))
          data series.
Proof.
  intros Hloaded Hchart Hin.
  assert (Hnn : Forall (fun d => Forall (fun n => 0 <= n)
                                        (county_numbers (snd d))) data).
  { revert Hloaded. apply List.Forall_impl. intros d (doc & st & Hd).
    apply county_numbers_nonneg. now apply (load_records_nonneg doc st). }
  destruct selected_counties as [|c0 sel].
  - injection Hchart as <-. destruct Hin as [[= <- <-] | []].
    induction Hnn as [|d data Hd _ IH]; simpl; constructor.
    + split; [reflexivity |].
      pose proof (Binary64Facts.Forall_sum_nonneg _ Hd). simpl. lia.
    + apply IH. now inversion Hloaded.
  - cbv beta iota delta [evolution_data] in Hchart.
    apply for_each_Ok in Hchart.
    destruct (Forall2_In_right _ _ _ _ Hchart Hin) as (c' & _ & Hc').
    destruct (for_each _ data) as [s|e] eqn:Es; [| discriminate].
    injection Hc' as -> ->.
    apply for_each_Ok in Es.
    revert Es. apply Forall2_with_Forall with (P := fun d =>
      Forall (fun n => 0 <= n) (county_numbers (snd d))); [| exact Hnn].
    intros d e Hd He.
    destruct (county_number (snd d) c) as [n|err] eqn:En; [| discriminate].
    injection He as <-. simpl. split; [reflexivity |].
    apply county_number_Ok in En as (el & Hel & Hc & _ & <-).
    apply Binary64Facts.Forall_le_sum in Hd.
    rewrite List.Forall_forall in Hd. apply Hd.
    unfold county_numbers. apply in_map. apply filter_In. auto.
Qed.

End EvolutionFacts.

(** ** [plot_map] *)

Section MaxFacts.

Lemma fold_max_ge (l : list Z) (x : Z) :
  x <= fold_left Z.max l x /\ Forall (fun n => n <= fold_left Z.max l x) l.
Proof.
  revert x. induction l as [|y l IH]; intros x; simpl.
  - split; [lia | constructor].
  - destruct (IH (Z.max x y)) as [H1 H2]. split; [lia |].
    constructor; [lia | exact H2].
Qed.

Lemma fold_max_In (l : list Z) (x : Z) :
  fold_left Z.max l x = x \/ In (fold_left Z.max l x) l.
Proof.
  revert x. induction l as [|y l IH]; intros x; simpl; [now left |].
  destruct (IH (Z.max x y)) as [Heq | Hin]; [| right; now right].
  rewrite Heq. destruct (Z.max_spec x y) as [[_ ->] | [_ ->]]; auto.
Qed.

(** [max] returns an element that no element exceeds. *)
Lemma py_max_spec (l : list Z) (m : Z) :
  py_max l = Ok m -> In m l /\ Forall (fun n => n <= m) l.
Proof.
  destruct l as [|x l]; [discriminate |]. simpl. intros [= <-].
  destruct (fold_max_ge l x) as [H1 H2].
  split; [| constructor; assumption].
  destruct (fold_max_In l x) as [-> | Hin]; [now left | now right].
Qed.

Lemma py_max_nonempty (l : list Z) :
  l <> [] -> exists m, py_max l = Ok m.
Proof. destruct l as [|x l]; [contradiction | simpl; eauto]. Qed.

End MaxFacts.

Section MapFacts.
Context {F : Type} `{PyFloatOps F}.

Lemma current_county_In (data : list (Information F)) (county : string)
      (c : Information F) :
  current_county data county = Ok c -> In c data /\ description c = county.
Proof.
  unfold current_county.
  destruct (List.filter _ data) as [|c' l] eqn:E; [discriminate |].
  intros [= <-].
  assert (Hin : In c' (List.filter
                         (fun c => String.eqb (description c) county) data))
    by (rewrite E; now left).
  apply filter_In in Hin as [Hin Heq]. split; [exact Hin |].
  now apply String.eqb_eq.
Qed.

Lemma current_county_missing (data : list (Information F)) (county : string) :
  (forall o, In o data -> description o <> county) ->
  current_county data county = Raise IndexError.
Proof.
  intros Hno. unfold current_county.
  destruct (List.filter _ data) as [|c l] eqn:E; [reflexivity |].
  assert (Hin : In c (List.filter
                        (fun c => String.eqb (description c) county) data))
    by (rewrite E; now left).
  apply filter_In in Hin as [Hin Heq]. apply String.eqb_eq in Heq.
  now destruct (Hno c Hin).
Qed.

Lemma current_county_found (data : list (Information F)) (county : string)
      (o : Information F) :
  In o data -> description o = county ->
  exists c, current_county data county = Ok c.
Proof.
  intros Hin Hd. unfold current_county.
  destruct (List.filter _ data) as [|c l] eqn:E; [| simpl; eauto].
  assert (Hf : In o (List.filter
                       (fun c => String.eqb (description c) county) data)).
  { apply filter_In. split; [exact Hin |]. now apply String.eqb_eq. }
  rewrite E in Hf. destruct Hf.
Qed.

Lemma Forall2_In_left {A B : Type} (R : A -> B -> Prop) (l : list A)
      (l' : list B) (a : A) :
  Forall2 R l l' -> In a l -> exists b, In b l' /\ R a b.
Proof.
  induction 1 as [|x y l l' Hxy _ IH]; [intros [] |].
  intros [<- | Hin]; [exists y; split; [now left | exact Hxy] |].
  destruct (IH Hin) as (b & Hb & Hab). exists b. split; [now right | exact Hab].
Qed.

(** The loop, read backwards from a figure it returned. *)
Lemma draw_counties_inv (settings : list (string * county_setting))
      (data : list (Information F)) (max_size : Z)
      (drawn0 drawn : list (artist F)) :
  draw_counties settings data max_size drawn0 = Return drawn ->
  exists steps : list (list (artist F)),
    Forall2 (drawn_for data max_size) settings steps
    /\ drawn = drawn0 ++ concat steps
    /\ (settings <> [] -> max_size <> 0).
Proof.
  revert drawn0. induction settings as [|[county setting] settings IH];
    intros drawn0; simpl.
  - intros [= <-]. exists []. split; [constructor |].
    split; [now rewrite app_nil_r | congruence].
  - destruct (current_county data county) as [c|e] eqn:Ec; [| discriminate].
    cbn [of_res fres_bind]. unfold int_truediv.
    destruct (Z.eqb_spec max_size 0) as [Hz | Hnz]; [discriminate |].
    destruct (fl_is_inf (fl_ratio (number c) max_size)); [discriminate |].
    cbn [fres_bind].
    destruct (rescale_patch_size (fl_ratio (number c) max_size)) as [r|e]
      eqn:Er; [| discriminate].
    cbn [fres_bind]. intros Hrest.
    apply IH in Hrest as (steps & Hsteps & -> & _).
    eexists (_ :: steps). split; [constructor; [| exact Hsteps] |].
    + exists c, r. split; [exact Ec |]. split; [exact Er | reflexivity].
    + split; [| intros _; exact Hnz].
      cbn [concat]. now rewrite <- app_assoc.
Qed.

(** X14.  A figure [plot_map] returns was drawn from data that hold a
    record for every county of [COUNTY_SETTINGS] and whose largest count is
    not zero; it holds, in the order of the settings, one circle and one
    text for each of these counties, both labelled with the count of the
    first record of that name.  So on data that lack one of the counties,
    or that are empty, [plot_map] raises. *)
Theorem plot_map_needs_every_county (data : list (Information F))
        (drawn : list (artist F)) :
  plot_map data = Return drawn ->
  (forall county, In county (map fst COUNTY_SETTINGS) ->
                  exists o, In o data /\ description o = county)
  /\ exists (max_size : Z) (steps : list (list (artist F))),
       py_max (map number data) = Ok max_size
       /\ max_size <> 0
       /\ Forall2 (drawn_for data max_size) COUNTY_SETTINGS steps
       /\ drawn = concat steps.
Proof.
  unfold plot_map.
  destruct (py_max (map number data)) as [max_size|e] eqn:Emax;
    [| discriminate].
  cbn [of_res fres_bind].
  intros (steps & Hsteps & Hdrawn & Hnz)%draw_counties_inv.
  split.
  - intros county (s & <- & Hs)%in_map_iff.
    destruct (Forall2_In_left _ _ _ _ Hsteps Hs)
      as (step & _ & c & r & Hc & _).
    apply current_county_In in Hc as [Hin Hd]. eauto.
  - exists max_size, steps. split; [reflexivity |].
    split; [apply Hnz; discriminate |]. split; [exact Hsteps | exact Hdrawn].
Qed.

(** The loop on data that satisfy the laws of the radius. *)
Lemma draw_counties_run `{!RescaleLaws F}
      (settings : list (string * county_setting))
      (data : list (Information F)) (max_size : Z)
      (drawn0 : list (artist F)) :
  0 < max_size < 2 ^ 1000 ->
  Forall (fun o => 0 <= number o <= max_size) data ->
  (Forall (fun s => exists o, In o data /\ description o = fst s) settings
   -> exists steps : list (list (artist F)),
        draw_counties settings data max_size drawn0
        = Return (drawn0 ++ concat steps)
        /\ Forall2 (drawn_for data max_size) settings steps
        /\ Forall (fun step =>
                     Forall (fun a => forall r, radius_of a = Some r ->
                                                5 <= r <= 155) step) steps)
  /\ (Exists (fun s => forall o, In o data -> description o <> fst s)
             settings
      -> draw_counties settings data max_size drawn0
         = Throw (Std IndexError)).
Proof.
  intros Hmax Hdata. revert drawn0.
  induction settings as [|[county setting] settings IH]; intros drawn0.
  - split.
    + intros _. exists []. simpl. rewrite app_nil_r.
      split; [reflexivity |]. split; constructor.
    + intros Hex. inversion Hex.
  - assert (Hstep : forall c, In c data ->
              exists r, fres_bind (int_truediv (number c) max_size)
                                  rescale_patch_size = Return r
                        /\ rescale_patch_size (fl_ratio (number c) max_size)
                           = Return r
                        /\ 5 <= r <= 155).
    { intros c Hin.
      rewrite List.Forall_forall in Hdata. specialize (Hdata c Hin).
      destruct (rescale_share (number c) max_size Hdata Hmax)
        as (Hinf & r & Hr & Hb & _).
      exists r. unfold int_truediv.
      destruct (Z.eqb_spec max_size 0) as [Hz | _]; [lia |].
      rewrite Hinf. cbn [fres_bind]. auto. }
    split.
    + intros Hall. inversion Hall as [|s l (o & Hin & Hd) Hrest]; subst.
      destruct (current_county_found data county o Hin Hd) as [c Hc].
      destruct (Hstep c (proj1 (current_county_In _ _ _ Hc)))
        as (r & Hrun & Hr & Hb).
      cbn [draw_counties]. rewrite Hc. cbn [of_res fres_bind].
      unfold int_truediv in *.
      destruct (Z.eqb_spec max_size 0) as [Hz | _]; [lia |].
      destruct (fl_is_inf (fl_ratio (number c) max_size));
        [discriminate |].
      cbn [fres_bind] in *. rewrite Hr. cbn [fres_bind].
      destruct (IH (drawn0 ++
                      [ add_patch {| xy := pos setting;
                                     radius := r;
                                     label := number c;
                                     patch_color := color setting;
                                     alpha := fl_ratio 7 10 |};
                        plt_text (fst (pos setting)) (snd (pos setting))
                                 (number c) ]))
        as [IHok _].
      destruct (IHok Hrest) as (steps & Hrun' & Hsteps & Hrad).
      eexists (_ :: steps). split; [| split].
      * rewrite Hrun'. cbn [concat]. now rewrite <- app_assoc.
      * constructor; [| exact Hsteps]. exists c, r. auto.
      * constructor; [| exact Hrad].
        constructor; [| constructor; [| constructor]].
        -- intros r' [= <-]. exact Hb.
        -- intros r' [=].
    + intros Hex. cbn [draw_counties].
      destruct (current_county data county) as [c|e] eqn:Ec.
      * destruct (Hstep c (proj1 (current_county_In _ _ _ Ec)))
          as (r & Hrun & Hr & Hb).
        cbn [of_res fres_bind]. unfold int_truediv in *.
        destruct (Z.eqb_spec max_size 0) as [Hz | _]; [lia |].
        destruct (fl_is_inf (fl_ratio (number c) max_size));
          [discriminate |].
        cbn [fres_bind] in *. rewrite Hr. cbn [fres_bind].
        apply IH. inversion Hex as [s l Hno | s l Hl]; subst; [| exact Hl].
        apply current_county_In in Ec as [Hin Hd].
        now destruct (Hno c Hin).
      * inversion Hex as [s l Hno | s l Hl]; subst.
        -- rewrite (current_county_missing data county Hno) in Ec.
           injection Ec as <-. reflexivity.
        -- unfold current_county in Ec.
           destruct (List.filter _ data); [| discriminate].
           injection Ec as <-. reflexivity.
Qed.

End MapFacts.

(** ** The radius in exact arithmetic *)

Module ExactOpsFacts.
Import ExactOps.

Lemma trunc_ge (v : Q) (k : Z) :
  0 <= k -> (inject_Z k <= v)%Q -> k <= Z.quot (Qnum v) (Z.pos (Qden v)).
Proof.
  intros Hk Hv. unfold Qle in Hv. simpl in Hv.
  rewrite Z.quot_div_nonneg by nia.
  apply Z.div_le_lower_bound; lia.
Qed.

Lemma trunc_le (v : Q) (k : Z) :
  (0 <= v)%Q -> (v <= inject_Z k)%Q -> Z.quot (Qnum v) (Z.pos (Qden v)) <= k.
Proof.
  intros H0 Hv. unfold Qle in H0, Hv. simpl in H0, Hv.
  rewrite Z.quot_div_nonneg by lia.
  apply Z.div_le_upper_bound; lia.
Qed.

Lemma rescale_exact (n m : Z) :
  0 <= n <= m -> 0 < m ->
  exists r : Z,
    rescale_patch_size (F := Q) (fl_ratio n m) = Return r
    /\ 5 <= r <= 155 /\ (n = 0 -> r = 5) /\ (n = m -> r = 155).
Proof.
  intros Hn Hm. eexists. split; [reflexivity |].
  set (v := fl_add (fl_mul (fl_ratio n m) (fl_of_int (snd MAP_PATCH_SIZE)))
                   (fl_of_int (fst MAP_PATCH_SIZE))).
  assert (Hv : (v == inject_Z 150 * (inject_Z n / inject_Z m) + inject_Z 5)%Q).
  { unfold v. simpl. field.
    intros Hq. unfold Qeq in Hq. simpl in Hq. lia. }
  assert (Hshare : (0 <= inject_Z n / inject_Z m <= 1)%Q).
  { assert (HM : (0 < inject_Z m)%Q).
    { change 0%Q with (inject_Z 0). rewrite <- Zlt_Qlt. lia. }
    split.
    - apply Qle_shift_div_l; [exact HM |]. rewrite Qmult_0_l.
      change 0%Q with (inject_Z 0). rewrite <- Zle_Qle. lia.
    - apply Qle_shift_div_r; [exact HM |]. rewrite Qmult_1_l.
      rewrite <- Zle_Qle. lia. }
  assert (Hlo : (inject_Z 5 <= v)%Q).
  { rewrite Hv. destruct Hshare as [H0 _].
    change (inject_Z 150) with (150 # 1)%Q. change (inject_Z 5) with (5 # 1)%Q.
    set (x := (inject_Z n / inject_Z m)%Q) in *. clearbody x. lra. }
  assert (Hhi : (v <= inject_Z 155)%Q).
  { rewrite Hv. destruct Hshare as [_ H1].
    change (inject_Z 150) with (150 # 1)%Q. change (inject_Z 5) with (5 # 1)%Q.
    change (inject_Z 155) with (155 # 1)%Q.
    set (x := (inject_Z n / inject_Z m)%Q) in *. clearbody x. lra. }
  change (fl_trunc v) with (Z.quot (Qnum v) (Z.pos (Qden v))).
  split; [split |]; [| | split].
  - apply trunc_ge; [lia | exact Hlo].
  - apply trunc_le; [| exact Hhi].
    apply Qle_trans with (inject_Z 5); [discriminate | exact Hlo].
  - intros ->. apply Z.le_antisymm.
    + apply trunc_le; [apply Qle_trans with (inject_Z 5);
                         [discriminate | exact Hlo] |].
      rewrite Hv. unfold Qdiv. rewrite Qmult_0_l, Qmult_0_r, Qplus_0_l.
      apply Qle_refl.
    + apply trunc_ge; [lia | exact Hlo].
  - intros ->. apply Z.le_antisymm.
    + apply trunc_le; [| exact Hhi].
      apply Qle_trans with (inject_Z 5); [discriminate | exact Hlo].
    + apply trunc_ge; [lia |]. rewrite Hv.
      assert (H1 : (inject_Z m / inject_Z m == 1)%Q).
      { field. intros Hq. unfold Qeq in Hq. simpl in Hq. lia. }
      rewrite H1. discriminate.
Qed.

#[global] Instance Q_rescale : RescaleLaws Q.
Proof.
  constructor. intros n m Hn Hm. split; [reflexivity |].
  apply rescale_exact; lia.
Qed.

End ExactOpsFacts.

(** ** Rounding and the integers *)

Module Binary64Integers.
Import Binary64 Binary64Facts.
Local Open Scope Q_scope.

(** An integer is a multiple of [2 ^ e] when [e] is not positive. *)
Lemma integer_on_grid (B e : Z) :
  (e <= 0)%Z -> inject_Z B == inject_Z (B * 2 ^ (- e)) * pow2 e.
Proof.
  intros He. rewrite inject_Z_mult, <- (pow2_Z (- e)) by lia.
  rewrite <- Qmult_assoc, <- pow2_add.
  replace (- e + e)%Z with 0%Z by lia. change (pow2 0) with 1. ring.
Qed.

(** [binary_round_aux] on a number below [2 ^ 53]: the result is a float of
    53 bits, and no integer lies strictly between the number and the
    result. *)
Lemma binary_round_aux_integers
      (sx : bool) (mx : positive) (ex : Z) (lx : location) (x : Q) :
  inbetween (Z.pos mx) lx x ->
  (53 <= Z.pos (digits2_pos mx))%Z ->
  (-1074 <= Z.pos (digits2_pos mx) + ex - 53)%Z ->
  (Z.pos (digits2_pos mx) + ex <= 53)%Z ->
  exists (m : positive) (e : Z),
    binary_round_aux prec emax sx (Z.pos mx) ex lx = S754_finite sx m e
    /\ (2 ^ 52 <= Z.pos m < 2 ^ 53)%Z
    /\ (Z.pos (digits2_pos mx) + ex - 53 <= e
        <= Z.pos (digits2_pos mx) + ex - 52)%Z
    /\ forall B : Z,
         (x * pow2 ex <= inject_Z B ->
          inject_Z (Z.pos m) * pow2 e <= inject_Z B)
         /\ (inject_Z B <= x * pow2 ex ->
             inject_Z B <= inject_Z (Z.pos m) * pow2 e).
Proof.
  intros Hx Hd Hnorm Hsmall.
  set (d := Z.pos (digits2_pos mx)) in *.
  set (n := (d - 53)%Z).
  set (e1 := (d + ex - 53)%Z).
  unfold binary_round_aux.
  assert (Hshr : shr_fexp prec emax (Z.pos mx) ex lx
                 = shr (shr_record_of_loc (Z.pos mx) lx) ex n).
  { unfold shr_fexp. cbn [Zdigits2]. fold d.
    rewrite fexp_normal by lia. f_equal. unfold n. lia. }
  rewrite Hshr.
  destruct (loc_of_record_of_loc (Z.pos mx) lx) as [Hloc Hm0].
  destruct (shr_inbetween (shr_record_of_loc (Z.pos mx) lx) ex n x)
    as (He1 & Hm1 & Hin1).
  { unfold n. lia. }
  { rewrite Hm0. lia. }
  { now rewrite Hloc, Hm0. }
  destruct (shr (shr_record_of_loc (Z.pos mx) lx) ex n) as [mrs1 e1'].
  simpl in He1, Hm1, Hin1. subst e1'. cbv beta iota.
  replace (ex + n)%Z with e1 by (unfold e1, n; lia).
  set (m1 := shr_m mrs1) in *. set (l1 := loc_of_shr_record mrs1) in *.
  set (y := x / pow2 n) in *.
  assert (Hy : y * pow2 n == x).
  { unfold y. field. pose proof (pow2_pos n). lra. }
  destruct (inbetween_bounds _ _ _ Hx) as [Hx1 Hx2].
  destruct (inbetween_bounds _ _ _ Hin1) as [Hy1 Hy2].
  destruct (shifted_bounds mx n m1 x y) as [Hm1b Hylo]; auto;
    [unfold n; lia | fold d; unfold n; lia |].
  destruct (round_nearest_even_near m1 l1 y Hin1) as (Hcase & Hr1 & Hr2).
  set (m2 := round_nearest_even m1 l1) in *.
  destruct (renormalise sx m2 e1) as (m & e & Hres & Hmb & Heb & Hval).
  { destruct Hcase as [-> | ->]; lia. }
  { unfold e1. lia. }
  exists m, e. split; [exact Hres |]. split; [exact Hmb |].
  split; [unfold e1 in Heb; lia |].
  assert (Hxe : x * pow2 ex == y * pow2 e1).
  { rewrite <- Hy. unfold e1. replace (d + ex - 53)%Z with (n + ex)%Z
      by (unfold n; lia).
    rewrite pow2_add. ring. }
  pose proof (pow2_pos e1) as Hc.
  intros B. rewrite Hval, Hxe, (integer_on_grid B e1) by (unfold e1; lia).
  set (k := (B * 2 ^ (- e1))%Z).
  split; intros Hle; apply Qmult_le_r in Hle; try exact Hc;
    apply Qmult_le_compat_r; try lra.
  - assert (Hq : inject_Z m2 < inject_Z (k + 1)).
    { rewrite inject_Z_plus. change (inject_Z 1) with 1. lra. }
    rewrite <- Zlt_Qlt in Hq. rewrite <- Zle_Qle. lia.
  - assert (Hq : inject_Z k < inject_Z (m2 + 1)).
    { rewrite inject_Z_plus. change (inject_Z 1) with 1. lra. }
    rewrite <- Zlt_Qlt in Hq. rewrite <- Zle_Qle. lia.
Qed.


(** *** The quotient of a count by a larger count *)

Lemma SFdiv_int_unit (a b : positive) :
  (Z.pos a <= Z.pos b)%Z -> (Z.pos b < 2 ^ 1000)%Z ->
  exists (m : positive) (e : Z),
    SFdiv prec emax (S754_finite false a 0) (S754_finite false b 0)
    = S754_finite false m e
    /\ (2 ^ 52 <= Z.pos m < 2 ^ 53)%Z
    /\ (-1052 <= e <= -51)%Z
    /\ inject_Z (Z.pos m) * pow2 e <= 1
    /\ (a = b -> inject_Z (Z.pos m) * pow2 e == 1).
Proof.
  intros Hab Hb.
  pose proof (digits2_bounds a) as [A1 A2].
  pose proof (digits2_bounds b) as [B1 B2].
  set (d1 := Z.pos (digits2_pos a)) in *.
  set (d2 := Z.pos (digits2_pos b)) in *.
  assert (Hd1 : (1 <= d1)%Z) by (unfold d1; lia).
  assert (Hd2 : (d2 <= 1000)%Z).
  { apply (digits2_range b 0 1000); [lia |]. split; [simpl; lia | exact Hb]. }
  assert (Hd12 : (d1 <= d2)%Z).
  { destruct (Z.lt_ge_cases d2 d1) as [Hlt | Hge]; [| exact Hge].
    assert (2 ^ d2 <= 2 ^ (d1 - 1))%Z by (apply Z.pow_le_mono_r; lia). lia. }
  set (s := (53 + d2 - d1)%Z).
  assert (Hs : (0 < s)%Z) by (unfold s; lia).
  set (P1 := (2 ^ (d1 - 1))%Z) in *. set (P2 := (2 ^ (d2 - 1))%Z) in *.
  assert (HP1 : (2 ^ d1 = 2 * P1)%Z).
  { unfold P1. replace d1 with (1 + (d1 - 1))%Z at 1 by lia.
    rewrite Z.pow_add_r by lia. reflexivity. }
  assert (HP2 : (2 ^ d2 = 2 * P2)%Z).
  { unfold P2. replace d2 with (1 + (d2 - 1))%Z at 1 by lia.
    rewrite Z.pow_add_r by lia. reflexivity. }
  assert (HS : (2 ^ s * P1 = 2 ^ 53 * P2)%Z).
  { unfold P1, P2. rewrite <- !Z.pow_add_r by lia. f_equal. unfold s. lia. }
  assert (HSpos : (0 < 2 ^ s)%Z) by (apply Z.pow_pos_nonneg; lia).
  rewrite HP1 in A2. rewrite HP2 in B2.
  cbn [SFdiv xorb]. unfold SFdiv_core_binary. cbn [Zdigits2].
  fold d1 d2. rewrite !Z.add_0_r.
  rewrite fexp_normal by lia.
  replace (Z.min (d1 - d2 - 53) (0 - 0))%Z with (- s)%Z by (unfold s; lia).
  replace (0 - 0 - - s)%Z with s by lia.
  destruct s as [|ps|ps] eqn:Es; try lia. rewrite <- Es in *.
  rewrite Z.shiftl_mul_pow2 by lia.
  pose proof (Z_div_mod (Z.pos a * 2 ^ s) (Z.pos b) ltac:(lia)) as Hdm.
  destruct (Z.div_eucl (Z.pos a * 2 ^ s) (Z.pos b)) as [q r].
  destruct Hdm as [Hq Hr].
  assert (Hlow : (2 ^ 52 * Z.pos b < Z.pos a * 2 ^ s)%Z).
  { assert (P1 * 2 ^ s <= Z.pos a * 2 ^ s)%Z
      by (apply Z.mul_le_mono_nonneg_r; lia).
    change (2 ^ 53)%Z with (2 * 2 ^ 52)%Z in HS. nia. }
  assert (Hhigh : (Z.pos a * 2 ^ s < 2 ^ 54 * Z.pos b)%Z).
  { assert (Z.pos a * 2 ^ s < (2 * P1) * 2 ^ s)%Z
      by (apply Z.mul_lt_mono_pos_r; lia).
    change (2 ^ 54)%Z with (2 * 2 ^ 53)%Z. nia. }
  assert (Hqb : (2 ^ 52 <= q < 2 ^ 54)%Z) by nia.
  destruct q as [|pq|pq]; try lia.
  pose proof (digits2_range pq 52 54 ltac:(lia) Hqb) as Hdq.
  destruct (binary_round_aux_integers false pq (- s)
              (new_location (Z.pos b) r)
              (inject_Z (Z.pos pq) + inject_Z r / inject_Z (Z.pos b)))
    as (m & e & Hres & Hm & He & Hint); try (unfold s in *; lia).
  { apply new_location_correct; lia. }
  exists m, e. split; [exact Hres |]. split; [exact Hm |].
  split; [unfold s in *; lia |].
  assert (Hval : (inject_Z (Z.pos pq) + inject_Z r / inject_Z (Z.pos b))
                 * pow2 (- s)
                 == inject_Z (Z.pos a) / inject_Z (Z.pos b)).
  { assert (HB : 0 < inject_Z (Z.pos b)) by reflexivity.
    assert (Hpp : pow2 (- s) * pow2 s == 1).
    { rewrite <- pow2_add. replace (- s + s)%Z with 0%Z by lia. reflexivity. }
    assert (Hqz : inject_Z (Z.pos a) * pow2 s
                  == inject_Z (Z.pos b) * inject_Z (Z.pos pq) + inject_Z r).
    { rewrite pow2_Z by lia.
      rewrite <- !inject_Z_mult, <- inject_Z_plus. now rewrite Hq. }
    pose proof (pow2_pos s) as Hsp. pose proof (pow2_pos (- s)) as Hsn.
    apply Qmult_inj_r with (z := pow2 s); [lra |].
    transitivity ((inject_Z (Z.pos b) * inject_Z (Z.pos pq) + inject_Z r)
                  / inject_Z (Z.pos b) * (pow2 (- s) * pow2 s)).
    - field. lra.
    - rewrite Hpp, <- Hqz. field. lra. }
  destruct (Hint 1%Z) as [Hup Hdown]. rewrite Hval in Hup, Hdown.
  assert (Hshare : inject_Z (Z.pos a) / inject_Z (Z.pos b) <= 1).
  { apply Qle_shift_div_r; [reflexivity |]. rewrite Qmult_1_l.
    now rewrite <- Zle_Qle. }
  split; [apply Hup, Hshare |].
  intros ->. apply Qle_antisym; [apply Hup, Hshare |].
  apply Hdown. apply Qle_shift_div_l; [reflexivity |]. rewrite Qmult_1_l.
  apply Qle_refl.
Qed.

(** *** A product below [2 ^ 53] *)

Lemma SFmul_integers (mx my : positive) (ex ey : Z) :
  (2 ^ 52 <= Z.pos mx < 2 ^ 53)%Z -> (2 ^ 52 <= Z.pos my < 2 ^ 53)%Z ->
  (-1126 <= ex + ey)%Z -> (ex + ey <= -53)%Z ->
  exists (m : positive) (e : Z),
    SFmul prec emax (S754_finite false mx ex) (S754_finite false my ey)
    = S754_finite false m e
    /\ (2 ^ 52 <= Z.pos m < 2 ^ 53)%Z
    /\ (ex + ey + 52 <= e)%Z
    /\ forall B : Z,
         ((inject_Z (Z.pos mx) * pow2 ex) * (inject_Z (Z.pos my) * pow2 ey)
          <= inject_Z B ->
          inject_Z (Z.pos m) * pow2 e <= inject_Z B)
         /\ (inject_Z B
             <= (inject_Z (Z.pos mx) * pow2 ex) * (inject_Z (Z.pos my) * pow2 ey)
             -> inject_Z B <= inject_Z (Z.pos m) * pow2 e).
Proof.
  intros Hx Hy Hlo Hhi. cbn [SFmul xorb].
  assert (Hprod : (2 ^ 104 <= Z.pos (mx * my) < 2 ^ 106)%Z).
  { rewrite Pos2Z.inj_mul.
    change (2 ^ 104)%Z with (2 ^ 52 * 2 ^ 52)%Z.
    change (2 ^ 106)%Z with (2 ^ 53 * 2 ^ 53)%Z. nia. }
  pose proof (digits2_range (mx * my) 104 106 ltac:(lia) Hprod) as Hd.
  destruct (binary_round_aux_integers false (mx * my) (ex + ey) loc_Exact
              (inject_Z (Z.pos (mx * my))))
    as (m & e & Hres & Hm & He & Hint); try lia.
  { simpl. reflexivity. }
  exists m, e. split; [exact Hres |]. split; [exact Hm |].
  split; [lia |].
  assert (Hval : inject_Z (Z.pos (mx * my)) * pow2 (ex + ey)
                 == (inject_Z (Z.pos mx) * pow2 ex)
                    * (inject_Z (Z.pos my) * pow2 ey)).
  { rewrite Pos2Z.inj_mul, inject_Z_mult, pow2_add. ring. }
  intros B. destruct (Hint B) as [Hup Hdown].
  rewrite Hval in Hup, Hdown. auto.
Qed.


(** *** A sum below [2 ^ 53] *)

Lemma iter_xO (m d : positive) :
  Z.pos (Pos.iter xO m d) = (Z.pos m * 2 ^ Z.pos d)%Z.
Proof.
  induction d as [|d IH] using Pos.peano_ind.
  - simpl. lia.
  - rewrite Pos.iter_succ, Pos2Z.inj_xO, IH, Pos2Z.inj_succ, Z.pow_succ_r;
      lia.
Qed.

(** Aligning a mantissa to an exponent that is not larger. *)
Lemma shl_align_le (mx : positive) (ex ez : Z) :
  (ez <= ex)%Z ->
  Z.pos (fst (shl_align mx ex ez)) = (Z.pos mx * 2 ^ (ex - ez))%Z.
Proof.
  intros Hle. unfold shl_align.
  destruct (ez - ex)%Z as [|p|p] eqn:E; try lia; cbn [fst].
  - replace (ex - ez)%Z with 0%Z by lia. simpl. lia.
  - rewrite iter_xO. f_equal. f_equal. lia.
Qed.

Lemma shl_align_ge (mx : positive) (ex ez : Z) :
  (ex <= ez)%Z -> shl_align mx ex ez = (mx, ex).
Proof.
  intros Hle. unfold shl_align.
  destruct (ez - ex)%Z as [|p|p] eqn:E; try lia; reflexivity.
Qed.

Lemma SFadd_integers (mx my : positive) (ex ey : Z) :
  (2 ^ 52 <= Z.pos mx < 2 ^ 53)%Z -> (2 ^ 52 <= Z.pos my < 2 ^ 53)%Z ->
  (-1074 <= ex <= -1)%Z -> (-1074 <= ey <= -1)%Z ->
  exists (m : positive) (e : Z),
    SFadd prec emax (S754_finite false mx ex) (S754_finite false my ey)
    = S754_finite false m e
    /\ (2 ^ 52 <= Z.pos m < 2 ^ 53)%Z
    /\ (e <= 1)%Z
    /\ forall B : Z,
         (inject_Z (Z.pos mx) * pow2 ex + inject_Z (Z.pos my) * pow2 ey
          <= inject_Z B ->
          inject_Z (Z.pos m) * pow2 e <= inject_Z B)
         /\ (inject_Z B
             <= inject_Z (Z.pos mx) * pow2 ex + inject_Z (Z.pos my) * pow2 ey
             -> inject_Z B <= inject_Z (Z.pos m) * pow2 e).
Proof.
  intros Hx Hy Hex Hey. cbn [SFadd]. set (ez := Z.min ex ey).
  assert (Hzx : (ez <= ex)%Z) by (unfold ez; lia).
  assert (Hzy : (ez <= ey)%Z) by (unfold ez; lia).
  pose proof (shl_align_le mx ex ez Hzx) as Ha.
  pose proof (shl_align_le my ey ez Hzy) as Hb.
  set (a := fst (shl_align mx ex ez)) in *.
  set (b := fst (shl_align my ey ez)) in *.
  cbn [cond_Zopp]. change (Z.pos a + Z.pos b)%Z with (Z.pos (a + b)).
  cbn [binary_normalize]. unfold binary_round.
  set (mz := (a + b)%positive).
  assert (HS : Z.pos mz = (Z.pos mx * 2 ^ (ex - ez)
                          + Z.pos my * 2 ^ (ey - ez))%Z).
  { unfold mz. rewrite Pos2Z.inj_add. lia. }
  assert (Hpx : (0 < 2 ^ (ex - ez))%Z) by (apply Z.pow_pos_nonneg; lia).
  assert (Hpy : (0 < 2 ^ (ey - ez))%Z) by (apply Z.pow_pos_nonneg; lia).
  assert (Hlow : (2 ^ (52 + (ex - ez)) <= Z.pos mz)%Z).
  { rewrite Z.pow_add_r by lia. nia. }
  assert (Hhigh : (Z.pos mz < 2 ^ (53 - ez))%Z).
  { assert (H1 : (2 ^ (ex - ez) <= 2 ^ (-1 - ez))%Z)
      by (apply Z.pow_le_mono_r; lia).
    assert (H2 : (2 ^ (ey - ez) <= 2 ^ (-1 - ez))%Z)
      by (apply Z.pow_le_mono_r; lia).
    replace (53 - ez)%Z with (53 + 1 + (-1 - ez))%Z by lia.
    rewrite Z.pow_add_r by lia.
    change (2 ^ (53 + 1))%Z with (2 * 2 ^ 53)%Z.
    assert (0 < 2 ^ (-1 - ez))%Z by (apply Z.pow_pos_nonneg; lia). nia. }
  pose proof (digits2_range mz (52 + (ex - ez)) (53 - ez) ltac:(lia)
                            (conj Hlow Hhigh)) as Hd.
  set (d := Z.pos (digits2_pos mz)) in *.
  rewrite fexp_normal by lia.
  rewrite shl_align_ge by lia.
  destruct (binary_round_aux_integers false mz ez loc_Exact
              (inject_Z (Z.pos mz)))
    as (m & e & Hres & Hm & He & Hint); try (fold d; lia).
  { simpl. reflexivity. }
  fold d in He.
  exists m, e. split; [exact Hres |]. split; [exact Hm |].
  split; [lia |].
  assert (Hval : inject_Z (Z.pos mz) * pow2 ez
                 == inject_Z (Z.pos mx) * pow2 ex
                    + inject_Z (Z.pos my) * pow2 ey).
  { rewrite HS, inject_Z_plus, !inject_Z_mult.
    rewrite <- !pow2_Z by lia.
    replace ex with ((ex - ez) + ez)%Z at 2 by lia.
    replace ey with ((ey - ez) + ez)%Z at 2 by lia.
    rewrite !pow2_add. ring. }
  intros B. destruct (Hint B) as [Hup Hdown].
  rewrite Hval in Hup, Hdown. auto.
Qed.

(** *** The integer part *)

Lemma trunc_integers (m : positive) (e B : Z) :
  (e <= 0)%Z ->
  (inject_Z B <= inject_Z (Z.pos m) * pow2 e ->
   (B <= Binary64Ops.trunc (S754_finite false m e))%Z)
  /\ (inject_Z (Z.pos m) * pow2 e <= inject_Z B ->
      (Binary64Ops.trunc (S754_finite false m e) <= B)%Z).
Proof.
  intros He. cbn [Binary64Ops.trunc cond_Zopp].
  rewrite Z.shiftl_div_pow2 by lia.
  assert (Hp : (0 < 2 ^ (- e))%Z) by (apply Z.pow_pos_nonneg; lia).
  assert (Hg : forall k : Z,
             inject_Z k * pow2 (- e) == inject_Z (k * 2 ^ (- e))).
  { intros k. rewrite inject_Z_mult, pow2_Z by lia. reflexivity. }
  assert (Hpp : pow2 e * pow2 (- e) == 1).
  { rewrite <- pow2_add. replace (e + - e)%Z with 0%Z by lia. reflexivity. }
  pose proof (pow2_pos (- e)) as Hc.
  split; intros Hle; apply (Qmult_le_compat_r _ _ (pow2 (- e))) in Hle;
    try lra; rewrite <- Qmult_assoc, Hpp, Qmult_1_r, Hg in Hle;
    rewrite <- Zle_Qle in Hle.
  - apply Z.div_le_lower_bound; lia.
  - apply Z.div_le_upper_bound; lia.
Qed.


(** *** The radius of a share *)

Lemma pow2_le_mono (a b : Z) : (a <= b)%Z -> pow2 a <= pow2 b.
Proof.
  intros Hab. replace b with (a + (b - a))%Z by lia.
  rewrite pow2_add, (pow2_Z (b - a)) by lia.
  pose proof (pow2_pos a) as Ha.
  assert (H1 : 1 <= inject_Z (2 ^ (b - a))).
  { change 1 with (inject_Z 1). rewrite <- Zle_Qle.
    assert (0 < 2 ^ (b - a))%Z by (apply Z.pow_pos_nonneg; lia). lia. }
  rewrite <- (Qmult_1_r (pow2 a)) at 1.
  apply Qmult_le_l; [exact Ha | exact H1].
Qed.

(** A float of 53 bits that is below 256 has an exponent of -45 at most. *)
Lemma small_exponent (m : positive) (e : Z) :
  (2 ^ 52 <= Z.pos m)%Z -> inject_Z (Z.pos m) * pow2 e <= inject_Z 255 ->
  (e <= -45)%Z.
Proof.
  intros Hm Hv. destruct (Z.le_gt_cases e (-45)) as [Hle | Hgt]; [exact Hle |].
  exfalso.
  assert (H1 : pow2 (-44) <= pow2 e) by (apply pow2_le_mono; lia).
  assert (H2 : inject_Z (2 ^ 52) <= inject_Z (Z.pos m))
    by now rewrite <- Zle_Qle.
  assert (H3 : inject_Z (2 ^ 52) * pow2 (-44) <= inject_Z (Z.pos m) * pow2 e).
  { apply Qle_trans with (inject_Z (Z.pos m) * pow2 (-44)).
    - apply Qmult_le_compat_r; [exact H2 |]. pose proof (pow2_pos (-44)). lra.
    - apply Qmult_le_l; [reflexivity | exact H1]. }
  assert (H4 : inject_Z (2 ^ 52) * pow2 (-44) == inject_Z 256) by reflexivity.
  rewrite H4 in H3.
  assert (H5 : inject_Z 256 <= inject_Z 255) by (eapply Qle_trans; eauto).
  rewrite <- Zle_Qle in H5. lia.
Qed.

Lemma hundred_fifty :
  fl_of_int 150 = S754_finite false 5277655813324800 (-45).
Proof. reflexivity. Qed.

Lemma five : fl_of_int 5 = S754_finite false 5629499534213120 (-50).
Proof. reflexivity. Qed.

Lemma rescale_binary64 (n m : Z) :
  (0 <= n <= m)%Z -> (0 < m < 2 ^ 1000)%Z ->
  fl_is_inf (fl_ratio n m) = false
  /\ exists r : Z,
       rescale_patch_size (F := spec_float) (fl_ratio n m) = Return r
       /\ (5 <= r <= 155)%Z /\ (n = 0%Z -> r = 5%Z) /\ (n = m -> r = 155%Z).
Proof.
  intros Hn Hm. destruct m as [|b|b]; try lia.
  destruct n as [|a|a]; try lia.
  - split; [reflexivity |]. exists 5%Z.
    split; [reflexivity |]. split; [lia |]. split; [reflexivity | discriminate].
  - unfold rescale_patch_size. cbn [MAP_PATCH_SIZE fst snd].
    rewrite hundred_fifty, five.
    cbn [fl_ratio fl_mul fl_add b64_float Binary64Ops.b64_ops of_int].
    destruct (SFdiv_int_unit a b) as (m1 & e1 & -> & Hm1 & He1 & Hv1 & Hone);
      try lia.
    split; [reflexivity |].
    assert (H150 : inject_Z (Z.pos 5277655813324800) * pow2 (-45)
                   == inject_Z 150) by reflexivity.
    assert (H5 : inject_Z (Z.pos 5629499534213120) * pow2 (-50)
                 == inject_Z 5) by reflexivity.
    destruct (SFmul_integers m1 5277655813324800 e1 (-45))
      as (m2 & e2 & -> & Hm2 & He2 & Hint2); try lia.
    set (v1 := inject_Z (Z.pos m1) * pow2 e1) in *.
    assert (Hv1pos : 0 < v1).
    { unfold v1. apply Qmult_lt_0_compat; [reflexivity | apply pow2_pos]. }
    assert (Hv2 : inject_Z (Z.pos m2) * pow2 e2 <= inject_Z 150).
    { apply (Hint2 150%Z). rewrite H150.
      change (inject_Z 150) with (150 # 1). clearbody v1. lra. }
    assert (He2' : (e2 <= -45)%Z).
    { apply (small_exponent m2); [lia |].
      eapply Qle_trans; [exact Hv2 |]. now rewrite <- Zle_Qle. }
    destruct (SFadd_integers m2 5629499534213120 e2 (-50))
      as (m3 & e3 & Hadd & Hm3 & _ & Hint3); try lia.
    set (v2 := inject_Z (Z.pos m2) * pow2 e2) in *.
    assert (Hv2pos : 0 < v2).
    { unfold v2. apply Qmult_lt_0_compat; [reflexivity | apply pow2_pos]. }
    assert (Hlo : inject_Z 5 <= inject_Z (Z.pos m3) * pow2 e3).
    { apply (Hint3 5%Z). rewrite H5.
      change (inject_Z 5) with (5 # 1). clearbody v2. lra. }
    assert (Hhi : inject_Z (Z.pos m3) * pow2 e3 <= inject_Z 155).
    { apply (Hint3 155%Z). rewrite H5.
      change (inject_Z 5) with (5 # 1). change (inject_Z 155) with (155 # 1).
      change (inject_Z 150) with (150 # 1) in Hv2. clearbody v2. lra. }
    assert (He3 : (e3 <= -45)%Z).
    { apply (small_exponent m3); [lia |].
      eapply Qle_trans; [exact Hhi |]. now rewrite <- Zle_Qle. }
    exists (Binary64Ops.trunc (S754_finite false m3 e3)).
    unfold int_of_float. rewrite Hadd.
    cbn [fl_is_nan fl_is_inf fl_trunc Binary64Ops.b64_ops Binary64Ops.is_nan
         Binary64Ops.is_inf].
    split; [reflexivity |].
    destruct (trunc_integers m3 e3 5 ltac:(lia)) as [T5 _].
    destruct (trunc_integers m3 e3 155 ltac:(lia)) as [T155lo T155].
    split; [split; [apply T5, Hlo | apply T155, Hhi] |].
    split; [discriminate |].
    intros [= ->]. specialize (Hone eq_refl).
    assert (Hv2' : inject_Z 150 <= v2).
    { apply (Hint2 150%Z). rewrite H150.
      change (inject_Z 150) with (150 # 1). clearbody v1. lra. }
    assert (Hv3' : inject_Z 155 <= inject_Z (Z.pos m3) * pow2 e3).
    { apply (Hint3 155%Z). rewrite H5.
      change (inject_Z 5) with (5 # 1). change (inject_Z 155) with (155 # 1).
      change (inject_Z 150) with (150 # 1) in Hv2'. clearbody v2. lra. }
    apply Z.le_antisymm; [apply T155, Hhi | apply T155lo, Hv3'].
Qed.

#[global] Instance b64_rescale : RescaleLaws spec_float.
Proof. constructor. apply rescale_binary64. Qed.

End Binary64Integers.

(** X15.  In binary64, the arithmetic of the program, [rescale_patch_size]
    on the share of a count in a positive count that is not smaller
    returns a radius from 5 to 155, and never raises: 5 for the count 0
    and 155 for the largest count itself.  This holds for every largest
    count below [2 ^ 1000]: each of the three roundings keeps the result
    on the same side of every integer. *)
Theorem rescale_patch_size_range (n m : Z) :
  0 <= n <= m -> 0 < m < 2 ^ 1000 ->
  exists r : Z,
    rescale_patch_size (F := spec_float) (fl_ratio n m) = Return r
    /\ 5 <= r <= 155 /\ (n = 0 -> r = 5) /\ (n = m -> r = 155).
Proof.
  intros Hn Hm.
  exact (proj2 (Binary64Integers.rescale_binary64 n m Hn Hm)).
Qed.

(** ** The map of a loaded snapshot *)

Section LoadedMapFacts.
Context {F : Type} `{PyFloatOps F} `{!RescaleLaws F}.

Lemma has_county_true (data : list (Information F)) (county : string) :
  has_county data county = true
  <-> exists o, In o data /\ description o = county.
Proof.
  unfold has_county. rewrite existsb_exists.
  split; intros (o & Hin & Hd); exists o; (split; [exact Hin |]);
    now apply String.eqb_eq.
Qed.

Lemma has_counties_true (data : list (Information F))
      (settings : list (string * county_setting)) :
  forallb (fun s => has_county data (fst s)) settings = true ->
  Forall (fun s => exists o, In o data /\ description o = fst s) settings.
Proof.
  intros Hall. apply List.Forall_forall. intros s Hs.
  apply has_county_true. rewrite forallb_forall in Hall. now apply Hall.
Qed.

Lemma has_counties_false (data : list (Information F))
      (settings : list (string * county_setting)) :
  forallb (fun s => has_county data (fst s)) settings = false ->
  Exists (fun s => forall o, In o data -> description o <> fst s) settings.
Proof.
  induction settings as [|s settings IH]; simpl; [discriminate |].
  destruct (has_county data (fst s)) eqn:Es; simpl.
  - intros Hrest. right. now apply IH.
  - intros _. left. intros o Hin Hd.
    assert (Ht : has_county data (fst s) = true)
      by (apply has_county_true; eauto).
    congruence.
Qed.

Lemma sum_nonpos (ns : list Z) :
  Forall (fun n => n <= 0) ns -> sum ns <= 0.
Proof.
  induction 1 as [|n ns Hn _ IH].
  - unfold sum. simpl. lia.
  - rewrite FloatFacts.sum_cons. lia.
Qed.

(** The largest county count of a loaded snapshot that has county
    records. *)
Lemma loaded_max_size (doc : node) (st : state F)
      (out : list (Information F)) :
  load_records doc st = Ok out ->
  sum (county_numbers out) < 2 ^ 1000 ->
  selected_data out <> [] ->
  exists max_size : Z,
    py_max (map number (selected_data out)) = Ok max_size
    /\ 0 < max_size < 2 ^ 1000
    /\ Forall (fun o => 0 <= number o <= max_size) (selected_data out).
Proof.
  intros Hload Hbound Hne.
  pose proof (load_records_nonneg doc st out Hload) as Hnn.
  apply county_numbers_nonneg in Hnn.
  apply load_records_inv in Hload as (recs & _ & Hpass).
  apply rate_pass_inv in Hpass as [-> Hnz].
  rewrite county_numbers_rate in Hnn, Hbound.
  assert (Hsel : map number
                     (selected_data
                        (map (county_rate (sum (county_numbers recs))) recs))
                 = county_numbers recs).
  { unfold selected_data. fold (county_numbers
      (map (county_rate (sum (county_numbers recs))) recs)).
    apply county_numbers_rate. }
  assert (Hex : existsb is_county recs = true).
  { destruct (existsb is_county recs) eqn:E; [reflexivity |].
    exfalso. apply Hne. unfold selected_data.
    rewrite filter_county_rate.
    apply existsb_filter_nil in E. now rewrite E. }
  specialize (Hnz Hex).
  destruct (py_max_nonempty (county_numbers recs)) as [mx Hmx].
  { intros Hnil. apply Hnz. rewrite Hnil. reflexivity. }
  destruct (py_max_spec _ _ Hmx) as [Hin Hle].
  pose proof (Binary64Facts.Forall_le_sum _ Hnn) as Hsum.
  rewrite List.Forall_forall in Hsum. specialize (Hsum mx Hin).
  assert (Hpos : 0 < mx).
  { destruct (Z.lt_ge_cases 0 mx) as [Hlt | Hge]; [exact Hlt |].
    exfalso. apply Hnz.
    assert (Hup : sum (county_numbers recs) <= 0).
    { apply sum_nonpos. revert Hle. apply List.Forall_impl. lia. }
    pose proof (Binary64Facts.Forall_sum_nonneg _ Hnn). lia. }
  exists mx. rewrite Hsel. split; [exact Hmx |]. split; [lia |].
  assert (Hboth : Forall (fun n => 0 <= n <= mx) (county_numbers recs)).
  { apply List.Forall_forall. intros n Hn.
    rewrite List.Forall_forall in Hnn, Hle. split; [now apply Hnn | now apply Hle]. }
  rewrite <- Hsel in Hboth. now apply Forall_map in Hboth.
Qed.

Lemma drawn_for_length (data : list (Information F)) (max_size : Z)
      (settings : list (string * county_setting))
      (steps : list (list (artist F))) :
  Forall2 (drawn_for data max_size) settings steps ->
  length (concat steps) = (2 * length settings)%nat.
Proof.
  induction 1 as [|s step settings steps (c & r & _ & _ & ->) _ IH];
    [reflexivity |].
  cbn [concat]. rewrite length_app, IH. simpl. lia.
Qed.

(** X16.  The map [main] draws from a loaded snapshot.  On the county
    records of the snapshot [plot_map] raises [ValueError] when there is
    none and [IndexError] when one of the counties of [COUNTY_SETTINGS] has
    no record; otherwise it returns the circles and the texts of the 23
    counties, every radius from 5 to 155.  It raises no
    [ZeroDivisionError] and no [OverflowError], the loader having checked
    the county total. *)
Theorem plot_map_of_loaded (doc : node) (st : state F)
        (out : list (Information F)) :
  load_records doc st = Ok out ->
  sum (county_numbers out) < 2 ^ 1000 ->
  (selected_data out = [] ->
   plot_map (selected_data out) = Throw (Std ValueError))
  /\ (selected_data out <> [] ->
      has_every_county (selected_data out) = false ->
      plot_map (selected_data out) = Throw (Std IndexError))
  /\ (has_every_county (selected_data out) = true ->
      exists drawn : list (artist F),
        plot_map (selected_data out) = Return drawn
        /\ length drawn = 46%nat
        /\ Forall (fun a => forall r, radius_of a = Some r -> 5 <= r <= 155)
                  drawn).
Proof.
  intros Hload Hbound.
  assert (Hrun : selected_data out <> [] ->
                 exists max_size,
                   plot_map (selected_data out)
                   = draw_counties COUNTY_SETTINGS (selected_data out)
                                   max_size []
                   /\ 0 < max_size < 2 ^ 1000
                   /\ Forall (fun o => 0 <= number o <= max_size)
                             (selected_data out)).
  { intros Hne.
    destruct (loaded_max_size doc st out Hload Hbound Hne)
      as (mx & Hmx & Hb & Hall).
    exists mx. unfold plot_map. rewrite Hmx. auto. }
  split; [| split].
  - intros ->. reflexivity.
  - intros Hne Hmiss. destruct (Hrun Hne) as (mx & -> & Hb & Hall).
    apply (draw_counties_run COUNTY_SETTINGS _ mx [] Hb Hall).
    now apply has_counties_false.
  - intros Hevery.
    assert (Hne : selected_data out <> []).
    { intros Hnil. rewrite Hnil in Hevery. discriminate. }
    destruct (Hrun Hne) as (mx & -> & Hb & Hall).
    destruct (proj1 (draw_counties_run COUNTY_SETTINGS _ mx [] Hb Hall)
                    (has_counties_true _ _ Hevery))
      as (steps & -> & Hsteps & Hrad).
    eexists. split; [reflexivity |]. cbn [app]. split.
    + now rewrite (drawn_for_length _ _ _ _ Hsteps).
    + apply Forall_concat. exact Hrad.
Qed.

End LoadedMapFacts.

(** ** Dictionaries *)

Section DictFacts.
Context {V : Type}.

Lemma dict_get_In (d : list (string * V)) (k : string) (v : V) :
  dict_get d k = Some v -> In (k, v) d.
Proof.
  induction d as [|[k' v'] d IH]; simpl; [discriminate |].
  destruct (String.eqb_spec k' k) as [-> | Hne].
  - intros [= ->]. now left.
  - intros Hd. right. now apply IH.
Qed.

Lemma dict_get_key (d : list (string * V)) (k : string) :
  In k (map fst d) -> exists v, dict_get d k = Some v.
Proof.
  induction d as [|[k' v'] d IH]; simpl; [intros [] |].
  destruct (String.eqb_spec k' k) as [-> | Hne]; [eauto |].
  intros [Heq | Hin]; [contradiction | now apply IH].
Qed.

Lemma dict_get_None (d : list (string * V)) (k : string) :
  ~ In k (map fst d) -> dict_get d k = None.
Proof.
  intros Hno. destruct (dict_get d k) as [v|] eqn:E; [| reflexivity].
  exfalso. apply Hno. apply dict_get_In in E.
  now apply (in_map fst) in E.
Qed.

Lemma dict_set_keys (d : list (string * V)) (k : string) (v : V) :
  map fst (dict_set d k v)
  = if existsb (String.eqb k) (map fst d) then map fst d
    else map fst d ++ [k].
Proof.
  induction d as [|[k' v'] d IH]; simpl; [reflexivity |].
  rewrite (String.eqb_sym k k').
  destruct (String.eqb k' k); simpl; [reflexivity |].
  rewrite IH. now destruct (existsb _ _).
Qed.

Lemma existsb_eqb_In (k : string) (l : list string) :
  existsb (String.eqb k) l = true <-> In k l.
Proof.
  rewrite existsb_exists. split.
  - intros (x & Hx & Heq). apply String.eqb_eq in Heq. now subst.
  - intros Hin. exists k. split; [exact Hin | apply String.eqb_refl].
Qed.

Lemma NoDup_snoc (l : list string) (k : string) :
  NoDup l -> ~ In k l -> NoDup (l ++ [k]).
Proof.
  intros Hnd Hno. apply NoDup_app.
  split; [exact Hnd |]. split; [| apply NoDup_singleton].
  intros x Hx Hk. apply list_elem_of_In in Hx, Hk.
  destruct Hk as [<- | []]. contradiction.
Qed.

Lemma dict_set_NoDup (d : list (string * V)) (k : string) (v : V) :
  NoDup (map fst d) -> NoDup (map fst (dict_set d k v)).
Proof.
  intros Hnd. rewrite dict_set_keys.
  destruct (existsb (String.eqb k) (map fst d)) eqn:E; [exact Hnd |].
  apply NoDup_snoc; [exact Hnd |].
  intros Hin. apply existsb_eqb_In in Hin. congruence.
Qed.

Lemma dict_set_In_keys (d : list (string * V)) (k k' : string) (v : V) :
  In k' (map fst (dict_set d k v)) <-> k' = k \/ In k' (map fst d).
Proof.
  rewrite dict_set_keys.
  destruct (existsb (String.eqb k) (map fst d)) eqn:E.
  - apply existsb_eqb_In in E. split; [auto | intros [-> | Hin]; auto].
  - rewrite in_app_iff. simpl. split; [intros [Hin | [-> | []]]; auto |].
    intros [-> | Hin]; auto.
Qed.

(** Reading after writing. *)
Lemma dict_get_set (d : list (string * V)) (k k' : string) (v : V) :
  dict_get (dict_set d k v) k'
  = if String.eqb k k' then Some v else dict_get d k'.
Proof.
  induction d as [|[k0 v0] d IH]; simpl; [reflexivity |].
  destruct (String.eqb_spec k0 k) as [-> | Hne]; simpl.
  - destruct (String.eqb k k'); reflexivity.
  - rewrite IH. destruct (String.eqb_spec k0 k') as [-> | Hne'];
      [| reflexivity].
    destruct (String.eqb_spec k k') as [-> | _]; [contradiction | reflexivity].
Qed.

Lemma fold_dict_set (items : list (string * V)) (d : list (string * V)) :
  let d' := fold_left (fun d kv => dict_set d (fst kv) (snd kv)) items d in
  (NoDup (map fst d) -> NoDup (map fst d'))
  /\ (forall k, In k (map fst d') <-> In k (map fst d) \/ In k (map fst items))
  /\ (forall k, dict_get d' k
                = match dict_get (rev items) k with
                  | Some v => Some v
                  | None => dict_get d k
                  end).
Proof.
  revert d. induction items as [|[k0 v0] items IH]; intros d; simpl.
  - split; [auto |]. split; [tauto | reflexivity].
  - destruct (IH (dict_set d k0 v0)) as (H1 & H2 & H3).
    split; [intros Hnd; apply H1; now apply dict_set_NoDup |].
    split.
    + intros k. rewrite H2, dict_set_In_keys.
      split; [intros [[-> | Hd] | Hi] | intros [Hd | [<- | Hi]]]; auto.
    + intros k. rewrite H3, dict_get_set.
      assert (Happ : dict_get (rev items ++ [(k0, v0)]) k
                     = match dict_get (rev items) k with
                       | Some v => Some v
                       | None => if String.eqb k0 k then Some v0 else None
                       end).
      { generalize (rev items). intros l.
        induction l as [|[k1 v1] l IHl]; simpl; [reflexivity |].
        destruct (String.eqb k1 k); [reflexivity | exact IHl]. }
      rewrite Happ.
      destruct (dict_get (rev items) k); [reflexivity |].
      now destruct (String.eqb k0 k).
Qed.

End DictFacts.

(** ** The cache of [load_file] *)

Section CacheFacts.
Context {F : Type} `{PyFloat F}.

Lemma dict_get_app {V : Type} (d d' : list (string * V)) (k : string) :
  dict_get (d ++ d') k
  = match dict_get d k with
    | Some v => Some v
    | None => dict_get d' k
    end.
Proof.
  induction d as [|[k0 v0] d IH]; simpl; [reflexivity |].
  destruct (String.eqb k0 k); [reflexivity | exact IH].
Qed.

Lemma cache_inv_empty : cache_inv (F := F) [] empty_session.
Proof.
  split; [| split].
  - intros file_name. simpl. tauto.
  - intros file_name result. simpl. discriminate.
  - intros name name' result result' a _. simpl. discriminate.
Qed.

(** The objects of a list that is kept are distinct, exist, and are as the
    run of the body that made them left them. *)
Lemma cache_inv_kept (calls : list (string * node)) (s : session F)
      (file_name : string) (result : list nat) :
  cache_inv calls s ->
  dict_get (cache s) file_name = Some result ->
  NoDup result
  /\ Forall (fun a => (a < next (objects s))%nat) result
  /\ exists first_content,
       dict_get calls file_name = Some first_content
       /\ forall st,
            load_records first_content st
            = Ok (map (store (objects s)) result).
Proof.
  intros (_ & I2 & _) Hget.
  destruct (I2 file_name result Hget)
    as (doc0 & st0 & st1 & Hfirst & Hload & Hle & Hsame).
  destruct (load_file_frame _ _ _ _ Hload) as (n & -> & Hnext & _).
  split; [apply NoDup_seq |]. split.
  - apply List.Forall_forall. intros a Ha%in_seq. lia.
  - exists doc0. split; [exact Hfirst |]. intros st.
    transitivity (load_records doc0 st0).
    + now rewrite !load_records_spec, !built_records_spec.
    + unfold load_records. rewrite Hload. f_equal.
      apply map_ext_in. intros a Ha%in_seq. symmetry. apply Hsame. lia.
Qed.

(** One call. *)
Lemma load_file_cached_step (calls : list (string * node)) (s s' : session F)
      (file_name : string) (file_content : node) (result : list nat) :
  cache_inv calls s ->
  load_file_cached file_name file_content s = Ok (result, s') ->
  cache_inv (calls ++ [(file_name, file_content)]) s'
  /\ dict_get (cache s') file_name = Some result
  /\ (forall k r, dict_get (cache s) k = Some r ->
                  dict_get (cache s') k = Some r).
Proof.
  intros Hinv Hcall. pose proof Hinv as (I1 & I2 & I3).
  unfold load_file_cached in Hcall.
  destruct (dict_get (cache s) file_name) as [cached|] eqn:Ec.
  - injection Hcall as <- <-.
    assert (Hsame : forall k,
               dict_get (calls ++ [(file_name, file_content)]) k
               = dict_get calls k).
    { intros k. rewrite dict_get_app.
      destruct (dict_get calls k) eqn:E; [reflexivity |]. simpl.
      destruct (String.eqb_spec file_name k) as [-> | _]; [| reflexivity].
      apply I1 in E. congruence. }
    split; [| split; [exact Ec | auto]].
    split; [| split; [| exact I3]].
    + intros k. rewrite Hsame. apply I1.
    + intros k r Hk. destruct (I2 k r Hk) as (d0 & st0 & st1 & Hd & Hrest).
      exists d0, st0, st1. rewrite Hsame. auto.
  - destruct (load_file file_content (objects s)) as [[r st]|e] eqn:El;
      [| discriminate].
    injection Hcall as <- <-.
    destruct (load_file_frame _ _ _ _ El) as (n & Hres & Hnext & Hold).
    assert (Hnone : dict_get calls file_name = None) by now apply I1.
    assert (Hcalls : forall k,
               dict_get (calls ++ [(file_name, file_content)]) k
               = if String.eqb file_name k then Some file_content
                 else dict_get calls k).
    { intros k. rewrite dict_get_app. simpl.
      destruct (String.eqb_spec file_name k) as [<- | Hne].
      - now rewrite Hnone.
      - now destruct (dict_get calls k). }
    assert (Hbelow : forall k r0 a,
               dict_get (cache s) k = Some r0 -> In a r0 ->
               (a < next (objects s))%nat).
    { intros k r0 a Hk Ha.
      destruct (cache_inv_kept calls s k r0 Hinv Hk) as (_ & Hall & _).
      rewrite List.Forall_forall in Hall. now apply Hall. }
    assert (Hnew : forall a, In a r -> (next (objects s) <= a)%nat).
    { intros a Ha. rewrite Hres in Ha. apply in_seq in Ha. lia. }
    cbn [cache objects].
    split; [| split].
    + split; [| split].
      * intros k. cbn [cache]. rewrite dict_get_set, Hcalls.
        destruct (String.eqb file_name k); [split; discriminate | apply I1].
      * intros k r0. cbn [cache objects]. rewrite dict_get_set, Hcalls.
        destruct (String.eqb_spec file_name k) as [<- | Hne].
        -- intros [= <-]. exists file_content, (objects s), st.
           split; [reflexivity |]. split; [exact El |]. split; [lia | auto].
        -- intros Hk.
           destruct (I2 k r0 Hk) as (d0 & st0 & st1 & Hd & Hl & Hle & Hst).
           exists d0, st0, st1.
           split; [exact Hd |]. split; [exact Hl |]. split; [lia |].
           intros a Ha. rewrite Hold by lia. now apply Hst.
      * intros k k' r1 r2 a Hne. cbn [cache]. rewrite !dict_get_set.
        destruct (String.eqb_spec file_name k) as [<- | Hk];
          destruct (String.eqb_spec file_name k') as [<- | Hk'].
        -- contradiction.
        -- intros [= <-] H2 Ha Ha'.
           pose proof (Hnew a Ha). pose proof (Hbelow k' r2 a H2 Ha'). lia.
        -- intros H1 [= <-] Ha Ha'.
           pose proof (Hnew a Ha'). pose proof (Hbelow k r1 a H1 Ha). lia.
        -- now apply I3.
    + now rewrite dict_get_set, String.eqb_refl.
    + intros k r0 Hk. rewrite dict_get_set.
      destruct (String.eqb_spec file_name k) as [<- | _];
        [congruence | exact Hk].
Qed.

(** The calls one after the other. *)
Lemma load_files_inv (calls0 calls : list (string * node))
      (s0 s : session F) (results : list (list nat)) :
  cache_inv calls0 s0 ->
  load_files calls s0 = Ok (results, s) ->
  cache_inv (calls0 ++ calls) s
  /\ Forall2 (fun call result => dict_get (cache s) (fst call) = Some result)
             calls results
  /\ (forall k r, dict_get (cache s0) k = Some r ->
                  dict_get (cache s) k = Some r).
Proof.
  revert calls0 s0 results.
  induction calls as [|[file_name file_content] calls IH];
    intros calls0 s0 results Hinv; simpl.
  - intros [= <- <-]. rewrite app_nil_r. auto.
  - destruct (load_file_cached file_name file_content s0)
      as [[result s1]|e] eqn:E1; [| discriminate].
    destruct (load_files calls s1) as [[results' s2]|e] eqn:E2;
      [| discriminate].
    intros [= <- <-].
    destruct (load_file_cached_step _ _ _ _ _ _ Hinv E1)
      as (Hinv1 & Hget1 & Hkeep1).
    destruct (IH _ _ _ Hinv1 E2) as (Hinv2 & Hall & Hkeep2).
    rewrite <- app_assoc in Hinv2.
    split; [exact Hinv2 |]. split; [| auto].
    constructor; [| exact Hall]. now apply Hkeep2.
Qed.

(** X7.  What the cached [load_file] returns for a file name is fixed by
    what the file held at the first call with that name.  After any calls
    that have all returned, each call has returned the list the cache
    keeps for its file name; a file name is in the cache exactly when it
    has been called; and for a name in the cache every further call
    returns the list kept, whatever the file holds by then, and changes
    nothing, the records of that list being those of a run of the body on
    the first content. *)
Theorem load_file_cached_first_content (calls : list (string * node))
        (results : list (list nat)) (s : session F) :
  load_files calls empty_session = Ok (results, s) ->
  Forall2 (fun call result => dict_get (cache s) (fst call) = Some result)
          calls results
  /\ (forall file_name,
        dict_get (cache s) file_name = None
        <-> dict_get calls file_name = None)
  /\ (forall file_name result,
        dict_get (cache s) file_name = Some result ->
        (forall file_content,
            load_file_cached file_name file_content s = Ok (result, s))
        /\ exists first_content,
             dict_get calls file_name = Some first_content
             /\ forall st,
                  load_records first_content st
                  = Ok (map (store (objects s)) result)).
Proof.
  intros Hrun.
  destruct (load_files_inv [] calls _ _ _ cache_inv_empty Hrun)
    as (Hinv & Hall & _).
  cbn [app] in Hinv.
  split; [exact Hall |]. split; [apply Hinv |].
  intros file_name result Hget. split.
  - intros file_content. unfold load_file_cached. now rewrite Hget.
  - now destruct (cache_inv_kept calls s file_name result Hinv Hget)
      as (_ & _ & Hfirst).
Qed.

(** X8.  The objects of the cached [load_file].  After any calls that have
    all returned, the list kept for a file name holds distinct objects;
    two calls with the same file name have returned the same objects and
    two calls with different names lists that share no object.  A further
    call changes no object that exists: with a name in the cache it
    returns the list kept and leaves everything as it is, with another
    name it returns new objects only. *)
Theorem load_file_cached_objects (calls : list (string * node))
        (results : list (list nat)) (s : session F) :
  load_files calls empty_session = Ok (results, s) ->
  (forall file_name result,
      dict_get (cache s) file_name = Some result ->
      NoDup result /\ Forall (fun a => (a < next (objects s))%nat) result)
  /\ (forall i j ci cj ri rj,
        nth_error calls i = Some ci -> nth_error calls j = Some cj ->
        nth_error results i = Some ri -> nth_error results j = Some rj ->
        (fst ci = fst cj -> ri = rj)
        /\ (fst ci <> fst cj -> forall a, In a ri -> ~ In a rj))
  /\ (forall file_name file_content result s',
        load_file_cached file_name file_content s = Ok (result, s') ->
        (forall a, (a < next (objects s))%nat ->
                   store (objects s') a = store (objects s) a)
        /\ (forall cached,
              dict_get (cache s) file_name = Some cached ->
              result = cached /\ s' = s)
        /\ (dict_get (cache s) file_name = None ->
            Forall (fun a => (next (objects s) <= a < next (objects s'))%nat)
                   result
            /\ length result
               = (next (objects s') - next (objects s))%nat)).
Proof.
  intros Hrun.
  destruct (load_files_inv [] calls _ _ _ cache_inv_empty Hrun)
    as (Hinv & Hall & _).
  cbn [app] in Hinv.
  split; [| split].
  - intros file_name result Hget.
    destruct (cache_inv_kept calls s file_name result Hinv Hget)
      as (Hnd & Hbelow & _).
    auto.
  - intros i j ci cj ri rj Hci Hcj Hri Hrj.
    destruct (Forall2_nth_error _ _ _ _ _ Hall Hci) as (ri' & Hri' & Hgi).
    destruct (Forall2_nth_error _ _ _ _ _ Hall Hcj) as (rj' & Hrj' & Hgj).
    assert (ri' = ri) by congruence. assert (rj' = rj) by congruence.
    subst ri' rj'. split.
    + intros Heq. rewrite Heq in Hgi. congruence.
    + intros Hne a. destruct Hinv as (_ & _ & I3).
      now apply (I3 (fst ci) (fst cj) ri rj a).
  - intros file_name file_content result s' Hcall.
    unfold load_file_cached in Hcall.
    destruct (dict_get (cache s) file_name) as [kept|] eqn:Ec.
    + injection Hcall as <- <-.
      split; [reflexivity |]. split; [| discriminate].
      now intros cached [= <-].
    + destruct (load_file file_content (objects s)) as [[r st]|e] eqn:El;
        [| discriminate].
      injection Hcall as <- <-. cbn [objects].
      destruct (load_file_frame _ _ _ _ El) as (n & -> & Hnext & Hold).
      split; [exact Hold |]. split; [discriminate |]. intros _. split.
      * apply List.Forall_forall. intros a Ha%in_seq. lia.
      * rewrite length_seq. lia.
Qed.

End CacheFacts.

(** ** The data of the bar and pie charts *)

Section ChartDataFacts.
Context {F : Type} `{PyFloat F}.

(** The value read at a key of the reversed items is the one given last. *)
Lemma dict_get_rev {V : Type} (items : list (string * V)) (k : string) (v : V) :
  dict_get (rev items) k = Some v ->
  exists before after,
    items = before ++ (k, v) :: after /\ ~ In k (map fst after).
Proof.
  induction items as [|[k0 v0] items IH]; simpl; [discriminate |].
  intros Hget.
  destruct (dict_get (rev items) k) as [v'|] eqn:E.
  - assert (Hv : dict_get (rev items ++ [(k0, v0)]) k = Some v').
    { revert E. generalize (rev items). intros l.
      induction l as [|[k1 v1] l IHl]; simpl; [discriminate |].
      destruct (String.eqb k1 k); auto. }
    rewrite Hv in Hget. injection Hget as ->.
    destruct (IH eq_refl) as (before & after & -> & Hno).
    exists ((k0, v0) :: before), after. auto.
  - assert (Hv : dict_get (rev items ++ [(k0, v0)]) k
                 = if String.eqb k0 k then Some v0 else None).
    { revert E. generalize (rev items). intros l.
      induction l as [|[k1 v1] l IHl]; simpl; [reflexivity |].
      destruct (String.eqb k1 k); [discriminate | auto]. }
    rewrite Hv in Hget.
    destruct (String.eqb_spec k0 k) as [-> | Hne]; [| discriminate].
    injection Hget as ->. exists [], items. split; [reflexivity |].
    intros Hin. apply (in_rev (map fst items)) in Hin.
    rewrite <- map_rev in Hin.
    apply dict_get_key in Hin as [v' Hv']. congruence.
Qed.

Lemma by_description_spec (records : list (Information F)) :
  NoDup (map fst (by_description records))
  /\ (forall k, In k (map fst (by_description records))
                <-> In k (map description records))
  /\ (forall k v,
        dict_get (by_description records) k = Some v ->
        exists before el after,
          records = before ++ el :: after
          /\ description el = k /\ number el = v
          /\ Forall (fun o => description o <> k) after).
Proof.
  unfold by_description, dict_of.
  destruct (fold_dict_set
              (map (fun el => (description el, number el)) records) [])
    as (H1 & H2 & H3).
  cbv zeta in H1, H2, H3.
  split; [apply H1; constructor |]. split.
  - intros k. rewrite H2, map_map. simpl. tauto.
  - intros k v. rewrite H3.
    destruct (dict_get (rev _) k) as [v'|] eqn:E; [| discriminate].
    intros [= ->].
    apply dict_get_rev in E as (before & after & Hsplit & Hno).
    apply map_eq_app in Hsplit as (l1 & l2 & -> & _ & Hl2).
    apply map_eq_cons in Hl2 as (el & l3 & -> & Hel & <-).
    injection Hel as <- <-.
    exists l1, el, l3. repeat split.
    apply List.Forall_forall. intros o Ho Hd. apply Hno.
    rewrite map_map. apply in_map_iff. exists o. split; [exact Hd | exact Ho].
Qed.

(** X17.  The bar chart and the pie chart of a category.  The dictionary
    built from the selected records keeps one item for each description
    that does not contain ["Total"]: no description is charted twice, the
    value charted for a description is the count of the last kept record
    that has it, and the chart shows the keys and the values of this
    dictionary in its order. *)
Theorem chart_data_without_total (selected_data : list (Information F)) :
  let kept :=
    List.filter (fun el => negb (Str.contains "Total" (description el)))
                selected_data in
  NoDup (map fst (without_total selected_data))
  /\ (forall k, In k (map fst (without_total selected_data))
                <-> exists el, In el selected_data
                               /\ description el = k
                               /\ Str.contains "Total" k = false)
  /\ (forall k v,
        dict_get (without_total selected_data) k = Some v ->
        exists before el after,
          kept = before ++ el :: after
          /\ description el = k /\ number el = v
          /\ Forall (fun o => description o <> k) after)
  /\ (forall chart_title legend,
        traces (plot_bar_chart (without_total selected_data) chart_title
                               legend)
        = [Bar (map fst (without_total selected_data))
               (map snd (without_total selected_data))
               (map snd (without_total selected_data)) "auto" "Sbra"]
        /\ traces (plot_pie_chart (without_total selected_data) chart_title
                                  legend)
           = [Pie (map fst (without_total selected_data))
                  (map snd (without_total selected_data))]).
Proof.
  intros kept. unfold without_total. fold kept.
  destruct (by_description_spec kept) as (H1 & H2 & H3).
  split; [exact H1 |]. split; [| split; [exact H3 | now split]].
  intros k. rewrite H2, in_map_iff. unfold kept.
  split.
  - intros (el & <- & Hin). apply filter_In in Hin as [Hin Hc].
    apply negb_true_iff in Hc. eauto.
  - intros (el & Hin & <- & Hc). exists el. split; [reflexivity |].
    apply filter_In. split; [exact Hin |]. now apply negb_true_iff.
Qed.

End ChartDataFacts.

(** ** [plot_line_chart] *)

Section LineFacts.
Context {V : Type}.

Lemma str_le_total : Total str_le.
Proof. intros a b. apply String.leb_total. Qed.

Lemma line_of_spec (data : list (string * list (string * V)))
      (county : string) :
  In county (map fst data) ->
  exists series xs ys,
    dict_get data county = Some series
    /\ line_of data county = Some (Scatter xs ys "lines+markers" county)
    /\ Sorted str_le xs
    /\ xs ≡ₚ map fst series
    /\ Forall2 (fun k v => dict_get series k = Some v) xs ys.
Proof.
  intros Hin. destruct (dict_get_key data county Hin) as [series Hs].
  pose proof (merge_sort_Permutation str_le (map fst series)) as Hperm.
  pose proof (@Sorted_merge_sort _ str_le _ str_le_total (map fst series))
    as Hsorted.
  assert (Hys : is_Some (mapM (dict_get series) (sorted (map fst series)))).
  { apply mapM_is_Some. apply List.Forall_forall. intros k Hk.
    unfold sorted in Hk. apply list_elem_of_In in Hk. rewrite Hperm in Hk.
    apply list_elem_of_In in Hk.
    destruct (dict_get_key series k Hk) as [v Hv].
    unfold compose. rewrite Hv. eauto. }
  destruct Hys as [ys Hys].
  exists series, (sorted (map fst series)), ys.
  split; [exact Hs |]. split.
  - unfold line_of. rewrite Hs. simpl. rewrite Hys. reflexivity.
  - split; [exact Hsorted |]. split; [exact Hperm |].
    now apply mapM_Some.
Qed.

(** X18.  [plot_line_chart] never raises, and it draws one line for each
    key of [data], in their order: the line of a key has the dates of its
    series in ascending order of their texts, each date once for each time
    it is a key, and at each date the value the series holds for it,
    whatever the order of the series was. *)
Theorem plot_line_chart_sorted (data : list (string * list (string * V)))
        (title : option string) (legend : bool) :
  exists lines : list (trace V),
    plot_line_chart data title legend
    = Some {| traces := lines;
              layout := {| showlegend := legend;
                           width := 800;
                           height := 600;
                           yaxis := Some [("rangemode", "tozero")];
                           title := title |} |}
    /\ Forall2 (fun county line =>
                  exists series xs ys,
                    dict_get data county = Some series
                    /\ line = Scatter xs ys "lines+markers" county
                    /\ Sorted str_le xs
                    /\ xs ≡ₚ map fst series
                    /\ Forall2 (fun k v => dict_get series k = Some v) xs ys)
               (map fst data) lines.
Proof.
  assert (Hlines : forall keys,
             (forall k, In k keys -> In k (map fst data)) ->
             exists lines,
               mapM (line_of data) keys = Some lines
               /\ Forall2 (fun county line =>
                             exists series xs ys,
                               dict_get data county = Some series
                               /\ line = Scatter xs ys "lines+markers" county
                               /\ Sorted str_le xs
                               /\ xs ≡ₚ map fst series
                               /\ Forall2 (fun k v =>
                                             dict_get series k = Some v)
                                          xs ys)
                          keys lines).
  { induction keys as [|county keys IH]; intros Hsub.
    - exists []. split; [reflexivity | constructor].
    - destruct (line_of_spec data county) as
        (series & xs & ys & Hs & Hline & Hsorted & Hperm & Hval);
        [apply Hsub; now left |].
      destruct IH as (lines & Hm & Hall); [intros k Hk; apply Hsub; now right |].
      exists (Scatter xs ys "lines+markers" county :: lines). split.
      + cbn. rewrite Hline. cbn. rewrite Hm. reflexivity.
      + constructor; [| exact Hall]. exists series, xs, ys. auto. }
  destruct (Hlines (map fst data)) as (lines & Hm & Hall); [auto |].
  exists lines. split; [| exact Hall].
  unfold plot_line_chart. rewrite Hm. reflexivity.
Qed.

End LineFacts.

(** ** Runs of the further properties *)


Lemma load_file_one_record_per_row_witness :
  map (fun o => (description o, info_type o))
      (Runs.loaded Docs.snapshot_two_tables)
  = row_keys (zip_tables Docs.snapshot_two_tables)
  /\ length (Runs.loaded Docs.snapshot_two_tables)
     = length (concat (map (fun p => data (fst p))
                           (zip_tables Docs.snapshot_two_tables))).
Proof.
  apply (load_file_one_record_per_row (F := Q) Docs.snapshot_two_tables
                                      empty_state).
  reflexivity.
Defined.

Lemma load_file_counts_nonneg_witness :
  Forall (fun o => 0 <= number o) (Runs.loaded Docs.snapshot_two_tables).
Proof.
  apply (load_file_counts_nonneg (F := Q) Docs.snapshot_two_tables
                                 empty_state).
  reflexivity.
Defined.

Lemma load_file_texts_trimmed_witness :
  Forall (fun o =>
            Str.trimmed (description o) = true
            /\ Str.trimmed (info_type o) = true
            /\ exists h, In h (find_all "h2" Docs.snapshot_two_tables)
                         /\ info_type o = Str.strip (text h))
         (Runs.loaded Docs.snapshot_two_tables).
Proof.
  apply (load_file_texts_trimmed (F := Q) Docs.snapshot_two_tables
                                 empty_state).
  reflexivity.
Defined.

Lemma load_file_cached_first_content_witness :
  load_files Runs.three_calls empty_session
  = Ok ([[0; 1; 2]; [3; 4; 5; 6; 7]; [0; 1; 2]]%nat, Runs.after_three_calls)
  /\ (forall file_content,
        load_file_cached "data/2020_03_19.html" file_content
                         Runs.after_three_calls
        = Ok ([0; 1; 2]%nat, Runs.after_three_calls))
  /\ exists first_content,
       dict_get Runs.three_calls "data/2020_03_19.html" = Some first_content
       /\ forall st,
            load_records first_content st
            = Ok (map (store (objects Runs.after_three_calls))
                      [0; 1; 2]%nat).
Proof.
  assert (Hrun : load_files Runs.three_calls empty_session
                 = Ok ([[0; 1; 2]; [3; 4; 5; 6; 7]; [0; 1; 2]]%nat,
                       Runs.after_three_calls))
    by (vm_compute; reflexivity).
  split; [exact Hrun |].
  refine (proj2 (proj2 (load_file_cached_first_content _ _ _ Hrun))
                "data/2020_03_19.html" [0; 1; 2]%nat _).
  vm_compute. reflexivity.
Defined.

Lemma load_file_cached_objects_witness :
  load_files Runs.three_calls empty_session
  = Ok ([[0; 1; 2]; [3; 4; 5; 6; 7]; [0; 1; 2]]%nat, Runs.after_three_calls)
  /\ ((forall file_name result,
         dict_get (cache Runs.after_three_calls) file_name = Some result ->
         NoDup result
         /\ Forall (fun a => (a < next (objects Runs.after_three_calls))%nat)
                   result)
      /\ forall i j ci cj ri rj,
           nth_error Runs.three_calls i = Some ci ->
           nth_error Runs.three_calls j = Some cj ->
           nth_error [[0; 1; 2]; [3; 4; 5; 6; 7]; [0; 1; 2]]%nat i = Some ri ->
           nth_error [[0; 1; 2]; [3; 4; 5; 6; 7]; [0; 1; 2]]%nat j = Some rj ->
           (fst ci = fst cj -> ri = rj)
           /\ (fst ci <> fst cj -> forall a, In a ri -> ~ In a rj)).
Proof.
  assert (Hrun : load_files Runs.three_calls empty_session
                 = Ok ([[0; 1; 2]; [3; 4; 5; 6; 7]; [0; 1; 2]]%nat,
                       Runs.after_three_calls))
    by (vm_compute; reflexivity).
  split; [exact Hrun |].
  split.
  - exact (proj1 (load_file_cached_objects _ _ _ Hrun)).
  - exact (proj1 (proj2 (load_file_cached_objects _ _ _ Hrun))).
Defined.

Lemma nested_table_rows_witness :
  incl (cols (parse_html_table Docs.county_table))
       (cols (parse_html_table Runs.nested_table))
  /\ incl (data (parse_html_table Docs.county_table))
          (data (parse_html_table Runs.nested_table)).
Proof.
  apply nested_table_rows.
  unfold Runs.nested_table. simpl. do 7 right. left. reflexivity.
Defined.

Lemma evolution_data_bounds_witness :
  Forall2 (fun d e => fst e = fst d
                      /\ 0 <= snd e <= sum (county_numbers (snd d)))
          Runs.two_days
          [("2020_03_19", 5); ("2020_03_20", 5)].
Proof.
  apply (evolution_data_bounds Runs.two_days ["Dublin"; "Cork"]
           [ ("Dublin", [("2020_03_19", 10); ("2020_03_20", 10)]);
             ("Cork", [("2020_03_19", 5); ("2020_03_20", 5)]) ]
           "Cork").
  - repeat constructor.
    + exists Docs.snapshot_2020_03_19, empty_state. reflexivity.
    + exists Docs.snapshot_two_tables, empty_state. reflexivity.
  - reflexivity.
  - right. left. reflexivity.
Defined.

Lemma plot_map_needs_every_county_witness :
  exists (max_size : Z) (steps : list (list (artist Q))),
    py_max (map number (selected_data (Runs.loaded Runs.every_county)))
    = Ok max_size
    /\ max_size <> 0
    /\ Forall2 (drawn_for (selected_data (Runs.loaded Runs.every_county))
                          max_size)
               COUNTY_SETTINGS steps
    /\ Runs.every_county_map = concat steps.
Proof.
  refine (proj2 (plot_map_needs_every_county
                   (selected_data (Runs.loaded Runs.every_county))
                   Runs.every_county_map _)).
  vm_compute. reflexivity.
Defined.

Lemma rescale_patch_size_range_witness :
  (0 <= 11 <= 15 /\ 0 < 15 < 2 ^ 1000)
  /\ exists r : Z,
       rescale_patch_size (F := spec_float) (fl_ratio 11 15) = Return r
       /\ 5 <= r <= 155 /\ (11 = 0 -> r = 5) /\ (11 = 15 -> r = 155).
Proof.
  assert (Hn : 0 <= 11 <= 15) by lia.
  assert (Hm : 0 < 15 < 2 ^ 1000) by (split; reflexivity).
  split; [split; [exact Hn | exact Hm] |].
  exact (rescale_patch_size_range 11 15 Hn Hm).
Defined.

Lemma plot_map_of_loaded_witness :
  exists drawn : list (artist Q),
    plot_map (selected_data (Runs.loaded Runs.every_county)) = Return drawn
    /\ length drawn = 46%nat
    /\ Forall (fun a => forall r, radius_of a = Some r -> 5 <= r <= 155)
              drawn.
Proof.
  refine (proj2 (proj2 (plot_map_of_loaded (F := Q) Runs.every_county
                                           empty_state
                                           (Runs.loaded Runs.every_county)
                                           _ _)) _);
    vm_compute; reflexivity.
Defined.

Example markdown_table_short_column :
  markdown_table [("Type", [PyStr "Dublin"; PyStr "Cork"; PyStr "Clare"]);
                  ("Number", [PyInt 10; PyInt 5])] "Cases"
  = "## Cases" +:+ LF +:+ "Type|Number" +:+ LF +:+ "---|---" +:+ LF
    +:+ "Dublin|10" +:+ LF +:+ "Cork|5" +:+ LF.
Proof. reflexivity. Qed.

Example markdown_table_no_column :
  markdown_table [] "Cases" = "## Cases" +:+ LF +:+ LF +:+ LF.
Proof. reflexivity. Qed.

Example statistics_table_of_ages :
  statistics_table
    (List.filter (fun el => String.eqb (info_type el) "Age range affected")
                 (Runs.loaded Docs.snapshot_two_tables))
    "Age range affected"
  = "## Age range affected" +:+ LF +:+ "Type|Number|Rate" +:+ LF
    +:+ "---|---|---" +:+ LF +:+ "<5|3|1.500%" +:+ LF
    +:+ "65+|7|0.000%" +:+ LF.
Proof. reflexivity. Qed.

Example evolution_of_a_missing_county :
  evolution_data Runs.two_days ["Dublin"; "Kerry"] = Raise IndexError.
Proof. reflexivity. Qed.

Example radius_of_eleven_fifteenths :
  rescale_patch_size (F := spec_float) (fl_ratio 11 15) = Return 114.
Proof. vm_compute. reflexivity. Qed.

(** In binary64 the circle of Dublin, which has the largest count, gets the
    radius 155 and the circles of the counties with a third of it the
    radius 55. *)
Example every_county_radii :
  match plot_map (F := spec_float)
                 (selected_data
                    (match load_records Runs.every_county empty_state with
                     | Ok out => out
                     | Raise _ => []
                     end)) with
  | Return drawn =>
      omap radius_of drawn
      = [55; 55; 55; 55; 55; 155; 55; 55; 55; 55; 55; 55; 55; 55; 55; 55;
         55; 55; 55; 55; 55; 55; 55]
  | Throw _ => False
  end.
Proof. vm_compute. reflexivity. Qed.

Example map_of_a_snapshot_without_carlow :
  plot_map (F := spec_float)
           (selected_data
              (match load_records Docs.snapshot_2020_03_19 empty_state with
               | Ok out => out
               | Raise _ => []
               end))
  = Throw (Std IndexError).
Proof. vm_compute. reflexivity. Qed.

Example line_chart_in_date_order :
  plot_line_chart
    [("Total", [("2020_03_20", 25); ("2020_03_18", 7); ("2020_03_19", 15)])]
    None true
  = Some {| traces := [Scatter ["2020_03_18"; "2020_03_19"; "2020_03_20"]
                               [7; 15; 25] "lines+markers" "Total"];
            layout := {| showlegend := true; width := 800; height := 600;
                         yaxis := Some [("rangemode", "tozero")];
                         title := None |} |}.
Proof. reflexivity. Qed.

Example bars_of_repeated_descriptions :
  by_description (F := Q)
    [ {| description := "Dublin"; number := 10; rate := fl_of_int 0;
         info_type := "Cases by county" |};
      {| description := "Cork"; number := 5; rate := fl_of_int 0;
         info_type := "Cases by county" |};
      {| description := "Dublin"; number := 12; rate := fl_of_int 0;
         info_type := "Cases by county" |} ]
  = [("Dublin", 12); ("Cork", 5)].
Proof. reflexivity. Qed.
